(** * termui: terminal progress bars and spinners

    A shallow embedding of the Go packages [progress] and [spinner] of
    dreamsofcode-io/termui, and the properties of their lifecycle, clamping,
    width calculation, rendering and registry.

    Two generations of each package live in the repository: the configurable
    one (options, [started]/[stopped] flags, [MultiBar], [RunWithTimeout]) and
    the first, short one under [progress/progress.go] and
    [spinner/spinner.go].  The configurable packages are embedded in the
    modules [Progress] and [Spinner], the first ones in [Progress0] and
    [Spinner0]; the modules [BarSystem], [RunSystem], [SpinnerSystem] and
    [RunWithTimeout] put them among their goroutines.  [MultiBarOps],
    [MultiSpinnerOps], [ProgressConvenience] and [SpinnerRun] embed the
    operations of the registries and the convenience functions, and [Color]
    the package [color].

    Conventions.
    - Go's [int] and [int64] are [Z] with the 64-bit wrap-around written
      [wrap64]; [float64] is the primitive binary64 type [float].
    - A Go [string] is a [string] of bytes; what a call writes to its
      [io.Writer] is returned as the list of the written chunks, in order.
    - A run-time panic is [None].
    - What the code reads from its environment (the terminal size, the clock,
      the platform's float-to-int conversion outside the integer range) is
      an explicit argument. *)

From Stdlib Require Import ZArith String Ascii List Lia Bool Floats DecimalString.
From stdpp Require Import base option gmap strings.
Import ListNotations.

#[local] Open Scope Z_scope.

(** ** The Go runtime and library functions the packages call *)

Module Go.

(** [int] and [int64]: two's complement on 64 bits. *)
Definition wrap64 (z : Z) : Z := (z + 2 ^ 63) mod 2 ^ 64 - 2 ^ 63.

Definition in_int64 (z : Z) : bool := (- 2 ^ 63 <=? z) && (z <=? 2 ^ 63 - 1).

(** [math.IsNaN], [math.IsInf], [math.Signbit]. *)
Definition IsNaN (f : float) : bool := negb (PrimFloat.eqb f f).

Definition IsInf (f : float) (sign : Z) : bool :=
  ((0 <=? sign) && PrimFloat.eqb f infinity)
  || ((sign <=? 0) && PrimFloat.eqb f neg_infinity).

Definition Signbit (f : float) : bool := get_sign f.

(** [math.Max]: the special cases first (an infinity, a NaN, the two zeros),
    then [if x > y { return x }; return y]. *)
Definition Max (x y : float) : float :=
  if IsInf x 1 || IsInf y 1 then infinity
  else if IsNaN x || IsNaN y then nan
  else if PrimFloat.eqb x zero && PrimFloat.eqb x y
       then (if Signbit x then y else x)
  else if PrimFloat.ltb y x then x else y.

(** [math.Min]. *)
Definition Min (x y : float) : float :=
  if IsInf x (-1) || IsInf y (-1) then neg_infinity
  else if IsNaN x || IsNaN y then nan
  else if PrimFloat.eqb x zero && PrimFloat.eqb x y
       then (if Signbit x then x else y)
  else if PrimFloat.ltb x y then x else y.

(** The conversion [float64(n)] of an integer: round to nearest, ties to
    even. *)
Definition float64_of_int (n : Z) : float :=
  SF2Prim (binary_normalize prec emax n 0 false).

(** The conversion [int(f)] truncates towards zero.  Where the truncated
    value is no [int] (and for a NaN or an infinity) Go leaves the result to
    the implementation: the platform supplies it. *)
Class Platform := { int_of_unrepresentable : float -> Z }.

Definition trunc_spec (f : spec_float) : option Z :=
  match f with
  | S754_zero _ => Some 0
  | S754_finite s m e =>
      let a := if 0 <=? e then Z.pos m * 2 ^ e else Z.pos m / 2 ^ (- e) in
      Some (if s then - a else a)
  | S754_infinity _ | S754_nan => None
  end.

Definition int_of_float64 `{Platform} (f : float) : Z :=
  match trunc_spec (Prim2SF f) with
  | Some z => if in_int64 z then z else int_of_unrepresentable f
  | None => int_of_unrepresentable f
  end.

(** amd64: [CVTTSD2SQ] yields the "integer indefinite" value. *)
Definition amd64 : Platform := {| int_of_unrepresentable := fun _ => - 2 ^ 63 |}.

(** Strings. *)
Definition byte (n : Z) : string := String (ascii_of_N (Z.to_N n)) EmptyString.

Definition CR : string := byte 13.

Fixpoint repeat_string (s : string) (n : nat) : string :=
  match n with
  | O => EmptyString
  | S n' => String.append s (repeat_string s n')
  end.

(** [strings.Repeat]: panics on a negative count. *)
Definition Repeat (s : string) (count : Z) : option string :=
  if count <? 0 then None else Some (repeat_string s (Z.to_nat count)).

(** [for i := 0; i < count; i++ { sb.WriteString(s) }]: nothing for a count
    that is not positive. *)
Definition write_times (s : string) (count : Z) : string :=
  repeat_string s (Z.to_nat count).

Definition len (s : string) : Z := Z.of_nat (String.length s).

(** [fmt]'s [%d] and its padded forms. *)
Definition digits (n : Z) : string := NilZero.string_of_uint (N.to_uint (Z.to_N (Z.abs n))).

Definition sign_of (n : Z) : string := if n <? 0 then "-"%string else EmptyString.

Definition pad (c : string) (width : Z) (s : string) : string :=
  String.append (write_times c (width - len s)) s.

(** [%3d]: right-aligned in three columns, padded with blanks. *)
Definition fmt_3d (n : Z) : string :=
  pad " " 3 (String.append (sign_of n) (digits n)).

(** [%02d]: two columns, zeros between the sign and the digits. *)
Definition fmt_02d (n : Z) : string :=
  String.append (sign_of n) (pad "0" (2 - len (sign_of n)) (digits n)).

(** [%c]: the UTF-8 encoding of a rune; U+FFFD for what is no code point. *)
Definition utf8 (r : Z) : string :=
  if (r <? 0) || (1114111 <? r) || ((55296 <=? r) && (r <=? 57343))
  then String.append (byte 239) (String.append (byte 191) (byte 189))
  else if r <? 128 then byte r
  else if r <? 2048 then
    String.append (byte (192 + r / 64)) (byte (128 + r mod 64))
  else if r <? 65536 then
    String.append (byte (224 + r / 4096))
      (String.append (byte (128 + (r / 64) mod 64)) (byte (128 + r mod 64)))
  else
    String.append (byte (240 + r / 262144))
      (String.append (byte (128 + (r / 4096) mod 64))
         (String.append (byte (128 + (r / 64) mod 64)) (byte (128 + r mod 64)))).

(** [time.Duration.String], which [%v] prints: [fmtFrac], [fmtInt] and
    [format]. *)
Definition digit_char (d : Z) : ascii := ascii_of_N (Z.to_N (48 + d)).

Fixpoint fmtFrac_loop (v : Z) (prec : nat) (print : bool) (acc : string)
    : string * Z * bool :=
  match prec with
  | O => (acc, v, print)
  | S k =>
      let digit := v mod 10 in
      let print := print || negb (digit =? 0) in
      fmtFrac_loop (v / 10) k print (if print then String (digit_char digit) acc else acc)
  end.

Definition fmtFrac (v : Z) (prec : nat) : string * Z :=
  let '(acc, v, print) := fmtFrac_loop v prec false EmptyString in
  (if print then String.append "." acc else acc, v).

Definition Duration_String (d : Z) : string :=
  let u := Z.abs d in
  let body :=
    if u <? 1000000000 then
      if u =? 0 then "0s"%string
      else if u <? 1000 then String.append (digits u) "ns"
      else if u <? 1000000 then
        let '(frac, v) := fmtFrac u 3 in
        String.append (digits v) (String.append frac (String.append (byte 194) (String.append (byte 181) "s")))
      else
        let '(frac, v) := fmtFrac u 6 in
        String.append (digits v) (String.append frac "ms")
    else
      let '(frac, v) := fmtFrac u 9 in
      let sec := String.append (digits (v mod 60)) (String.append frac "s") in
      let v := v / 60 in
      if 0 <? v then
        let min := String.append (digits (v mod 60)) (String.append "m" sec) in
        let v := v / 60 in
        if 0 <? v then String.append (digits v) (String.append "h" min) else min
      else sec in
  String.append (sign_of d) body.

End Go.

(** ** The configurable progress bar (package [progress]) *)

Module Progress.
Import Go.

(** [BarConfig].  The [Writer] field is the destination of the writes that
    the functions below return. *)
Record BarConfig := mkBarConfig {
  Width : Z;            (* fixed width (0 = auto-detect terminal width) *)
  FilledChar : string;
  EmptyChar : string;
  ShowPercent : bool;
  ShowETA : bool
}.

(** [Bar].  [termSizeCh] and [lock] belong to the concurrent system
    ([BarSystem] below); a method that holds the lock from its first to its
    last statement is one function here. *)
Record Bar := mkBar {
  config : BarConfig;
  totalWidth : Z;
  lastProgress : float;
  started : bool;
  stopped : bool;
  startTime : Z         (* nanoseconds; [time.Time{}] is 0 *)
}.

Definition set_totalWidth (b : Bar) (w : Z) : Bar :=
  mkBar (config b) w (lastProgress b) (started b) (stopped b) (startTime b).
Definition set_lastProgress (b : Bar) (p : float) : Bar :=
  mkBar (config b) (totalWidth b) p (started b) (stopped b) (startTime b).
Definition set_started (b : Bar) (v : bool) : Bar :=
  mkBar (config b) (totalWidth b) (lastProgress b) v (stopped b) (startTime b).
Definition set_stopped (b : Bar) (v : bool) : Bar :=
  mkBar (config b) (totalWidth b) (lastProgress b) (started b) v (startTime b).
Definition set_startTime (b : Bar) (t : Z) : Bar :=
  mkBar (config b) (totalWidth b) (lastProgress b) (started b) (stopped b) t.

(** Functional options. *)
Definition Option := BarConfig -> BarConfig.

Definition WithWidth (width : Z) : Option :=
  fun c => mkBarConfig width (FilledChar c) (EmptyChar c) (ShowPercent c) (ShowETA c).
Definition WithFilledChar (char : string) : Option :=
  fun c => mkBarConfig (Width c) char (EmptyChar c) (ShowPercent c) (ShowETA c).
Definition WithEmptyChar (char : string) : Option :=
  fun c => mkBarConfig (Width c) (FilledChar c) char (ShowPercent c) (ShowETA c).
Definition WithPercent (show : bool) : Option :=
  fun c => mkBarConfig (Width c) (FilledChar c) (EmptyChar c) show (ShowETA c).
Definition WithETA (show : bool) : Option :=
  fun c => mkBarConfig (Width c) (FilledChar c) (EmptyChar c) (ShowPercent c) show.

(** Predefined styles ([Width] has its zero value). *)
Definition StyleDefault : BarConfig := mkBarConfig 0 "#" " " true false.
Definition StyleBlocks : BarConfig := mkBarConfig 0 "█" "░" true false.
Definition StyleDots : BarConfig := mkBarConfig 0 "●" "○" true false.
Definition StyleMinimal : BarConfig := mkBarConfig 0 "=" "-" false false.

(** The space [calculateWidth] reserves for the percentage and the ETA. *)
Definition reservedSpace (c : BarConfig) : Z :=
  let reservedSpace := 0 in
  let reservedSpace := if ShowPercent c then reservedSpace + 5 else reservedSpace in
  let reservedSpace := if ShowETA c then reservedSpace + 12 else reservedSpace in
  reservedSpace.

(** [calculateWidth].  [tsize] is what [term.GetSize] answers: [None] for an
    error, the column count otherwise. *)
Definition calculateWidth (tsize : option Z) (b : Bar) : Bar :=
  if 0 <? Width (config b) then set_totalWidth b (Width (config b))
  else
    match tsize with
    | None => set_totalWidth b 60
    | Some width =>
        let w := wrap64 (width - reservedSpace (config b) - 2) in
        set_totalWidth b (if w <? 10 then 10 else w)
    end.

(** [NewBarWithConfig]: the options in order, then the defaults for what is
    left empty. *)
Definition NewBarWithConfig (tsize : option Z) (config : BarConfig)
    (opts : list Option) : Bar :=
  let config := fold_left (fun c opt => opt c) opts config in
  let config :=
    if String.eqb (FilledChar config) "" then WithFilledChar "#" config else config in
  let config :=
    if String.eqb (EmptyChar config) "" then WithEmptyChar " " config else config in
  calculateWidth tsize (mkBar config 0 zero false false 0).

Definition NewBar (tsize : option Z) : Bar := NewBarWithConfig tsize StyleDefault [].

Definition NewBarWithStyle (tsize : option Z) (style : BarConfig) : Bar :=
  NewBarWithConfig tsize style [].

(** [clearLine]: the one chunk it writes, a carriage return and blanks. *)
Definition clearLine (b : Bar) : option string :=
  let totalClearWidth := totalWidth b in
  let totalClearWidth :=
    if ShowPercent (config b) then wrap64 (totalClearWidth + 5) else totalClearWidth in
  let totalClearWidth :=
    if ShowETA (config b) then wrap64 (totalClearWidth + 12) else totalClearWidth in
  match Repeat " " (wrap64 (totalClearWidth + 5)) with
  | Some empty => Some (String.append CR empty)
  | None => None
  end.

(** [Start] at clock reading [now]: the new bar and the chunks written. *)
Definition Start (now : Z) (b : Bar) : option (Bar * list string) :=
  if started b && negb (stopped b) then Some (b, [])
  else
    let b := set_started b true in
    let b := set_stopped b false in
    let b := set_startTime b now in
    match clearLine b with
    | Some chunk => Some (set_lastProgress b zero, [chunk])
    | None => None
    end.

(** [Start] goes on to spawn [handleResize] exactly for an auto-width bar. *)
Definition watches_resize (b : Bar) : bool := Width (config b) =? 0.

(** [Stop]. *)
Definition Stop (b : Bar) : option (Bar * list string) :=
  if stopped b then Some (b, [])
  else
    let b := set_stopped b true in
    match clearLine b with
    | Some chunk => Some (b, [chunk; CR])
    | None => None
    end.

Section Rendering.
Context `{Platform}.

(** [calculateETA]. *)
Definition calculateETA (now : Z) (b : Bar) (progress : float) : string :=
  if PrimFloat.leb progress zero then "--:--"%string
  else
    let elapsed := now - startTime b in
    let totalEstimated := int_of_float64 (float64_of_int elapsed / progress) in
    let remaining := wrap64 (totalEstimated - elapsed) in
    let remaining := if remaining <? 0 then 0 else remaining in
    let Minutes :=
      (float64_of_int (Z.quot remaining 60000000000)
       + float64_of_int (Z.rem remaining 60000000000) / float64_of_int 60000000000)%float in
    let Seconds :=
      (float64_of_int (Z.quot remaining 1000000000)
       + float64_of_int (Z.rem remaining 1000000000) / float64_of_int 1000000000)%float in
    let minutes := int_of_float64 Minutes in
    let seconds := Z.rem (int_of_float64 Seconds) 60 in
    String.append (fmt_02d minutes) (String.append ":" (fmt_02d seconds)).

(** The three parts of the line [SetProgress] builds. *)
Definition filledCount (b : Bar) (progress : float) : Z :=
  int_of_float64 (float64_of_int (totalWidth b) * progress).

Definition track (b : Bar) (progress : float) : string :=
  let filledCount := filledCount b progress in
  let emptyCount := wrap64 (totalWidth b - filledCount) in
  String.append (write_times (FilledChar (config b)) filledCount)
                (write_times (EmptyChar (config b)) emptyCount).

Definition percent_suffix (b : Bar) (progress : float) : string :=
  if ShowPercent (config b)
  then
    let percentage := int_of_float64 (progress * float64_of_int 100) in
    String.append " " (String.append (fmt_3d percentage) "%")
  else EmptyString.

Definition eta_suffix (now : Z) (b : Bar) (progress : float) : string :=
  if ShowETA (config b)
  then String.append " ETA: " (calculateETA now b progress)
  else EmptyString.

Definition render (now : Z) (b : Bar) (progress : float) : string :=
  String.append CR
    (String.append (track b progress)
       (String.append (percent_suffix b progress) (eta_suffix now b progress))).

(** [SetProgress], in the three phases its locking separates: the check
    under the read lock, the store under the write lock, the rendering with
    no lock held. *)
Definition SetProgress_guard (b : Bar) : bool := negb (started b) || stopped b.

Definition clamp (progress : float) : float := Max zero (Min one progress).

Definition SetProgress_store (progress : float) (b : Bar) : Bar :=
  set_lastProgress b progress.

Definition SetProgress (now : Z) (progress : float) (b : Bar) : Bar * list string :=
  if SetProgress_guard b then (b, [])
  else
    let progress := clamp progress in
    let b := SetProgress_store progress b in
    (b, [render now b progress]).

(** [Increment]. *)
Definition Increment (now : Z) (delta : float) (b : Bar) : Bar * list string :=
  let current := lastProgress b in
  SetProgress now (current + delta)%float b.

End Rendering.

Definition GetProgress (b : Bar) : float := lastProgress b.
Definition IsStarted (b : Bar) : bool := started b.
Definition IsStopped (b : Bar) : bool := stopped b.

(** [Reset]. *)
Definition Reset (b : Bar) : Bar :=
  mkBar (config b) (totalWidth b) zero false false 0.

End Progress.

(** ** The bar among its goroutines

    [Bar]'s methods take [b.lock] in sections; between two sections any
    other goroutine may run.  A state of the system is the bar, what has
    been written to its [Writer], the signal channel [termSizeCh] and where
    each goroutine stands; a step runs one goroutine up to the end of its
    next locked section (or its next write). *)

Module BarSystem.
Import Go Progress.

(** Who runs [SetProgress]: [handleResize], which loops, or a caller. *)
Inductive role := Watcher | Caller.

(** Where a goroutine stands. *)
Inductive pc :=
| Select                                (* handleResize: [case <-b.termSizeCh] *)
| Locking                               (* handleResize: at [b.lock.Lock()] *)
| SP_check (r : role) (progress : float)    (* SetProgress: at [b.lock.RLock()] *)
| SP_store (r : role) (progress : float)    (* SetProgress: at [b.lock.Lock()] *)
| SP_render (r : role) (progress : float)   (* SetProgress: about to build and write *)
| Exited.

Definition after (r : role) : pc :=
  match r with Watcher => Select | Caller => Exited end.

Record sys := mkSys {
  bar : Bar;
  sink : list string;        (* the chunks written to [config.Writer] *)
  termSizeCh : bool;         (* [make(chan os.Signal, 1)]: one signal buffered? *)
  notified : bool;           (* [signal.Notify] in force *)
  term : option Z;           (* what [term.GetSize] answers now *)
  now : Z;                   (* the clock *)
  threads : list pc
}.

Inductive label :=
| CallStart                      (* some goroutine runs [b.Start()] *)
| CallStop                       (* some goroutine runs [b.Stop()] *)
| CallSetProgress (progress : float)   (* some goroutine enters [b.SetProgress] *)
| Sigwinch (t : option Z)        (* the terminal is resized: SIGWINCH *)
| Advance (d : Z)                (* time passes *)
| Step (i : nat).                (* goroutine [i] moves *)

Definition init (b : Bar) (t : option Z) : sys := mkSys b [] false false t 0 [].

Section Steps.
Context `{Platform}.

Definition step_thread (i : nat) (s : sys) : option sys :=
  match threads s !! i with
  | Some Select =>
      if termSizeCh s
      then Some (mkSys (bar s) (sink s) false (notified s) (term s) (now s)
                   (<[i := Locking]> (threads s)))
      else None
  | Some Locking =>
      if stopped (bar s)
      then Some (mkSys (bar s) (sink s) (termSizeCh s) (notified s) (term s) (now s)
                   (<[i := Exited]> (threads s)))
      else
        let b := calculateWidth (term s) (bar s) in
        let progress := lastProgress b in
        Some (mkSys b (sink s) (termSizeCh s) (notified s) (term s) (now s)
                (<[i := SP_check Watcher progress]> (threads s)))
  | Some (SP_check r progress) =>
      if SetProgress_guard (bar s)
      then Some (mkSys (bar s) (sink s) (termSizeCh s) (notified s) (term s) (now s)
                   (<[i := after r]> (threads s)))
      else Some (mkSys (bar s) (sink s) (termSizeCh s) (notified s) (term s) (now s)
                   (<[i := SP_store r (clamp progress)]> (threads s)))
  | Some (SP_store r progress) =>
      Some (mkSys (SetProgress_store progress (bar s)) (sink s) (termSizeCh s)
              (notified s) (term s) (now s)
              (<[i := SP_render r progress]> (threads s)))
  | Some (SP_render r progress) =>
      Some (mkSys (bar s) (sink s ++ [render (now s) (bar s) progress]) (termSizeCh s)
              (notified s) (term s) (now s)
              (<[i := after r]> (threads s)))
  | Some Exited | None => None
  end.

Definition step (l : label) (s : sys) : option sys :=
  match l with
  | CallStart =>
      match Start (now s) (bar s) with
      | None => None
      | Some (b, out) =>
          if started (bar s) && negb (stopped (bar s))
          then Some s
          else if watches_resize b
          then Some (mkSys b (sink s ++ out) (termSizeCh s) true (term s) (now s)
                       (threads s ++ [Select]))
          else Some (mkSys b (sink s ++ out) (termSizeCh s) (notified s) (term s) (now s)
                       (threads s))
      end
  | CallStop =>
      match Stop (bar s) with
      | None => None
      | Some (b, out) =>
          if stopped (bar s)
          then Some s
          else Some (mkSys b (sink s ++ out) (termSizeCh s)
                       (if watches_resize b then false else notified s)
                       (term s) (now s) (threads s))
      end
  | CallSetProgress progress =>
      Some (mkSys (bar s) (sink s) (termSizeCh s) (notified s) (term s) (now s)
              (threads s ++ [SP_check Caller progress]))
  | Sigwinch t =>
      Some (mkSys (bar s) (sink s) (termSizeCh s || notified s) (notified s) t (now s)
              (threads s))
  | Advance d =>
      if d <? 0 then None
      else Some (mkSys (bar s) (sink s) (termSizeCh s) (notified s) (term s) (now s + d)
                   (threads s))
  | Step i => step_thread i s
  end.

Fixpoint run (ls : list label) (s : sys) : option sys :=
  match ls with
  | [] => Some s
  | l :: ls' =>
      match step l s with
      | Some s' => run ls' s'
      | None => None
      end
  end.

End Steps.
End BarSystem.

(** ** [MultiBar]: the registry of labelled bars *)

Module MultiBar.
Import Go Progress.

Record LabeledBar := mkLabeledBar {
  bar : Bar;
  label : string;
  line : Z
}.

(** [bars map[string]*LabeledBar]. *)
Abbreviation MultiBar := (gmap string LabeledBar).

Definition NewMultiBar : MultiBar := ∅.

(** [Add]: the right-hand side, [len(mb.bars)] included, is evaluated before
    the map is assigned to. *)
Definition Add (tsize : option Z) (name label : string) (config : BarConfig)
    (opts : list Option) (mb : MultiBar) : MultiBar :=
  let bar := NewBarWithConfig tsize config opts in
  <[name := mkLabeledBar bar label (Z.of_nat (size mb))]> mb.

End MultiBar.

(** ** [Run]: a bar, the function it is run with, and a [sync.WaitGroup]

    [Run] starts [fn] in a goroutine of its own.  The system below runs the
    statements of [Run] against the goroutine of [fn]; it is the same for
    both generations of the package, which differ in the statements.  [fn]
    is given by the calls of [setProgress] it makes, in order. *)

Module RunSystem.

Inductive instr :=
| IStart                       (* [b.Start()] *)
| IAdd (n : Z)                 (* [wg.Add(n)] *)
| IGo (fn : list float)        (* [go func() { defer wg.Done(); fn(b.SetProgress) }()] *)
| IWait                        (* [wg.Wait()] *)
| IStop.                       (* [b.Stop()] *)

Inductive worker :=
| NotSpawned
| Working (calls : list float)
| Finished.

Inductive event :=
| EvStart
| EvSet (progress : float)     (* [fn] has called [setProgress(progress)] *)
| EvFnReturn                   (* [fn] has returned *)
| EvStop.

Inductive label :=
| Main                         (* the goroutine running [Run] moves *)
| Fn                           (* the goroutine running [fn] moves *)
| Advance (d : Z).             (* time passes *)

Section System.
Variable St : Type.
Variable start : Z -> St -> option (St * list string).
Variable stop : St -> option (St * list string).
Variable set : Z -> float -> St -> option (St * list string).

Record sys := mkSys {
  bar : St;
  sink : list string;
  now : Z;
  wg : Z;                      (* the counter of the WaitGroup *)
  main : list instr;           (* what is left of [Run] *)
  fn : worker;
  events : list event
}.

Definition init (b : St) (program : list instr) : sys :=
  mkSys b [] 0 0 program NotSpawned [].

Definition step (l : label) (s : sys) : option sys :=
  match l with
  | Main =>
      match main s with
      | IStart :: k =>
          match start (now s) (bar s) with
          | Some (b, out) =>
              Some (mkSys b (sink s ++ out) (now s) (wg s) k (fn s) (events s ++ [EvStart]))
          | None => None
          end
      | IAdd n :: k =>
          if wg s + n <? 0 then None
          else Some (mkSys (bar s) (sink s) (now s) (wg s + n) k (fn s) (events s))
      | IGo calls :: k =>
          Some (mkSys (bar s) (sink s) (now s) (wg s) k (Working calls) (events s))
      | IWait :: k =>
          if wg s =? 0
          then Some (mkSys (bar s) (sink s) (now s) (wg s) k (fn s) (events s))
          else None
      | IStop :: k =>
          match stop (bar s) with
          | Some (b, out) =>
              Some (mkSys b (sink s ++ out) (now s) (wg s) k (fn s) (events s ++ [EvStop]))
          | None => None
          end
      | [] => None
      end
  | Fn =>
      match fn s with
      | Working (progress :: calls) =>
          match set (now s) progress (bar s) with
          | Some (b, out) =>
              Some (mkSys b (sink s ++ out) (now s) (wg s) (main s) (Working calls)
                      (events s ++ [EvSet progress]))
          | None => None
          end
      | Working [] =>
          if wg s - 1 <? 0 then None
          else Some (mkSys (bar s) (sink s) (now s) (wg s - 1) (main s) Finished
                       (events s ++ [EvFnReturn]))
      | NotSpawned | Finished => None
      end
  | Advance d =>
      if d <? 0 then None
      else Some (mkSys (bar s) (sink s) (now s + d) (wg s) (main s) (fn s) (events s))
  end.

Fixpoint run (ls : list label) (s : sys) : option sys :=
  match ls with
  | [] => Some s
  | l :: ls' =>
      match step l s with
      | Some s' => run ls' s'
      | None => None
      end
  end.

End System.

Arguments mkSys {St}.
Arguments bar {St}.
Arguments sink {St}.
Arguments now {St}.
Arguments wg {St}.
Arguments main {St}.
Arguments fn {St}.
Arguments events {St}.
Arguments init {St}.
Arguments step {St}.
Arguments run {St}.

End RunSystem.

Module ProgressRun.
Import Go Progress RunSystem.

(** [Bar.Run]: the deferred [b.Stop()] runs when the body is through. *)
Definition Run (fn : list float) : list instr :=
  [IStart; IAdd 1; IGo fn; IWait; IStop].

Section Ops.
Context `{Platform}.

Definition set (now : Z) (progress : float) (b : Bar) : option (Bar * list string) :=
  Some (SetProgress now progress b).

Definition step := RunSystem.step Start Stop set.
Definition run := RunSystem.run Start Stop set.

End Ops.
End ProgressRun.

(** ** The configurable spinner (package [spinner]) *)

Module Spinner.
Import Go.

(** Channels are named by the order of their [make]; [nil] is [None]. *)
Record Spinner := mkSpinner {
  frames : list Z;             (* [Frames = []rune] *)
  frameDuration : Z;
  prefix : string;
  suffix : string;
  doneCh : option nat;
  finishedCh : option nat;
  running : bool
}.

Definition FramesLines : list Z := [124; 47; 45; 92].
Definition FramesDots : list Z :=
  [10494; 10493; 10491; 10431; 10367; 10463; 10479; 10487].
Definition FramesBounce : list Z := [46; 111; 79; 111].
Definition FramesArrows : list Z := [8598; 8599; 8600; 8601].
Definition FramesProgress : list Z :=
  [10251; 10265; 10297; 10296; 10300; 10292; 10278; 10279; 10247; 10255].

Definition Option := Spinner -> Spinner.

Definition WithFrameDuration (duration : Z) : Option :=
  fun s => mkSpinner (frames s) duration (prefix s) (suffix s)
             (doneCh s) (finishedCh s) (running s).
Definition WithFrames (fr : list Z) : Option :=
  fun s => mkSpinner fr (frameDuration s) (prefix s) (suffix s)
             (doneCh s) (finishedCh s) (running s).
Definition WithPrefix (p : string) : Option :=
  fun s => mkSpinner (frames s) (frameDuration s) p (suffix s)
             (doneCh s) (finishedCh s) (running s).
Definition WithSuffix (p : string) : Option :=
  fun s => mkSpinner (frames s) (frameDuration s) (prefix s) p
             (doneCh s) (finishedCh s) (running s).

Definition set_channels (s : Spinner) (d f : option nat) (r : bool) : Spinner :=
  mkSpinner (frames s) (frameDuration s) (prefix s) (suffix s) d f r.

(** [New]. *)
Definition New (opts : list Option) : Spinner :=
  fold_left (fun s opt => opt s) opts
    (mkSpinner FramesLines 100000000 "" "" None None false).

(** [clearLine]: the one chunk it writes. *)
Definition clearLine (s : Spinner) : string :=
  let maxWidth := len (prefix s) + len (suffix s) + 1 in
  String.append CR (String.append (write_times " " maxWidth) CR).

(** [s.frames[frameIndex%len(s.frames)]]: the remainder truncates, an empty
    slice or a negative index panics. *)
Definition frame_at (fr : list Z) (frameIndex : Z) : option Z :=
  if Z.of_nat (length fr) =? 0 then None
  else
    let i := Z.rem frameIndex (Z.of_nat (length fr)) in
    if i <? 0 then None else fr !! Z.to_nat i.

(** The chunk one tick writes. *)
Definition render (s : Spinner) (frame : Z) : string :=
  String.append CR (String.append (prefix s) (String.append (utf8 frame) (suffix s))).

Definition IsRunning (s : Spinner) : bool := running s.

End Spinner.

(** ** The spinner among its goroutines

    Every [Start] that goes through makes two channels and starts one
    animation goroutine, which keeps [frameIndex] to itself.  The goroutine
    begins with [time.NewTicker(s.frameDuration)], which panics on an
    interval that is not positive: the program dies with it, so such a
    [Start] is a panic here. *)

Module SpinnerSystem.
Import Go Spinner.

(** One animation goroutine, standing at its [select]. *)
Record anim := mkAnim {
  a_done : nat;                (* its [doneCh] *)
  a_finished : nat;            (* its [finishedCh] *)
  frameIndex : Z;
  alive : bool
}.

Record sys := mkSys {
  sp : Spinner;
  sink : list string;
  chans : list bool;           (* for every channel made: is it closed? *)
  anims : list anim;
  stopping : bool              (* a [Stop] holds the lock at [<-s.finishedCh] *)
}.

Inductive label :=
| CallStart                    (* [s.Start()] *)
| StopEnter                    (* [s.Stop()] up to [close(s.doneCh)] *)
| StopLeave                    (* [s.Stop()] from [<-s.finishedCh] on *)
| CallSetPrefix (p : string)
| CallSetSuffix (p : string)
| Tick (i : nat)               (* goroutine [i] takes [case <-ticker.C] *)
| Exit (i : nat).              (* goroutine [i] takes [case <-doneCh] *)

Definition init (s : Spinner) : sys := mkSys s [] [] [] false.

Definition closed (cs : list bool) (c : nat) : bool :=
  match cs !! c with Some b => b | None => false end.

Definition step (l : label) (s : sys) : option sys :=
  match l with
  | CallStart =>
      if stopping s then None
      else if running (sp s) then Some s
      else if frameDuration (sp s) <=? 0 then None
      else
        let d := length (chans s) in
        let f := S d in
        Some (mkSys (set_channels (sp s) (Some d) (Some f) true) (sink s)
                (chans s ++ [false; false])
                (anims s ++ [mkAnim d f 0 true]) false)
  | StopEnter =>
      if stopping s then None
      else
        match doneCh (sp s) with
        | Some d =>
            if negb (running (sp s)) then Some s
            else if closed (chans s) d then None
            else Some (mkSys (sp s) (sink s) (<[d := true]> (chans s)) (anims s) true)
        | None => Some s
        end
  | StopLeave =>
      if stopping s
      then
        match finishedCh (sp s) with
        | Some f =>
            if closed (chans s) f
            then Some (mkSys (set_channels (sp s) None None false) (sink s)
                         (chans s) (anims s) false)
            else None
        | None => None
        end
      else None
  | CallSetPrefix p =>
      if stopping s then None
      else Some (mkSys (WithPrefix p (sp s)) (sink s) (chans s) (anims s) false)
  | CallSetSuffix p =>
      if stopping s then None
      else Some (mkSys (WithSuffix p (sp s)) (sink s) (chans s) (anims s) false)
  | Tick i =>
      match anims s !! i with
      | Some a =>
          if alive a
          then
            match frame_at (frames (sp s)) (frameIndex a) with
            | Some frame =>
                Some (mkSys (sp s) (sink s ++ [render (sp s) frame]) (chans s)
                        (<[i := mkAnim (a_done a) (a_finished a)
                                  (wrap64 (frameIndex a + 1)) true]> (anims s))
                        (stopping s))
            | None => None
            end
          else None
      | None => None
      end
  | Exit i =>
      match anims s !! i with
      | Some a =>
          if alive a && closed (chans s) (a_done a)
          then Some (mkSys (sp s) (sink s ++ [clearLine (sp s)])
                       (<[a_finished a := true]> (chans s))
                       (<[i := mkAnim (a_done a) (a_finished a) (frameIndex a) false]>
                          (anims s))
                       (stopping s))
          else None
      | None => None
      end
  end.

Fixpoint run (ls : list label) (s : sys) : option sys :=
  match ls with
  | [] => Some s
  | l :: ls' =>
      match step l s with
      | Some s' => run ls' s'
      | None => None
      end
  end.

(** [Stop] from beginning to end, with [k] more ticks of goroutine [i] before
    it takes the [doneCh] case. *)
Definition Stop (i : nat) (k : nat) : list label :=
  StopEnter :: repeat (Tick i) k ++ [Exit i; StopLeave].

(** [Restart]. *)
Definition Restart (i : nat) (k : nat) : list label := Stop i k ++ [CallStart].

End SpinnerSystem.

(** ** [RunWithTimeout]: the spinner, [fn] and a timer

    [fn] is given by the [error] it returns; it may take any time to return,
    or never do.  The [select] takes a case that is ready; with both ready
    either may be taken. *)

Module RunWithTimeout.
Import Go Spinner.

(** A Go [error] as its caller sees it: [nil], or a message. *)
Definition error := option string.

(** [fmt.Errorf("operation timed out after %v", timeout)]. *)
Definition timeout_error (timeout : Z) : error :=
  Some (String.append "operation timed out after " (Duration_String timeout)).

Inductive pc :=
| At_Start                     (* [s.Start()] *)
| At_make                      (* [done := make(chan error, 1)] *)
| At_go                        (* [go func() { done <- fn() }()] *)
| At_select_eval               (* entering [select]: [time.After(timeout)] *)
| At_select                    (* waiting for a case that is ready *)
| At_defer (r : error)         (* [return r]: the deferred [s.Stop()] begins *)
| At_wait (r : error)          (* [s.Stop()] at [<-s.finishedCh] *)
| Returned (r : error).

Inductive fn_state := NotSpawned | Pending | Sent.
Inductive timer := NotArmed | Armed (deadline : Z) | Fired.
Inductive event := FnReturned | TimerFired.

Record sys := mkSys {
  spin : SpinnerSystem.sys;
  now : Z;
  at_ : pc;
  done : option error;         (* the buffer of [done] *)
  fnst : fn_state;
  tm : timer;
  log : list event             (* [fn]'s return and the timer, in order *)
}.

Inductive label :=
| Main                         (* the goroutine in [RunWithTimeout] moves *)
| ChooseDone                   (* its [select] takes [case err := <-done] *)
| ChooseTimer                  (* its [select] takes [case <-time.After(timeout)] *)
| FnReturn                     (* [fn] returns and its result is sent *)
| TimerFire                    (* the timer sends on its channel *)
| Advance (d : Z)              (* time passes *)
| Anim (l : SpinnerSystem.label).  (* an animation goroutine moves *)

Definition init (s : SpinnerSystem.sys) : sys :=
  mkSys s 0 At_Start None NotSpawned NotArmed [].

Section System.
Variable fn : error.           (* what [fn] returns *)
Variable timeout : Z.

Definition with_spin (s : sys) (sp : SpinnerSystem.sys) (p : pc) : sys :=
  mkSys sp (now s) p (done s) (fnst s) (tm s) (log s).

Definition step (l : label) (s : sys) : option sys :=
  match l with
  | Main =>
      match at_ s with
      | At_Start =>
          match SpinnerSystem.step SpinnerSystem.CallStart (spin s) with
          | Some sp => Some (with_spin s sp At_make)
          | None => None
          end
      | At_make => Some (mkSys (spin s) (now s) At_go None (fnst s) (tm s) (log s))
      | At_go => Some (mkSys (spin s) (now s) At_select_eval (done s) Pending (tm s) (log s))
      | At_select_eval =>
          Some (mkSys (spin s) (now s) At_select (done s) (fnst s)
                  (Armed (now s + timeout)) (log s))
      | At_select => None
      | At_defer r =>
          match SpinnerSystem.step SpinnerSystem.StopEnter (spin s) with
          | Some sp =>
              Some (with_spin s sp
                      (if SpinnerSystem.stopping sp then At_wait r else Returned r))
          | None => None
          end
      | At_wait r =>
          match SpinnerSystem.step SpinnerSystem.StopLeave (spin s) with
          | Some sp => Some (with_spin s sp (Returned r))
          | None => None
          end
      | Returned _ => None
      end
  | ChooseDone =>
      match at_ s, done s with
      | At_select, Some err =>
          Some (mkSys (spin s) (now s) (At_defer err) None (fnst s) (tm s) (log s))
      | _, _ => None
      end
  | ChooseTimer =>
      match at_ s, tm s with
      | At_select, Fired =>
          Some (mkSys (spin s) (now s) (At_defer (timeout_error timeout)) (done s)
                  (fnst s) (tm s) (log s))
      | _, _ => None
      end
  | FnReturn =>
      match fnst s with
      | Pending =>
          Some (mkSys (spin s) (now s) (at_ s) (Some fn) Sent (tm s)
                  (log s ++ [FnReturned]))
      | NotSpawned | Sent => None
      end
  | TimerFire =>
      match tm s with
      | Armed deadline =>
          if deadline <=? now s
          then Some (mkSys (spin s) (now s) (at_ s) (done s) (fnst s) Fired
                       (log s ++ [TimerFired]))
          else None
      | NotArmed | Fired => None
      end
  | Advance d =>
      if d <? 0 then None
      else Some (mkSys (spin s) (now s + d) (at_ s) (done s) (fnst s) (tm s) (log s))
  | Anim (SpinnerSystem.Tick i) =>
      match SpinnerSystem.step (SpinnerSystem.Tick i) (spin s) with
      | Some sp => Some (with_spin s sp (at_ s))
      | None => None
      end
  | Anim (SpinnerSystem.Exit i) =>
      match SpinnerSystem.step (SpinnerSystem.Exit i) (spin s) with
      | Some sp => Some (with_spin s sp (at_ s))
      | None => None
      end
  | Anim _ => None
  end.

Fixpoint run (ls : list label) (s : sys) : option sys :=
  match ls with
  | [] => Some s
  | l :: ls' =>
      match step l s with
      | Some s' => run ls' s'
      | None => None
      end
  end.

End System.
End RunWithTimeout.

(** ** [MultiSpinner]: the registry of labelled spinners *)

Module MultiSpinner.
Import Go Spinner.

Record LabeledSpinner := mkLabeledSpinner {
  spinner : Spinner;
  label : string;
  line : Z
}.

Abbreviation MultiSpinner := (gmap string LabeledSpinner).

Definition NewMultiSpinner : MultiSpinner := ∅.

(** [Add]: the prefix option goes last. *)
Definition Add (name label : string) (opts : list Option) (ms : MultiSpinner)
    : MultiSpinner :=
  let opts := opts ++ [WithPrefix (String.append label " ")] in
  let spinner := New opts in
  <[name := mkLabeledSpinner spinner label (Z.of_nat (size ms))]> ms.

End MultiSpinner.

(** ** The first progress bar ([progress/progress.go]) *)

Module Progress0.
Import Go.

Record Bar := mkBar {
  totalWidth : Z;
  lastPosition : float
}.

(** [calculateWidth]: [width] is the first result of [term.GetSize]; the
    error it comes with is dropped. *)
Definition calculateWidth (width : Z) (b : Bar) : Bar :=
  mkBar (wrap64 (width - 1)) (lastPosition b).

Definition NewBar (width : Z) : Bar := calculateWidth width (mkBar 0 zero).

Definition clearLine (b : Bar) : option string :=
  match Repeat " " (totalWidth b) with
  | Some empty => Some (String.append CR empty)
  | None => None
  end.

(** [Start].  (It also registers for SIGWINCH and starts a goroutine that
    redraws once, at the first resize.) *)
Definition Start (now : Z) (b : Bar) : option (Bar * list string) :=
  match clearLine b with
  | Some chunk => Some (mkBar (totalWidth b) zero, [chunk])
  | None => None
  end.

Definition Stop (b : Bar) : option (Bar * list string) :=
  match clearLine b with
  | Some chunk => Some (b, [chunk; CR])
  | None => None
  end.

Section Rendering.
Context `{Platform}.

Definition SetProgress (now : Z) (progress : float) (b : Bar)
    : option (Bar * list string) :=
  let b := mkBar (totalWidth b) progress in
  let filledCount := int_of_float64 (float64_of_int (totalWidth b) * progress) in
  let emptyCount := wrap64 (totalWidth b - filledCount) in
  match Repeat "#" filledCount, Repeat " " emptyCount with
  | Some filled, Some empty =>
      Some (b, [String.append CR (String.append filled empty)])
  | _, _ => None
  end.

Definition step := RunSystem.step Start Stop SetProgress.
Definition run := RunSystem.run Start Stop SetProgress.

End Rendering.

(** [Bar.Run]: the WaitGroup is added to and, in the goroutine, done; it is
    not waited for. *)
Definition Run (fn : list float) : list RunSystem.instr :=
  [RunSystem.IStart; RunSystem.IAdd 1; RunSystem.IGo fn; RunSystem.IStop].

End Progress0.

(** ** The first spinner ([spinner/spinner.go]) *)

Module Spinner0.
Import Go.

Record Spinner := mkSpinner {
  frames : list Z;
  frameDuration : Z;
  doneCh : option nat;
  finishedCh : option nat
}.

Definition FramesLines : list Z := [124; 47; 45; 92].
Definition FramesDots : list Z :=
  [10494; 10493; 10491; 10431; 10367; 10463; 10479; 10487].

Definition Option := Spinner -> Spinner.

Definition WithFrameDuration (duration : Z) : Option :=
  fun s => mkSpinner (frames s) duration (doneCh s) (finishedCh s).
Definition WithFrames (fr : list Z) : Option :=
  fun s => mkSpinner fr (frameDuration s) (doneCh s) (finishedCh s).

Definition New (opts : list Option) : Spinner :=
  fold_left (fun s opt => opt s) opts (mkSpinner FramesLines 100000000 None None).

(** The animation goroutine, standing at its [select]: [i] has been
    incremented on the way there. *)
Record anim := mkAnim {
  a_done : nat;
  a_closed : nat;              (* [closedCh] *)
  i : Z;
  alive : bool
}.

Record sys := mkSys {
  sp : Spinner;
  sink : list string;
  chans : list bool;
  anims : list anim;
  stopping : bool              (* a [Stop] stands at [<-s.finishedCh] *)
}.

Inductive label :=
| CallStart
| StopEnter                    (* [s.Stop()] up to [close(s.doneCh)] *)
| StopLeave                    (* [s.Stop()] from [<-s.finishedCh] on *)
| Tick (g : nat)
| Exit (g : nat).

Definition init (s : Spinner) : sys := mkSys s [] [] [] false.

Definition frame_at (fr : list Z) (i : Z) : option Z :=
  if Z.of_nat (length fr) =? 0 then None
  else
    let k := Z.rem i (Z.of_nat (length fr)) in
    if k <? 0 then None else fr !! Z.to_nat k.

Definition step (l : label) (s : sys) : option sys :=
  match l with
  | CallStart =>
      match doneCh (sp s) with
      | Some _ => Some s
      | None =>
          if frameDuration (sp s) <=? 0 then None
          else
            let d := length (chans s) in
            let f := S d in
            Some (mkSys (mkSpinner (frames (sp s)) (frameDuration (sp s)) (Some d) (Some f))
                    (sink s) (chans s ++ [false; false])
                    (anims s ++ [mkAnim d f (wrap64 (0 + 1)) true]) (stopping s))
      end
  | StopEnter =>
      match doneCh (sp s) with
      | None => Some s
      | Some d =>
          if SpinnerSystem.closed (chans s) d then None
          else Some (mkSys (sp s) (sink s) (<[d := true]> (chans s)) (anims s) true)
      end
  | StopLeave =>
      if stopping s
      then
        match finishedCh (sp s) with
        | Some f =>
            if SpinnerSystem.closed (chans s) f
            then Some (mkSys (sp s) (sink s) (chans s) (anims s) false)
            else None
        | None => None
        end
      else None
  | Tick g =>
      match anims s !! g with
      | Some a =>
          if alive a
          then
            match frame_at (frames (sp s)) (i a) with
            | Some frame =>
                Some (mkSys (sp s) (sink s ++ [String.append CR (utf8 frame)]) (chans s)
                        (<[g := mkAnim (a_done a) (a_closed a) (wrap64 (i a + 1)) true]>
                           (anims s))
                        (stopping s))
            | None => None
            end
          else None
      | None => None
      end
  | Exit g =>
      match anims s !! g with
      | Some a =>
          if alive a && SpinnerSystem.closed (chans s) (a_done a)
          then Some (mkSys (sp s) (sink s ++ [CR])
                       (<[a_closed a := true]> (chans s))
                       (<[g := mkAnim (a_done a) (a_closed a) (i a) false]> (anims s))
                       (stopping s))
          else None
      | None => None
      end
  end.

Fixpoint run (ls : list label) (s : sys) : option sys :=
  match ls with
  | [] => Some s
  | l :: ls' =>
      match step l s with
      | Some s' => run ls' s'
      | None => None
      end
  end.

End Spinner0.

(** ** [MultiBar]: the operations by name

    [fmt.Printf] writes to the standard output, a bar to its [Writer]: a
    chunk is tagged with the stream it goes to.  The goroutines [Bar.Start]
    spawns are those of [BarSystem]; here the bars are driven in sequence. *)

Module MultiBarOps.
Import Go Progress MultiBar.

Inductive stream := ToStdout | ToWriter.

Definition written (out : list string) : list (stream * string) :=
  map (fun chunk => (ToWriter, chunk)) out.

Definition LF : string := byte 10.

Definition set_bar (lb : LabeledBar) (b : Bar) : LabeledBar :=
  mkLabeledBar b (label lb) (line lb).

(** [MultiBar.Start]. *)
Definition Start (now : Z) (name : string) (mb : MultiBar)
    : option (MultiBar * list (stream * string)) :=
  match mb !! name with
  | Some lb =>
      match Progress.Start now (bar lb) with
      | Some (b, out) =>
          Some (<[name := set_bar lb b]> mb,
                (ToStdout, String.append (label lb) (String.append ":" LF))
                  :: written out)
      | None => None
      end
  | None => Some (mb, [])
  end.

(** [MultiBar.Stop]. *)
Definition Stop (name : string) (mb : MultiBar)
    : option (MultiBar * list (stream * string)) :=
  match mb !! name with
  | Some lb =>
      match Progress.Stop (bar lb) with
      | Some (b, out) =>
          Some (<[name := set_bar lb b]> mb,
                written out
                ++ [(ToStdout,
                     String.append (label lb) (String.append ": Complete!" LF))])
      | None => None
      end
  | None => Some (mb, [])
  end.

(** [MultiBar.SetProgress]. *)
Definition SetProgress `{Platform} (now : Z) (name : string) (progress : float)
    (mb : MultiBar) : MultiBar * list (stream * string) :=
  match mb !! name with
  | Some lb =>
      let '(b, out) := Progress.SetProgress now progress (bar lb) in
      (<[name := set_bar lb b]> mb, written out)
  | None => (mb, [])
  end.

(** [MultiBar.StopAll]: [for _, bar := range mb.bars { bar.Stop() }].  Go
    leaves the order of a [range] over a map open: [order] is the order in
    which this run of the loop meets the keys. *)
Fixpoint StopAll (order : list string) (mb : MultiBar)
    : option (MultiBar * list (stream * string)) :=
  match order with
  | [] => Some (mb, [])
  | name :: rest =>
      match mb !! name with
      | Some lb =>
          match Progress.Stop (bar lb) with
          | Some (b, out) =>
              match StopAll rest (<[name := set_bar lb b]> mb) with
              | Some (mb', out') => Some (mb', written out ++ out')
              | None => None
              end
          | None => None
          end
      | None => StopAll rest mb
      end
  end.

End MultiBarOps.

(** ** [Quick] and [DownloadProgress]

    Each makes a bar, starts it and hands [fn] a closure over a counter; the
    closure is a function of the bar and the counter here. *)

Module ProgressConvenience.
Import Go Progress.

(** [WithStyle]. *)
Definition WithStyle (tsize : option Z) (style : BarConfig) : Bar :=
  NewBarWithStyle tsize style.

(** The bars [Quick] and [DownloadProgress] make. *)
Definition Quick_bar (tsize : option Z) : Bar := NewBar tsize.

Definition DownloadProgress_bar (tsize : option Z) : Bar :=
  NewBarWithConfig tsize StyleDefault [WithETA true].

Section Closures.
Context `{Platform}.

(** [stepFunc] of [Quick(steps, fn)]. *)
Definition stepFunc (steps : Z) (now : Z) (st : Bar * Z) : (Bar * Z) * list string :=
  let '(bar, currentStep) := st in
  let currentStep := wrap64 (currentStep + 1) in
  let progress := (float64_of_int currentStep / float64_of_int steps)%float in
  let '(bar, out) := SetProgress now progress bar in
  ((bar, currentStep), out).

(** [downloadFunc] of [DownloadProgress(totalBytes, fn)]. *)
Definition downloadFunc (totalBytes : Z) (now : Z) (bytes : Z) (st : Bar * Z)
    : (Bar * Z) * list string :=
  let '(bar, downloadedBytes) := st in
  let downloadedBytes := wrap64 (downloadedBytes + bytes) in
  let progress := (float64_of_int downloadedBytes / float64_of_int totalBytes)%float in
  let '(bar, out) := SetProgress now progress bar in
  ((bar, downloadedBytes), out).

End Closures.
End ProgressConvenience.

(** ** [Spinner.Run], [WithMessage], [Quick] and [Perform] *)

Module SpinnerRun.
Import Go Spinner SpinnerSystem.

(** [WithMessage]. *)
Definition WithMessage (message : string) : Spinner :=
  New [WithPrefix (String.append message " ")].

(** [Run(fn)]: [Start], then [fn], during which goroutine [i] draws [k]
    frames, then the deferred [Stop], during which it draws [j] more. *)
Definition Run (i : nat) (k j : nat) : list label :=
  CallStart :: repeat (Tick i) k ++ Stop i j.

(** The frame the [n]-th tick of a goroutine draws. *)
Definition nth_frame (fr : list Z) (n : nat) : Z :=
  nth (n mod length fr) fr 0.

End SpinnerRun.

(** ** [MultiSpinner]: relabelling *)

Module MultiSpinnerOps.
Import Go Spinner MultiSpinner.

(** [UpdateLabel]: [SetPrefix] on the spinner, then the label. *)
Definition UpdateLabel (name newLabel : string) (ms : MultiSpinner) : MultiSpinner :=
  match ms !! name with
  | Some ls =>
      <[name := mkLabeledSpinner
                  (WithPrefix (String.append newLabel " ") (spinner ls))
                  newLabel (line ls)]> ms
  | None => ms
  end.

(** A caller of the registry: its calls, in order. *)
Inductive op :=
| OpAdd (name label : string) (opts : list Option)
| OpUpdateLabel (name newLabel : string).

Definition apply (ms : MultiSpinner) (o : op) : MultiSpinner :=
  match o with
  | OpAdd name label opts => Add name label opts ms
  | OpUpdateLabel name newLabel => UpdateLabel name newLabel ms
  end.

End MultiSpinnerOps.

(** ** The package [color] ([color/color.go])

    The environment variable [TERM] is the argument [term]. *)

Module Color.
Import Go.

Definition ESC : string := byte 27.

(** [escape]: [fmt.Sprintf("\033[%sm", code)]. *)
Definition escape (code : string) : string :=
  String.append ESC (String.append "[" (String.append code "m")).

(** [wrap]. *)
Definition wrap (code text : string) : string :=
  String.append (escape code) (String.append text (escape "0")).

Definition Red (text : string) : string := wrap "31" text.
Definition Green (text : string) : string := wrap "32" text.
Definition Yellow (text : string) : string := wrap "33" text.
Definition Magenta (text : string) : string := wrap "35" text.
Definition Cyan (text : string) : string := wrap "36" text.







(** [ansiRegex], [\x1b\[[0-9;]*m], at the head of a string: what follows the
    match, if there is one.  No parameter byte is an [m], so the greedy
    [[0-9;]*] takes every parameter byte and the match is unique. *)
Definition is_param (c : ascii) : bool :=
  let n := Z.of_N (N_of_ascii c) in
  ((48 <=? n) && (n <=? 57)) || (n =? 59).

Fixpoint skip_params (s : string) : string :=
  match s with
  | String c t => if is_param c then skip_params t else s
  | EmptyString => s
  end.

Definition match_ansi (s : string) : option string :=
  match s with
  | String e (String b rest) =>
      if Ascii.eqb e (ascii_of_N 27) && Ascii.eqb b "["%char
      then
        match skip_params rest with
        | String m after => if Ascii.eqb m "m"%char then Some after else None
        | EmptyString => None
        end
      else None
  | _ => None
  end.

(** [ansiRegex.ReplaceAllString(str, "")]: from left to right, a match is
    dropped and the scan goes on behind it; where none starts the byte is
    kept.  [fuel] bounds the bytes left. *)
Fixpoint replace_all (fuel : nat) (s : string) : string :=
  match fuel with
  | O => s
  | S fuel' =>
      match match_ansi s with
      | Some after => replace_all fuel' after
      | None =>
          match s with
          | EmptyString => EmptyString
          | String c t => String c (replace_all fuel' t)
          end
      end
  end.

(** [StripANSI], [VisualLength]. *)
Definition StripANSI (str : string) : string := replace_all (String.length str) str.

Definition VisualLength (str : string) : Z := len (StripANSI str).

End Color.

(** * Properties *)

Import Go.

(** ** Clamping ([math.Max], [math.Min]) *)

Ltac sf := cbv beta iota delta [SFltb SFleb SFeqb SFcompare negb CompOpp] in *.

Ltac to_spec :=
  rewrite ?FloatAxioms.eqb_spec, ?FloatAxioms.ltb_spec, ?FloatAxioms.leb_spec in *;
  change (Prim2SF neg_infinity) with (S754_infinity true) in *;
  change (Prim2SF infinity) with (S754_infinity false) in *;
  change (Prim2SF zero) with (S754_zero false) in *;
  change (Prim2SF one) with (S754_finite false 4503599627370496 (-52)) in *.

Lemma Min_one (p : float) :
  Min one p = if PrimFloat.eqb p neg_infinity then neg_infinity
              else if IsNaN p then nan
              else if PrimFloat.ltb one p then one else p.
Proof.
  unfold Min, IsInf.
  change (PrimFloat.eqb one infinity) with false.
  change (PrimFloat.eqb one neg_infinity) with false.
  change (IsNaN one) with false.
  change (PrimFloat.eqb one zero) with false.
  change (0 <=? -1) with false. change (-1 <=? 0) with true.
  rewrite ?andb_true_l, ?andb_false_l, ?orb_false_l, ?orb_false_r.
  reflexivity.
Qed.

Lemma Max_zero (m : float) :
  Max zero m = if PrimFloat.eqb m infinity then infinity
               else if IsNaN m then nan
               else if PrimFloat.eqb zero m then zero
               else if PrimFloat.ltb m zero then zero else m.
Proof.
  unfold Max, IsInf.
  change (PrimFloat.eqb zero infinity) with false.
  change (PrimFloat.eqb zero neg_infinity) with false.
  change (IsNaN zero) with false.
  change (PrimFloat.eqb zero zero) with true.
  change (Signbit zero) with false.
  change (0 <=? 1) with true. change (1 <=? 0) with false.
  rewrite ?andb_true_l, ?andb_false_l, ?orb_false_l, ?orb_false_r.
  reflexivity.
Qed.

(** The three cases of [clamp] on a number. *)
Lemma clamp_cases (p : float) :
  IsNaN p = false ->
  (Progress.clamp p = zero /\ PrimFloat.leb p zero = true)
  \/ (Progress.clamp p = one /\ PrimFloat.ltb one p = true)
  \/ (Progress.clamp p = p /\ PrimFloat.ltb zero p = true
      /\ PrimFloat.leb zero p = true /\ PrimFloat.leb p one = true).
Proof.
  intros Hnan. unfold Progress.clamp. rewrite Min_one, Hnan.
  destruct (PrimFloat.eqb p neg_infinity) eqn:E1.
  - left. split; [reflexivity|]. to_spec.
    destruct (Prim2SF p) as [s|s| |s m e]; try discriminate;
      destruct s; try discriminate E1; reflexivity.
  - destruct (PrimFloat.ltb one p) eqn:E2.
    + right; left. split; reflexivity.
    + rewrite Max_zero, Hnan. unfold IsNaN in Hnan. to_spec.
      destruct (Prim2SF p) as [s|s| |s m e] eqn:Ep.
      * left. sf. split; reflexivity.
      * destruct s; discriminate.
      * sf. discriminate.
      * clear Hnan. destruct s.
        -- left. sf. split; reflexivity.
        -- right; right. sf.
           split; [reflexivity|]. split; [reflexivity|]. split; [reflexivity|].
           rewrite (Z.compare_antisym e (-52)) in E2.
           destruct (e ?= -52) eqn:E3; sf; try reflexivity; try discriminate.
           rewrite <- (Pos.compare_cont_antisym _ _ Eq) in E2.
           destruct (Pos.compare_cont Eq m 4503599627370496); sf;
             try reflexivity; discriminate.
Qed.

Lemma ltb_zero_not_leb (p : float) :
  PrimFloat.ltb zero p = true -> PrimFloat.leb p zero = false.
Proof.
  intros L. to_spec.
  destruct (Prim2SF p) as [[|]|[|]| |[|] m e]; sf; try discriminate; reflexivity.
Qed.

Lemma ltb_one_not_leb_zero (p : float) :
  PrimFloat.ltb one p = true -> PrimFloat.leb p zero = false.
Proof.
  intros L. to_spec.
  destruct (Prim2SF p) as [[|]|[|]| |[|] m e]; sf; try discriminate; reflexivity.
Qed.

Lemma ltb_one_not_leb_one (p : float) :
  PrimFloat.ltb one p = true -> PrimFloat.leb p one = false.
Proof.
  intros L. to_spec.
  destruct (Prim2SF p) as [[|]|[|]| |[|] m e]; sf; try discriminate;
    try reflexivity.
  rewrite (Z.compare_antisym e (-52)) in L.
  destruct (e ?= -52) eqn:E3; sf; try reflexivity; try discriminate.
  rewrite <- (Pos.compare_cont_antisym _ _ Eq) in L.
  destruct (Pos.compare_cont Eq m 4503599627370496); sf;
    try reflexivity; discriminate.
Qed.

(** [clamp] on a number is max(0, min(1, p)): 0 up to 0, 1 above 1, the
    number itself in between; it lies in [0, 1]. *)
Lemma clamp_max_min (p : float) :
  IsNaN p = false ->
  PrimFloat.leb zero (Progress.clamp p) = true
  /\ PrimFloat.leb (Progress.clamp p) one = true
  /\ (PrimFloat.leb p zero = true -> Progress.clamp p = zero)
  /\ (PrimFloat.ltb one p = true -> Progress.clamp p = one)
  /\ (PrimFloat.ltb zero p = true -> PrimFloat.leb p one = true ->
      Progress.clamp p = p).
Proof.
  intros Hnan.
  destruct (clamp_cases p Hnan) as [[E L]|[[E L]|[E [L0 [L1 L2]]]]]; rewrite E.
  - repeat split; try reflexivity.
    + intros L'. apply ltb_one_not_leb_zero in L'. congruence.
    + intros L' _. apply ltb_zero_not_leb in L'. congruence.
  - repeat split; try reflexivity.
    + intros L'. apply ltb_one_not_leb_zero in L. congruence.
    + intros _ L'. apply ltb_one_not_leb_one in L. congruence.
  - repeat split; try assumption; try reflexivity.
    + intros L'. apply ltb_zero_not_leb in L0. congruence.
    + intros L'. apply ltb_one_not_leb_one in L'. congruence.
Qed.

(** A NaN goes through [clamp]. *)
Lemma clamp_nan : Progress.clamp nan = nan.
Proof. reflexivity. Qed.

(** ** [SetProgress] and [GetProgress] *)

Import Progress.

Lemma float_zero_neq_half : zero <> 0.5%float.
Proof. intros E. apply (f_equal Prim2SF) in E. vm_compute in E. discriminate. Qed.

(** C1, as stated, fails: on a bar that was never started [SetProgress(0.5)]
    leaves the progress at 0, while max(0, min(1, 0.5)) is 0.5. *)
Lemma SetProgress_before_Start_not_stored :
  GetProgress (fst (@SetProgress amd64 0 0.5%float (NewBar None))) = zero
  /\ Max zero (Min one 0.5%float) = 0.5%float
  /\ GetProgress (fst (@SetProgress amd64 0 0.5%float (NewBar None)))
     <> Max zero (Min one 0.5%float).
Proof.
  split; [reflexivity|]. split; [reflexivity|]. exact float_zero_neq_half.
Qed.

(** C1, amended: on a running bar (started and not stopped), for every number
    [p] (every [float64] that is no NaN), [GetProgress] after
    [SetProgress(p)] returns max(0, min(1, p)): a value in [0, 1], which is 0
    for [p <= 0], 1 for [1 < p] and [p] itself in between. *)
Theorem SetProgress_running_clamps {P : Platform} (b : Bar) (now : Z) (p : float) :
  started b = true -> stopped b = false -> IsNaN p = false ->
  let r := GetProgress (fst (SetProgress now p b)) in
  r = Max zero (Min one p)
  /\ PrimFloat.leb zero r = true
  /\ PrimFloat.leb r one = true
  /\ (PrimFloat.leb p zero = true -> r = zero)
  /\ (PrimFloat.ltb one p = true -> r = one)
  /\ (PrimFloat.ltb zero p = true -> PrimFloat.leb p one = true -> r = p).
Proof.
  intros Hs Ht Hnan. unfold SetProgress, SetProgress_guard.
  rewrite Hs, Ht. cbn [negb orb fst GetProgress SetProgress_store
                       set_lastProgress lastProgress].
  split; [reflexivity|]. exact (clamp_max_min p Hnan).
Qed.

Lemma SetProgress_running_clamps_witness :
  exists b chunk,
    Start 7 (NewBar None) = Some (b, [chunk])
    /\ let r := GetProgress (fst (@SetProgress amd64 9 1.5%float b)) in
       r = Max zero (Min one 1.5%float)
       /\ PrimFloat.leb zero r = true
       /\ PrimFloat.leb r one = true
       /\ (PrimFloat.leb 1.5%float zero = true -> r = zero)
       /\ (PrimFloat.ltb one 1.5%float = true -> r = one)
       /\ (PrimFloat.ltb zero 1.5%float = true ->
           PrimFloat.leb 1.5%float one = true -> r = 1.5%float).
Proof.
  eexists. eexists. split; [reflexivity|].
  apply (@SetProgress_running_clamps amd64); reflexivity.
Defined.

(** The running bar stores a NaN as it is. *)
Lemma SetProgress_running_stores_NaN {P : Platform} (b : Bar) (now : Z) :
  started b = true -> stopped b = false ->
  GetProgress (fst (SetProgress now nan b)) = nan.
Proof.
  intros Hs Ht. unfold SetProgress, SetProgress_guard. rewrite Hs, Ht. reflexivity.
Qed.

(** C9: on a bar that has not been started, or has been stopped,
    [SetProgress(p)] changes nothing and writes nothing, whatever [p]. *)
Theorem SetProgress_not_running_noop {P : Platform} (b : Bar) (now : Z) (p : float) :
  started b = false \/ stopped b = true ->
  SetProgress now p b = (b, [])
  /\ GetProgress (fst (SetProgress now p b)) = GetProgress b
  /\ snd (SetProgress now p b) = [].
Proof.
  intros Hns.
  assert (E : SetProgress now p b = (b, [])).
  { unfold SetProgress, SetProgress_guard.
    destruct Hns as [Hs|Ht]; [rewrite Hs|rewrite Ht, orb_true_r]; reflexivity. }
  rewrite E. repeat split.
Qed.

Lemma SetProgress_not_running_noop_witness :
  exists b out,
    Stop (set_started (NewBar (Some 80)) true) = Some (b, out)
    /\ @SetProgress amd64 3 0.5%float b = (b, [])
    /\ GetProgress (fst (@SetProgress amd64 3 0.5%float b)) = GetProgress b
    /\ snd (@SetProgress amd64 3 0.5%float b) = [].
Proof.
  eexists. eexists. split; [reflexivity|].
  apply (@SetProgress_not_running_noop amd64). right. reflexivity.
Defined.

(** ** [Stop] *)

(** A second [Stop] is a no-op. *)
Lemma Bar_Stop_stopped_noop (b : Bar) :
  stopped b = true -> Stop b = Some (b, []).
Proof. intros Ht. unfold Stop. rewrite Ht. reflexivity. Qed.

(** [Stop] on any bar that is not stopped, started or not, sets [stopped] and
    writes the blank line and a carriage return. *)
Lemma Bar_Stop_not_stopped (b : Bar) (chunk : string) :
  stopped b = false -> clearLine b = Some chunk ->
  Stop b = Some (set_stopped b true, [chunk; CR]).
Proof.
  intros Ht Hc. unfold Stop. rewrite Ht.
  replace (clearLine (set_stopped b true)) with (clearLine b) by reflexivity.
  rewrite Hc. reflexivity.
Qed.

(** C4 fails for the bar: [Stop] on a bar that was never started sets
    [stopped] (so [IsStopped] answers true) and writes to the [Writer]. *)
Theorem Bar_Stop_before_Start_not_noop :
  let b := NewBarWithConfig None (mkBarConfig 10 "#" " " false false) [] in
  IsStarted b = false /\ IsStopped b = false
  /\ exists b' chunk,
       Stop b = Some (b', [chunk; CR])
       /\ IsStarted b' = false /\ IsStopped b' = true
       /\ b' <> b.
Proof.
  cbv zeta. split; [reflexivity|]. split; [reflexivity|].
  eexists. eexists. split; [reflexivity|].
  split; [reflexivity|]. split; [reflexivity|].
  intros E. apply (f_equal stopped) in E. discriminate.
Qed.

(** The spinner's [Stop] returns at once when the spinner is not running. *)
Lemma Spinner_Stop_not_running_noop (s : SpinnerSystem.sys) :
  Spinner.running (SpinnerSystem.sp s) = false ->
  SpinnerSystem.stopping s = false ->
  SpinnerSystem.step SpinnerSystem.StopEnter s = Some s.
Proof.
  intros Hr Hs. unfold SpinnerSystem.step. rewrite Hs, Hr.
  destruct (Spinner.doneCh (SpinnerSystem.sp s)); reflexivity.
Qed.

(** ** [calculateWidth] *)

Lemma wrap64_small (z : Z) : - 2 ^ 63 <= z < 2 ^ 63 -> wrap64 z = z.
Proof.
  intros Hz. unfold wrap64.
  rewrite Z.mod_small by lia. lia.
Qed.

(** C7, as stated, fails: on an 80-column terminal the default bar (percentage
    shown, no ETA, so 5 cells reserved) gets 73 cells, not 80 - 5. *)
Lemma calculateWidth_not_width_minus_reserved :
  ShowPercent StyleDefault = true /\ ShowETA StyleDefault = false
  /\ reservedSpace StyleDefault = 5
  /\ totalWidth (NewBarWithConfig (Some 80) StyleDefault []) = 73
  /\ 73 <> 80 - 5.
Proof. repeat split. discriminate. Qed.

(** C7, amended: a configured width above 0 is taken as it is.  Otherwise the
    terminal is asked: when the query fails the width is the fallback 60, and
    when it answers [w] columns the width is [w] minus the space reserved for
    the enabled suffixes (5 for the percentage, 12 for the ETA) minus a margin
    of 2, and never below 10.  Nothing else of the bar changes. *)
Theorem calculateWidth_spec (b : Bar) (tsize : option Z) :
  let b' := calculateWidth tsize b in
  let reserved :=
    (if ShowPercent (config b) then 5 else 0) + (if ShowETA (config b) then 12 else 0) in
  (0 < Width (config b) -> totalWidth b' = Width (config b))
  /\ (Width (config b) <= 0 -> tsize = None -> totalWidth b' = 60)
  /\ (forall w, Width (config b) <= 0 -> tsize = Some w -> 0 <= w < 2 ^ 62 ->
        totalWidth b' = Z.max 10 (w - reserved - 2)
        /\ 10 <= totalWidth b')
  /\ config b' = config b /\ lastProgress b' = lastProgress b
  /\ started b' = started b /\ stopped b' = stopped b
  /\ startTime b' = startTime b.
Proof.
  cbv zeta. unfold calculateWidth.
  destruct (0 <? Width (config b)) eqn:Hw.
  - apply Z.ltb_lt in Hw. repeat split; try reflexivity; intros; lia.
  - apply Z.ltb_ge in Hw.
    destruct tsize as [w|].
    + split; [intros; lia|]. split; [intros; discriminate|].
      split; [|repeat split].
      intros w' _ E Hr. injection E as <-.
      unfold reservedSpace.
      destruct (ShowPercent (config b)), (ShowETA (config b));
        cbn [set_totalWidth totalWidth];
        rewrite wrap64_small by lia;
        match goal with |- context [?x <? 10] => destruct (x <? 10) eqn:Hc end;
        (apply Z.ltb_lt in Hc || apply Z.ltb_ge in Hc); lia.
    + split; [intros; lia|]. split; [reflexivity|].
      split; [intros; discriminate|repeat split].
Qed.

Lemma calculateWidth_spec_witness :
  let b := mkBar (mkBarConfig 0 "#" " " true true) 0 zero false false 0 in
  totalWidth (calculateWidth (Some 20) b) = Z.max 10 (20 - (5 + 12) - 2)
  /\ 10 <= totalWidth (calculateWidth (Some 20) b).
Proof.
  cbv zeta.
  apply (calculateWidth_spec
           (mkBar (mkBarConfig 0 "#" " " true true) 0 zero false false 0) (Some 20));
    [reflexivity | reflexivity | lia].
Defined.

(** The first bar has no fallback and no floor: with the size query failing
    (width 0) its width is -1, and [Start] panics in [strings.Repeat]. *)
Lemma Progress0_calculateWidth_no_fallback :
  Progress0.totalWidth (Progress0.NewBar 0) = -1
  /\ Progress0.Start 0 (Progress0.NewBar 0) = None.
Proof. split; reflexivity. Qed.

(** ** The registries *)

(** C10: [Add] with a name that is present overwrites.  After [Add] the name
    maps to the new indicator, whose line is the size of the map before the
    assignment; every other name is as before; with the name present before,
    the size stays (the old entry is gone); and line numbers can repeat. *)
Theorem Add_overwrites :
  (forall tsize name label config opts (mb : MultiBar.MultiBar),
      let mb' := MultiBar.Add tsize name label config opts mb in
      mb' !! name = Some (MultiBar.mkLabeledBar (NewBarWithConfig tsize config opts)
                            label (Z.of_nat (size mb)))
      /\ (forall other, other <> name -> mb' !! other = mb !! other)
      /\ (forall old, mb !! name = Some old -> size mb' = size mb))
  /\ (forall name label opts (ms : MultiSpinner.MultiSpinner),
      let ms' := MultiSpinner.Add name label opts ms in
      ms' !! name = Some (MultiSpinner.mkLabeledSpinner
                            (Spinner.New (opts ++ [Spinner.WithPrefix (String.append label " ")]))
                            label (Z.of_nat (size ms)))
      /\ (forall other, other <> name -> ms' !! other = ms !! other)
      /\ (forall old, ms !! name = Some old -> size ms' = size ms))
  /\ (let mb := MultiBar.Add None "c" "third" StyleDefault []
                  (MultiBar.Add None "a" "again" StyleDefault []
                     (MultiBar.Add None "b" "second" StyleDefault []
                        (MultiBar.Add None "a" "first" StyleDefault []
                           MultiBar.NewMultiBar))) in
      size mb = 3%nat
      /\ MultiBar.line <$> (mb !! "a") = Some 2
      /\ MultiBar.label <$> (mb !! "a") = Some "again"%string
      /\ MultiBar.line <$> (mb !! "b") = Some 1
      /\ MultiBar.line <$> (mb !! "c") = Some 2).
Proof.
  split; [|split].
  - intros tsize name label config opts mb. cbv zeta. unfold MultiBar.Add.
    split; [apply lookup_insert_eq|]. split.
    + intros other Hne. apply lookup_insert_ne. congruence.
    + intros old Hold.
      rewrite <- (insert_delete_eq mb name).
      rewrite map_size_insert_None by apply lookup_delete_eq.
      rewrite <- (insert_delete_id mb name old Hold) at 2.
      rewrite map_size_insert_None by apply lookup_delete_eq. reflexivity.
  - intros name label opts ms. cbv zeta. unfold MultiSpinner.Add.
    split; [apply lookup_insert_eq|]. split.
    + intros other Hne. apply lookup_insert_ne. congruence.
    + intros old Hold.
      rewrite <- (insert_delete_eq ms name).
      rewrite map_size_insert_None by apply lookup_delete_eq.
      rewrite <- (insert_delete_id ms name old Hold) at 2.
      rewrite map_size_insert_None by apply lookup_delete_eq. reflexivity.
  - vm_compute. repeat split.
Qed.

(** ** Rendering: the rounding of [float64(totalWidth) * progress]

    The product is [SFmul], rounded by [binary_round_aux]: a shift to the
    right by [shr_fexp], one step of rounding, a second shift.  Below a
    bound [K] that is an integer, the rounded product stays at most [K]. *)

Lemma digits2_pos_lower (m : positive) : 2 ^ (Z.pos (digits2_pos m) - 1) <= Z.pos m.
Proof.
  induction m as [m IH|m IH|]; cbn [digits2_pos].
  - rewrite Pos2Z.inj_succ. replace (Z.succ (Z.pos (digits2_pos m)) - 1) with (Z.succ (Z.pos (digits2_pos m) - 1)) by lia.
    rewrite Z.pow_succ_r by lia. lia.
  - rewrite Pos2Z.inj_succ. replace (Z.succ (Z.pos (digits2_pos m)) - 1) with (Z.succ (Z.pos (digits2_pos m) - 1)) by lia.
    rewrite Z.pow_succ_r by lia. lia.
  - reflexivity.
Qed.

Lemma digits2_pos_upper (m : positive) : Z.pos m < 2 ^ Z.pos (digits2_pos m).
Proof.
  induction m as [m IH|m IH|]; cbn [digits2_pos].
  - rewrite Pos2Z.inj_succ, Z.pow_succ_r by lia. lia.
  - rewrite Pos2Z.inj_succ, Z.pow_succ_r by lia. lia.
  - reflexivity.
Qed.

Lemma shr_1_m (mrs : shr_record) : 0 <= shr_m mrs -> shr_m (shr_1 mrs) = shr_m mrs / 2.
Proof.
  destruct mrs as [m r s]. cbn [shr_m]. intros Hm.
  destruct m as [|[p|p|]|p]; cbn [shr_1 shr_m]; try lia.
  - reflexivity.
  - change (Z.pos p~1) with (2 * Z.pos p + 1). apply Z.div_unique with (r := 1); lia.
  - change (Z.pos p~0) with (2 * Z.pos p). apply Z.div_unique with (r := 0); lia.
  - reflexivity.
Qed.

Lemma iter_shr_1_m (n : positive) : forall mrs, 0 <= shr_m mrs ->
  shr_m (SpecFloat.iter_pos shr_1 n mrs) = shr_m mrs / 2 ^ Z.pos n.
Proof.
  induction n as [n IH|n IH|]; intros mrs Hm; cbn [SpecFloat.iter_pos].
  - assert (H1 : 0 <= shr_m (shr_1 mrs)) by (rewrite shr_1_m by lia; apply Z.div_pos; lia).
    assert (H2 : 0 <= shr_m (SpecFloat.iter_pos shr_1 n (shr_1 mrs))) by (rewrite IH by lia; apply Z.div_pos; lia).
    rewrite IH by lia. rewrite IH by lia. rewrite shr_1_m by lia.
    change (Z.pos n~1) with (2 * Z.pos n + 1).
    rewrite !Z.div_div by lia. f_equal.
    replace (2 * Z.pos n + 1) with (1 + Z.pos n + Z.pos n) by lia.
    rewrite !Z.pow_add_r by lia. lia.
  - assert (H2 : 0 <= shr_m (SpecFloat.iter_pos shr_1 n mrs)) by (rewrite IH by lia; apply Z.div_pos; lia).
    rewrite IH by lia. rewrite IH by lia.
    change (Z.pos n~0) with (2 * Z.pos n).
    rewrite !Z.div_div by lia. f_equal.
    replace (2 * Z.pos n) with (Z.pos n + Z.pos n) by lia.
    rewrite !Z.pow_add_r by lia. lia.
  - rewrite shr_1_m by lia. reflexivity.
Qed.

(* shr_fexp: mantissa and exponent after the shift *)
Lemma shr_fexp_spec (m e : Z) (l : location) : 0 <= m ->
  let '(mrs, e') := shr_fexp prec emax m e l in
  let n := fexp prec emax (Zdigits2 m + e) - e in
  (n <= 0 -> shr_m mrs = m /\ e' = e /\ loc_of_shr_record mrs = l) /\
  (0 < n -> shr_m mrs = m / 2 ^ n /\ e' = e + n).
Proof.
  intros Hm. unfold shr_fexp, shr.
  destruct (fexp prec emax (Zdigits2 m + e) - e) as [|n|n] eqn:En.
  - split; [|lia]. intros _. destruct l as [|[| |]]; cbn; auto.
  - split; [lia|]. intros _. split; [|reflexivity].
    rewrite iter_shr_1_m; destruct l as [|[| |]]; cbn [shr_record_of_loc shr_m]; auto.
  - split; [|lia]. intros _. destruct l as [|[| |]]; cbn; auto.
Qed.

Lemma round_nearest_even_bounds (m : Z) (l : location) :
  m <= round_nearest_even m l <= m + 1.
Proof.
  unfold round_nearest_even. destruct l as [|[| |]]; try destruct (Z.even m); lia.
Qed.
Lemma round_nearest_even_exact (m : Z) : round_nearest_even m loc_Exact = m.
Proof. reflexivity. Qed.

Lemma fexp_eq (x : Z) : fexp prec emax x = Z.max (x - 53) (-1074).
Proof. reflexivity. Qed.

Lemma digits_le (m : Z) (k : Z) : 0 <= m -> 0 <= k -> m <= 2 ^ k -> Zdigits2 m <= k + 1.
Proof.
  intros Hm Hk Hle. destruct m as [|q|q]; cbn [Zdigits2]; try lia.
  pose proof (digits2_pos_lower q) as Hl.
  destruct (Z_lt_le_dec (k + 1) (Z.pos (digits2_pos q))) as [Hlt|]; [|lia].
  exfalso.
  assert (2 ^ (k + 1) <= 2 ^ (Z.pos (digits2_pos q) - 1)) by (apply Z.pow_le_mono_r; lia).
  rewrite Z.pow_add_r in H by lia. lia.
Qed.

Lemma binary_round_aux_bounded (M : positive) (E K : Z) :
  E <= 0 -> 0 < K <= 2 ^ 52 -> Z.pos M < K * 2 ^ (- E) ->
  exists n, trunc_spec (binary_round_aux prec emax false (Z.pos M) E loc_Exact) = Some n
            /\ 0 <= n <= K.
Proof.
  intros HE HK HM.
  assert (Hpow : forall x, 0 <= x -> 0 < 2 ^ x) by (intros; apply Z.pow_pos_nonneg; lia).
  assert (HKE : forall e, e <= 0 -> K * 2 ^ (- e) <= 2 ^ (52 - e)).
  { intros e He. replace (52 - e) with (52 + - e) by lia.
    rewrite Z.pow_add_r by lia. apply Z.mul_le_mono_nonneg_r; [specialize (Hpow (-e)); lia | lia]. }
  unfold binary_round_aux.
  pose proof (shr_fexp_spec (Z.pos M) E loc_Exact ltac:(lia)) as S1.
  destruct (shr_fexp prec emax (Z.pos M) E loc_Exact) as [mrs1 e1].
  cbv zeta in S1. rewrite fexp_eq in S1.
  assert (HD : Zdigits2 (Z.pos M) <= 52 - E + 1).
  { apply digits_le; try lia. specialize (HKE E HE). lia. }
  set (m1' := round_nearest_even (shr_m mrs1) (loc_of_shr_record mrs1)).
  assert (H1 : e1 <= 0 /\ 0 <= m1' <= K * 2 ^ (- e1)).
  { destruct S1 as [Sa Sb].
    destruct (Z_le_gt_dec (Z.max (Zdigits2 (Z.pos M) + E - 53) (-1074) - E) 0) as [Hn|Hn].
    - destruct (Sa Hn) as [Em [Ee El]]. subst m1'. rewrite Em, Ee, El.
      rewrite round_nearest_even_exact. lia.
    - destruct (Sb ltac:(lia)) as [Em Ee].
      set (n1 := Z.max (Zdigits2 (Z.pos M) + E - 53) (-1074) - E) in *.
      assert (He1 : e1 <= 0) by lia.
      split; [exact He1|].
      pose proof (round_nearest_even_bounds (shr_m mrs1) (loc_of_shr_record mrs1)) as Hr.
      fold m1' in Hr. rewrite Em in Hr.
      assert (0 <= Z.pos M / 2 ^ n1) by (apply Z.div_pos; [lia|apply Hpow; lia]).
      assert (Z.pos M / 2 ^ n1 < K * 2 ^ (- e1)).
      { apply Z.div_lt_upper_bound; [apply Hpow; lia|].
        replace (- E) with (n1 + - e1) in HM by lia.
        rewrite Z.pow_add_r in HM by lia. lia. }
      lia. }
  clearbody m1'. clear S1. destruct H1 as [He1 [Hm1 Hm1']].
  pose proof (shr_fexp_spec m1' e1 loc_Exact Hm1) as S2.
  destruct (shr_fexp prec emax m1' e1 loc_Exact) as [mrs2 e2].
  cbv zeta in S2. rewrite fexp_eq in S2.
  assert (HD' : Zdigits2 m1' <= 52 - e1 + 1).
  { apply digits_le; try lia. specialize (HKE e1 He1). lia. }
  assert (H2 : e2 <= 0 /\ 0 <= shr_m mrs2 <= K * 2 ^ (- e2)).
  { destruct S2 as [Sa Sb].
    destruct (Z_le_gt_dec (Z.max (Zdigits2 m1' + e1 - 53) (-1074) - e1) 0) as [Hn|Hn].
    - destruct (Sa Hn) as [Em [Ee El]]. rewrite Em, Ee. lia.
    - destruct (Sb ltac:(lia)) as [Em Ee].
      set (n2 := Z.max (Zdigits2 m1' + e1 - 53) (-1074) - e1) in *.
      assert (He2 : e2 <= 0) by lia.
      split; [exact He2|]. rewrite Em.
      split; [apply Z.div_pos; [lia|apply Hpow; lia]|].
      apply Z.div_le_upper_bound; [apply Hpow; lia|].
      replace (- e1) with (n2 + - e2) in Hm1' by lia.
      rewrite Z.pow_add_r in Hm1' by lia. lia. }
  destruct H2 as [He2 [Hm2 Hm2']].
  destruct (shr_m mrs2) as [|q|q].
  - exists 0. split; [reflexivity|lia].
  - replace (e2 <=? emax - prec) with true
      by (symmetry; apply Z.leb_le; change (emax - prec) with 971; lia).
    cbn [trunc_spec].
    destruct (0 <=? e2) eqn:Hz.
    + apply Z.leb_le in Hz. assert (e2 = 0) by lia. subst e2.
      eexists. split; [reflexivity|]. cbn in Hm2'. rewrite Z.pow_0_r. lia.
    + eexists. split; [reflexivity|]. split.
      * apply Z.div_pos; [lia|apply Hpow; lia].
      * apply Z.div_le_upper_bound; [apply Hpow; lia|]. lia.
  - lia.
Qed.

(** A valid mantissa has at most 53 digits. *)
Lemma bounded_mantissa (m : positive) (e : Z) :
  bounded prec emax m e = true ->
  Z.pos (digits2_pos m) <= 53
  /\ Z.max (Z.pos (digits2_pos m) + e - 53) (-1074) = e.
Proof.
  unfold bounded, canonical_mantissa. rewrite fexp_eq.
  intros Hb. apply andb_prop in Hb. destruct Hb as [Hc _].
  apply Z.eqb_eq in Hc. lia.
Qed.

Lemma filled_of_ten_zero {P : Platform} :
  int_of_float64 (float64_of_int 10 * zero) = 0.
Proof. vm_compute. reflexivity. Qed.

Lemma filled_of_ten_one {P : Platform} :
  int_of_float64 (float64_of_int 10 * one) = 10.
Proof. vm_compute. reflexivity. Qed.

(** The filled cells of a track of width 10: at most 10, whatever number the
    progress is. *)
Lemma filled_of_ten_bounded {P : Platform} (p : float) :
  IsNaN p = false ->
  0 <= int_of_float64 (float64_of_int 10 * clamp p) <= 10.
Proof.
  intros Hnan.
  destruct (clamp_cases p Hnan) as [[E _]|[[E _]|[E [L0 [_ L1]]]]]; rewrite E.
  - pose proof (@filled_of_ten_zero P) as H0.
    set (z := int_of_float64 _) in *. clearbody z. lia.
  - pose proof (@filled_of_ten_one P) as H1.
    set (z := int_of_float64 _) in *. clearbody z. lia.
  - clear E Hnan. unfold int_of_float64.
    rewrite mul_spec.
    pose proof (Prim2SF_valid p) as Hv.
    change (Prim2SF (float64_of_int 10))
      with (S754_finite false 5629499534213120 (-49)).
    to_spec.
    destruct (Prim2SF p) as [[|]|[|]| |[|] m e] eqn:Ep; sf; try discriminate.
    clear L0. cbn [valid_binary] in Hv.
    apply bounded_mantissa in Hv. destruct Hv as [Hd Hc].
    pose proof (digits2_pos_upper m) as Hu.
    pose proof (digits2_pos_lower m) as Hl.
    assert (Hm53 : Z.pos m < 2 ^ 53).
    { assert (2 ^ Z.pos (digits2_pos m) <= 2 ^ 53)
        by (apply Z.pow_le_mono_r; clear - Hd; lia).
      clear - H Hu. lia. }
    destruct (e ?= -52) eqn:Ee; try discriminate.
    + (* e = -52: the mantissa is 2^52 and p is 1 *)
      apply Z.compare_eq in Ee. subst e.
      assert (Hle : (m <= 4503599627370496)%positive).
      { unfold Pos.le, Pos.compare.
        destruct (Pos.compare_cont Eq m 4503599627370496); discriminate. }
      apply Pos2Z.pos_le_pos in Hle.
      assert (Hdm : Z.pos (digits2_pos m) = 53) by (clear - Hc; lia).
      rewrite Hdm in Hl. change (2 ^ (53 - 1)) with 4503599627370496 in Hl.
      assert (Hm : Z.pos m = 4503599627370496) by (clear - Hl Hle; lia).
      injection Hm as ->.
      vm_compute. split; discriminate.
    + (* e < -52 *)
      clear L1. rewrite Z.compare_lt_iff in Ee.
      unfold SF64mul, SFmul. cbn [xorb].
      destruct (binary_round_aux_bounded (5629499534213120 * m) (-49 + e) 10)
        as [n [Hn Hb]].
      * clear - Ee. lia.
      * clear. split; [lia|]. change (2 ^ 52) with 4503599627370496. lia.
      * rewrite Pos2Z.inj_mul.
        assert (2 ^ 102 <= 2 ^ (- (-49 + e)))
          by (apply Z.pow_le_mono_r; clear - Ee; lia).
        change (2 ^ 102) with 5070602400912917605986812821504 in H.
        change (2 ^ 53) with 9007199254740992 in Hm53.
        clear - H Hm53. lia.
      * rewrite Hn.
        replace (in_int64 n) with true; [clear - Hb; lia|].
        symmetry. unfold in_int64. apply andb_true_intro.
        split; apply Z.leb_le; change (2 ^ 63) with 9223372036854775808;
          clear - Hb; lia.
Qed.

(** ** What [SetProgress] writes *)

Lemma SetProgress_running {P : Platform} (b : Bar) (now : Z) (p : float) :
  started b = true -> stopped b = false ->
  SetProgress now p b =
    (set_lastProgress b (clamp p),
     [String.append CR
        (String.append (track b (clamp p))
           (String.append (percent_suffix b (clamp p)) (eta_suffix now b (clamp p))))]).
Proof.
  intros Hs Ht. unfold SetProgress, SetProgress_guard. rewrite Hs, Ht. reflexivity.
Qed.

Lemma length_append (s t : string) :
  String.length (String.append s t) = (String.length s + String.length t)%nat.
Proof.
  induction s as [|a s IH]; [reflexivity|].
  change (S (String.length (String.append s t))
          = S (String.length s + String.length t)%nat).
  rewrite IH. reflexivity.
Qed.

Lemma length_repeat_string (s : string) (n : nat) :
  String.length (repeat_string s n) = (n * String.length s)%nat.
Proof.
  induction n as [|n IH]; cbn [repeat_string]; [reflexivity|].
  rewrite length_append, IH. reflexivity.
Qed.

Lemma track_ten {P : Platform} (b : Bar) (c : float) :
  totalWidth b = 10 -> FilledChar (config b) = "#"%string ->
  EmptyChar (config b) = " "%string ->
  track b c =
    String.append (write_times "#" (int_of_float64 (float64_of_int 10 * c)))
      (write_times " " (wrap64 (10 - int_of_float64 (float64_of_int 10 * c)))).
Proof.
  intros Hw Hf He. unfold track, filledCount. rewrite Hw, Hf, He. reflexivity.
Qed.

(** C8: a running bar of width 10 with "#" and " " writes, for every number
    [p], a carriage return, then [n] filled cells followed by [10 - n] empty
    ones, then the suffixes; [n] is the integer part of the [float64] product
    of 10 and max(0, min(1, p)), between 0 and 10, so the track is 10 cells
    long.  [SetProgress(0.5)] draws "#####     ", [SetProgress(1.0)] draws
    "##########", and [SetProgress(1.5)] does exactly what [SetProgress(1.0)]
    does. *)
Theorem SetProgress_renders_track {P : Platform} (b : Bar) (now : Z) (p : float) :
  totalWidth b = 10 -> FilledChar (config b) = "#"%string ->
  EmptyChar (config b) = " "%string ->
  started b = true -> stopped b = false -> IsNaN p = false ->
  let n := int_of_float64 (float64_of_int 10 * Max zero (Min one p)) in
  0 <= n <= 10
  /\ track b (clamp p) =
       String.append (repeat_string "#" (Z.to_nat n))
                     (repeat_string " " (Z.to_nat (10 - n)))
  /\ String.length (track b (clamp p)) = 10%nat
  /\ snd (SetProgress now p b) =
       [String.append CR
          (String.append (track b (clamp p))
             (String.append (percent_suffix b (clamp p))
                            (eta_suffix now b (clamp p))))]
  /\ track b (clamp 0.5) = "#####     "%string
  /\ track b (clamp 1) = "##########"%string
  /\ SetProgress now 1.5 b = SetProgress now 1 b.
Proof.
  intros Hw Hf He Hs Ht Hnan. cbv zeta.
  fold (clamp p).
  pose proof (filled_of_ten_bounded p Hnan) as Hn.
  assert (Htrack : track b (clamp p) =
            String.append
              (repeat_string "#" (Z.to_nat (int_of_float64 (float64_of_int 10 * clamp p))))
              (repeat_string " "
                 (Z.to_nat (10 - int_of_float64 (float64_of_int 10 * clamp p))))).
  { rewrite (track_ten b (clamp p) Hw Hf He). unfold write_times.
    set (n := int_of_float64 (float64_of_int 10 * clamp p)) in *. clearbody n.
    rewrite wrap64_small; [reflexivity|].
    clear - Hn. change (2 ^ 63) with 9223372036854775808. lia. }
  split; [exact Hn|]. split; [exact Htrack|]. split.
  { rewrite Htrack, length_append, !length_repeat_string.
    set (n := int_of_float64 (float64_of_int 10 * clamp p)) in *. clearbody n.
    cbn [String.length]. clear - Hn. lia. }
  split.
  { rewrite (SetProgress_running b now p Hs Ht). reflexivity. }
  split; [rewrite (track_ten b _ Hw Hf He); vm_compute; reflexivity|].
  split; [rewrite (track_ten b _ Hw Hf He); vm_compute; reflexivity|].
  rewrite !(SetProgress_running b now _ Hs Ht).
  replace (clamp 1.5) with (clamp 1) by (vm_compute; reflexivity).
  reflexivity.
Qed.

Lemma SetProgress_renders_track_witness :
  exists b chunk,
    Start 0 (NewBarWithConfig None (mkBarConfig 10 "#" " " false false) [])
    = Some (b, [chunk])
    /\ @track amd64 b (clamp 0.25) = "##        "%string
    /\ snd (@SetProgress amd64 0 0.25%float b) = [String.append CR "##        "].
Proof.
  eexists. eexists. split; [reflexivity|].
  match goal with |- @track _ ?b _ = _ /\ _ =>
    destruct (@SetProgress_renders_track amd64 b 0 0.25%float
                eq_refl eq_refl eq_refl eq_refl eq_refl eq_refl)
      as [_ [Htr [_ [Hw _]]]]
  end.
  split; [exact Htr | exact Hw].
Defined.

(** ** [Stop] and the goroutines of the bar *)

(** [Stop] leaves every goroutine where it stands: it waits for none. *)
Lemma Bar_Stop_keeps_threads {P : Platform} (s s' : BarSystem.sys) :
  BarSystem.step BarSystem.CallStop s = Some s' ->
  BarSystem.threads s' = BarSystem.threads s.
Proof.
  unfold BarSystem.step.
  destruct (Stop (BarSystem.bar s)) as [[b out]|]; [|discriminate].
  destruct (stopped (BarSystem.bar s)); intros E; injection E as <-; reflexivity.
Qed.

(** The three steps of a caller's [SetProgress], run without interruption,
    are the function [SetProgress]. *)
Lemma Bar_SetProgress_steps {P : Platform} (s : BarSystem.sys) (p : float) :
  started (BarSystem.bar s) = true -> stopped (BarSystem.bar s) = false ->
  let i := length (BarSystem.threads s) in
  exists s',
    BarSystem.run [BarSystem.CallSetProgress p; BarSystem.Step i; BarSystem.Step i;
                   BarSystem.Step i] s = Some s'
    /\ BarSystem.bar s' = fst (SetProgress (BarSystem.now s) p (BarSystem.bar s))
    /\ BarSystem.sink s' =
         BarSystem.sink s ++ snd (SetProgress (BarSystem.now s) p (BarSystem.bar s))
    /\ BarSystem.threads s' = BarSystem.threads s ++ [BarSystem.Exited].
Proof.
  intros Hs Ht. cbv zeta.
  rewrite (SetProgress_running _ _ _ Hs Ht).
  destruct s as [b snk ch nt tm nw ths].
  cbn [BarSystem.bar BarSystem.sink BarSystem.now BarSystem.threads] in *.
  assert (Hlook : forall x : BarSystem.pc, (ths ++ [x]) !! length ths = Some x).
  { intros x. rewrite lookup_app_r by lia. rewrite Nat.sub_diag. reflexivity. }
  assert (Hins : forall x y : BarSystem.pc,
             <[length ths := y]> (ths ++ [x]) = ths ++ [y]).
  { intros x y. rewrite insert_app_r_alt by lia. rewrite Nat.sub_diag. reflexivity. }
  unfold BarSystem.run, BarSystem.step, BarSystem.step_thread.
  cbn [BarSystem.bar BarSystem.sink BarSystem.now BarSystem.threads
       BarSystem.termSizeCh BarSystem.notified BarSystem.term].
  rewrite Hlook. unfold SetProgress_guard. rewrite Hs, Ht. cbn [negb orb].
  cbn [BarSystem.bar BarSystem.sink BarSystem.now BarSystem.threads
       BarSystem.termSizeCh BarSystem.notified BarSystem.term].
  rewrite Hins, Hlook.
  cbn [BarSystem.bar BarSystem.sink BarSystem.now BarSystem.threads
       BarSystem.termSizeCh BarSystem.notified BarSystem.term].
  rewrite Hins, Hlook.
  cbn [BarSystem.bar BarSystem.sink BarSystem.now BarSystem.threads
       BarSystem.termSizeCh BarSystem.notified BarSystem.term].
  rewrite Hins.
  eexists. split; [reflexivity|].
  cbn [BarSystem.threads BarSystem.bar BarSystem.sink fst snd SetProgress_store
       BarSystem.after].
  repeat split.
Qed.

(** C2 fails for the bar.  An auto-width bar on a terminal of 40 columns is
    started and set to 0.5; the terminal is resized to 30 columns, and
    [handleResize] (goroutine 0) has read the progress and passed the check
    of [SetProgress] when [Stop] runs.  [Stop] returns with [handleResize]
    still there, which then writes a bar to the [Writer], after the line was
    cleared.  And with no resize at all, [Stop] returns with [handleResize]
    blocked on its channel. *)
Theorem Bar_Stop_does_not_join_handleResize :
  let s0 := BarSystem.init (NewBarWithConfig (Some 40) StyleDefault []) (Some 40) in
  (exists s1 s2,
      @BarSystem.run amd64
        [BarSystem.CallStart; BarSystem.CallSetProgress 0.5; BarSystem.Step 1;
         BarSystem.Step 1; BarSystem.Step 1; BarSystem.Sigwinch (Some 30);
         BarSystem.Step 0; BarSystem.Step 0; BarSystem.Step 0;
         BarSystem.CallStop] s0 = Some s1
      /\ IsStopped (BarSystem.bar s1) = true
      /\ BarSystem.threads s1 !! 0%nat = Some (BarSystem.SP_store BarSystem.Watcher 0.5)
      /\ @BarSystem.run amd64 [BarSystem.Step 0; BarSystem.Step 0] s1 = Some s2
      /\ BarSystem.sink s2 =
           BarSystem.sink s1
           ++ [String.append CR "###########              50%"])
  /\ (exists s1,
      @BarSystem.run amd64 [BarSystem.CallStart; BarSystem.CallStop] s0 = Some s1
      /\ IsStopped (BarSystem.bar s1) = true
      /\ BarSystem.threads s1 = [BarSystem.Select]
      /\ @BarSystem.step amd64 (BarSystem.Step 0) s1 = None).
Proof.
  cbv zeta. split.
  - eexists. eexists. split; [vm_compute; reflexivity|].
    split; [reflexivity|]. split; [reflexivity|].
    split; [vm_compute; reflexivity|]. vm_compute. reflexivity.
  - eexists. split; [vm_compute; reflexivity|].
    split; [reflexivity|]. split; reflexivity.
Qed.

(** ** [Run] *)

Section RunOrdering.
Import RunSystem.
Variable St : Type.
Variable start : Z -> St -> option (St * list string).
Variable stop : St -> option (St * list string).
Variable set : Z -> float -> St -> option (St * list string).
Variable calls : list float.

(** The states [Run] with [wg.Wait()] goes through. *)
Inductive Run_phase : sys St -> Prop :=
| Phase_start b snk nw :
    Run_phase (mkSys b snk nw 0 (ProgressRun.Run calls) NotSpawned [])
| Phase_add b snk nw :
    Run_phase (mkSys b snk nw 0 [IAdd 1; IGo calls; IWait; IStop] NotSpawned [EvStart])
| Phase_go b snk nw :
    Run_phase (mkSys b snk nw 1 [IGo calls; IWait; IStop] NotSpawned [EvStart])
| Phase_working b snk nw done rest :
    calls = done ++ rest ->
    Run_phase (mkSys b snk nw 1 [IWait; IStop] (Working rest)
                 (EvStart :: map EvSet done))
| Phase_finished b snk nw :
    Run_phase (mkSys b snk nw 0 [IWait; IStop] Finished
                 (EvStart :: map EvSet calls ++ [EvFnReturn]))
| Phase_stop b snk nw :
    Run_phase (mkSys b snk nw 0 [IStop] Finished
                 (EvStart :: map EvSet calls ++ [EvFnReturn]))
| Phase_returned b snk nw :
    Run_phase (mkSys b snk nw 0 [] Finished
                 (EvStart :: map EvSet calls ++ [EvFnReturn; EvStop])).

Lemma Run_phase_step (l : label) (s s' : sys St) :
  Run_phase s -> step start stop set l s = Some s' -> Run_phase s'.
Proof.
  intros Hp Hstep. destruct Hp; destruct l; cbn in Hstep;
    try discriminate;
    try (destruct (d <? 0); [discriminate|]; injection Hstep as <-; constructor; assumption).
  - destruct (start nw b) as [[b' out]|]; [|discriminate].
    injection Hstep as <-. constructor.
  - injection Hstep as <-. constructor.
  - injection Hstep as <-. apply (Phase_working _ _ _ [] calls). reflexivity.
  - destruct rest as [|p rest].
    + cbn in Hstep. injection Hstep as <-.
      rewrite app_nil_r in H. subst done. constructor.
    + destruct (set nw p b) as [[b' out]|]; [|discriminate].
      injection Hstep as <-.
      replace (EvStart :: map EvSet done ++ [EvSet p])
        with (EvStart :: map EvSet (done ++ [p]))
        by (rewrite map_app; reflexivity).
      apply Phase_working. rewrite <- app_assoc. exact H.
  - injection Hstep as <-. constructor.
  - destruct (stop b) as [[b' out]|]; [|discriminate].
    injection Hstep as <-.
    replace ((map EvSet calls ++ [EvFnReturn]) ++ [EvStop])
      with (map EvSet calls ++ [EvFnReturn; EvStop])
      by (rewrite <- app_assoc; reflexivity).
    constructor.
Qed.

Lemma Run_phase_run (ls : list label) : forall s s' : sys St,
  Run_phase s -> run start stop set ls s = Some s' -> Run_phase s'.
Proof.
  induction ls as [|l ls IH]; intros s s' Hp Hrun; cbn in Hrun.
  - injection Hrun as <-. exact Hp.
  - destruct (step start stop set l s) as [s1|] eqn:Hstep; [|discriminate].
    apply (IH s1); [apply (Run_phase_step l s); assumption|exact Hrun].
Qed.

(** [Run] with [wg.Wait()]: however the two goroutines are scheduled, [Stop]
    is called only after [fn] has made all its calls and returned, and when
    [Run] has returned the calls have happened in this order: [Start], the
    calls of [fn], the return of [fn], [Stop]. *)
Lemma Run_waits (b : St) (ls : list label) (s : sys St) :
  run start stop set ls (init b (ProgressRun.Run calls)) = Some s ->
  (In EvStop (events s) ->
   events s = EvStart :: map EvSet calls ++ [EvFnReturn; EvStop])
  /\ (main s = [] ->
      events s = EvStart :: map EvSet calls ++ [EvFnReturn; EvStop]
      /\ fn s = Finished).
Proof.
  intros Hrun.
  assert (Hp : Run_phase s).
  { apply (Run_phase_run ls (init b (ProgressRun.Run calls))); [constructor|exact Hrun]. }
  destruct Hp; cbn [events main fn]; split; try discriminate; try (intros _; split; reflexivity);
    try reflexivity; intros Hin; exfalso.
  - destruct Hin.
  - destruct Hin as [E|[]]. discriminate.
  - destruct Hin as [E|[]]. discriminate.
  - destruct Hin as [E|Hin]; [discriminate|].
    apply in_map_iff in Hin. destruct Hin as [x [E _]]. discriminate.
  - destruct Hin as [E|Hin]; [discriminate|].
    apply in_app_or in Hin. destruct Hin as [Hin|[E|[]]]; [|discriminate].
    apply in_map_iff in Hin. destruct Hin as [x [E _]]. discriminate.
  - destruct Hin as [E|Hin]; [discriminate|].
    apply in_app_or in Hin. destruct Hin as [Hin|[E|[]]]; [|discriminate].
    apply in_map_iff in Hin. destruct Hin as [x [E _]]. discriminate.
Qed.

End RunOrdering.

(** The configurable bar's [Run] runs to its end, in the order [Start], the
    calls of [fn], [Stop]. *)
Lemma Bar_Run_example :
  exists s,
    @ProgressRun.run amd64
      [RunSystem.Main; RunSystem.Main; RunSystem.Main; RunSystem.Fn; RunSystem.Fn;
       RunSystem.Fn; RunSystem.Main; RunSystem.Main]
      (RunSystem.init (NewBarWithConfig None (mkBarConfig 10 "#" " " false false) [])
         (ProgressRun.Run [0.5; 1]%float)) = Some s
    /\ RunSystem.main s = []
    /\ RunSystem.events s =
         [RunSystem.EvStart; RunSystem.EvSet 0.5; RunSystem.EvSet 1;
          RunSystem.EvFnReturn; RunSystem.EvStop]
    /\ RunSystem.sink s =
         [String.append CR "               "; String.append CR "#####     ";
          String.append CR "##########"; String.append CR "               "; CR].
Proof. eexists. split; [vm_compute; reflexivity|]. repeat split. Qed.

(** C3 fails for the first bar ([progress/progress.go]): its [Run] adds to
    the WaitGroup and never waits.  With [fn] one call [setProgress(0.5)],
    [Run] can return, [Stop] called, before [fn] has run at all; the call of
    [fn] then draws on the cleared line. *)
Theorem Progress0_Run_does_not_wait :
  let s0 := RunSystem.init (Progress0.NewBar 11) (Progress0.Run [0.5%float]) in
  exists s1 s2,
    @Progress0.run amd64
      [RunSystem.Main; RunSystem.Main; RunSystem.Main; RunSystem.Main] s0 = Some s1
    /\ RunSystem.main s1 = []
    /\ RunSystem.events s1 = [RunSystem.EvStart; RunSystem.EvStop]
    /\ RunSystem.fn s1 = RunSystem.Working [0.5%float]
    /\ @Progress0.step amd64 RunSystem.Fn s1 = Some s2
    /\ RunSystem.events s2 =
         [RunSystem.EvStart; RunSystem.EvStop; RunSystem.EvSet 0.5]
    /\ RunSystem.sink s2 = RunSystem.sink s1 ++ [String.append CR "#####     "].
Proof.
  cbv zeta. eexists. eexists. split; [vm_compute; reflexivity|].
  split; [reflexivity|]. split; [reflexivity|]. split; [reflexivity|].
  split; [vm_compute; reflexivity|]. split; reflexivity.
Qed.

(** ** Restarting a spinner *)

(** A [Start] that goes through starts a goroutine at frame index 0: the
    first frame it draws is the first of the sequence. *)
Lemma Spinner_Start_first_frame (s : SpinnerSystem.sys) (f0 : Z) (fr : list Z) :
  Spinner.running (SpinnerSystem.sp s) = false ->
  SpinnerSystem.stopping s = false ->
  0 < Spinner.frameDuration (SpinnerSystem.sp s) ->
  Spinner.frames (SpinnerSystem.sp s) = f0 :: fr ->
  exists s1 s2,
    SpinnerSystem.step SpinnerSystem.CallStart s = Some s1
    /\ Spinner.running (SpinnerSystem.sp s1) = true
    /\ SpinnerSystem.step (SpinnerSystem.Tick (length (SpinnerSystem.anims s))) s1
       = Some s2
    /\ SpinnerSystem.sink s2 =
         SpinnerSystem.sink s
         ++ [String.append CR
               (String.append (Spinner.prefix (SpinnerSystem.sp s))
                  (String.append (utf8 f0) (Spinner.suffix (SpinnerSystem.sp s))))].
Proof.
  intros Hr Hs Hd Hf. destruct s as [sp snk cs ans st].
  cbn [SpinnerSystem.sp SpinnerSystem.stopping SpinnerSystem.anims
       SpinnerSystem.sink] in *.
  subst st. unfold SpinnerSystem.step at 1.
  cbn [SpinnerSystem.sp SpinnerSystem.stopping SpinnerSystem.anims
       SpinnerSystem.sink SpinnerSystem.chans].
  rewrite Hr. replace (Spinner.frameDuration sp <=? 0) with false
    by (symmetry; apply Z.leb_gt; exact Hd).
  eexists. eexists. split; [reflexivity|]. split; [reflexivity|].
  unfold SpinnerSystem.step.
  cbn [SpinnerSystem.sp SpinnerSystem.stopping SpinnerSystem.anims
       SpinnerSystem.sink SpinnerSystem.chans].
  rewrite lookup_app_r by lia. rewrite Nat.sub_diag.
  cbn [lookup list_lookup SpinnerSystem.alive SpinnerSystem.frameIndex
       Spinner.set_channels Spinner.frames].
  rewrite Hf. split; reflexivity.
Qed.

(** When [Stop] returns the spinner is not running, and its frames, texts
    and what it has written are as they were. *)
Lemma Spinner_StopLeave (s s1 : SpinnerSystem.sys) :
  SpinnerSystem.step SpinnerSystem.StopLeave s = Some s1 ->
  Spinner.running (SpinnerSystem.sp s1) = false
  /\ SpinnerSystem.stopping s1 = false
  /\ Spinner.frames (SpinnerSystem.sp s1) = Spinner.frames (SpinnerSystem.sp s)
  /\ Spinner.frameDuration (SpinnerSystem.sp s1)
     = Spinner.frameDuration (SpinnerSystem.sp s)
  /\ Spinner.prefix (SpinnerSystem.sp s1) = Spinner.prefix (SpinnerSystem.sp s)
  /\ Spinner.suffix (SpinnerSystem.sp s1) = Spinner.suffix (SpinnerSystem.sp s)
  /\ SpinnerSystem.sink s1 = SpinnerSystem.sink s
  /\ SpinnerSystem.anims s1 = SpinnerSystem.anims s.
Proof.
  unfold SpinnerSystem.step.
  destruct (SpinnerSystem.stopping s); [|discriminate].
  destruct (Spinner.finishedCh (SpinnerSystem.sp s)) as [f|]; [|discriminate].
  destruct (SpinnerSystem.closed (SpinnerSystem.chans s) f); [|discriminate].
  intros E. injection E as <-. repeat split.
Qed.

(** The configurable spinner: after [Stop()] has returned, [Start()] starts
    anew and the next frame drawn is the first of the sequence. *)
Lemma Spinner_restart_first_frame (s s1 : SpinnerSystem.sys) (f0 : Z) (fr : list Z) :
  SpinnerSystem.step SpinnerSystem.StopLeave s = Some s1 ->
  0 < Spinner.frameDuration (SpinnerSystem.sp s) ->
  Spinner.frames (SpinnerSystem.sp s) = f0 :: fr ->
  exists s2 s3,
    SpinnerSystem.step SpinnerSystem.CallStart s1 = Some s2
    /\ SpinnerSystem.step (SpinnerSystem.Tick (length (SpinnerSystem.anims s1))) s2
       = Some s3
    /\ SpinnerSystem.sink s3 =
         SpinnerSystem.sink s1
         ++ [String.append CR
               (String.append (Spinner.prefix (SpinnerSystem.sp s))
                  (String.append (utf8 f0) (Spinner.suffix (SpinnerSystem.sp s))))].
Proof.
  intros Hleave Hd Hf.
  destruct (Spinner_StopLeave s s1 Hleave)
    as [Hr [Hs [Efr [Ed [Ep [Es [_ _]]]]]]].
  destruct (Spinner_Start_first_frame s1 f0 fr Hr Hs) as [s2 [s3 [H1 [_ [H2 H3]]]]].
  - rewrite Ed. exact Hd.
  - rewrite Efr. exact Hf.
  - exists s2, s3. rewrite <- Ep, <- Es. repeat split; assumption.
Qed.

Lemma Spinner_restart_example :
  exists s,
    SpinnerSystem.run
      ([SpinnerSystem.CallStart; SpinnerSystem.Tick 0; SpinnerSystem.Tick 0]
       ++ SpinnerSystem.Restart 0 1 ++ [SpinnerSystem.Tick 1])
      (SpinnerSystem.init (Spinner.New [])) = Some s
    /\ SpinnerSystem.sink s =
         [String.append CR "|"; String.append CR "/"; String.append CR "-";
          String.append CR (String.append " " CR); String.append CR "|"].
Proof. eexists. split; [vm_compute; reflexivity|]. reflexivity. Qed.

(** The bar: [Start] after [Stop] sets the progress to 0. *)
Lemma Bar_restart_zero (b b1 : Bar) (now : Z) (out : list string) (chunk : string) :
  Stop b = Some (b1, out) -> clearLine b = Some chunk -> stopped b = false ->
  exists b2, Start now b1 = Some (b2, [chunk]) /\ GetProgress b2 = zero
             /\ started b2 = true /\ stopped b2 = false.
Proof.
  intros Hstop Hc Ht. rewrite (Bar_Stop_not_stopped b chunk Ht Hc) in Hstop.
  injection Hstop as <- <-. unfold Start.
  cbn [set_stopped started stopped].
  rewrite andb_false_r.
  match goal with |- context [clearLine ?x] =>
    replace (clearLine x) with (clearLine b) by reflexivity end.
  rewrite Hc. eexists. split; [reflexivity|]. repeat split.
Qed.

(** C5 fails for the first spinner ([spinner/spinner.go]).  Its first frame
    is the second of the sequence ([i] is incremented before the first
    [select]).  [Stop] leaves [doneCh] as it is, so that [Start] after [Stop]
    returns at once: no goroutine is started, no frame is drawn any more.
    (A second [Stop] closes the closed channel and panics.) *)
Theorem Spinner0_Start_after_Stop_does_nothing :
  let s0 := Spinner0.init (Spinner0.New []) in
  (exists s, Spinner0.run [Spinner0.CallStart; Spinner0.Tick 0] s0 = Some s
             /\ Spinner0.sink s = [String.append CR "/"])
  /\ (exists s,
        Spinner0.run [Spinner0.CallStart; Spinner0.Tick 0; Spinner0.StopEnter;
                      Spinner0.Exit 0; Spinner0.StopLeave; Spinner0.CallStart] s0
        = Some s
        /\ Spinner0.anims s = [Spinner0.mkAnim 0 1 2 false]
        /\ (forall g, Spinner0.step (Spinner0.Tick g) s = None)
        /\ Spinner0.step Spinner0.StopEnter s = None).
Proof.
  cbv zeta. split.
  - eexists. split; [vm_compute; reflexivity|]. reflexivity.
  - eexists. split; [vm_compute; reflexivity|].
    split; [reflexivity|]. split; [|reflexivity].
    intros g. destruct g as [|g]; reflexivity.
Qed.

(** ** [Stop] and the goroutine of the spinner *)

(** What holds of a spinner and its goroutines at all times: a running
    spinner has its two channels; only a running spinner is being stopped;
    and a goroutine that is alive is the only one, its channels are the
    spinner's, and its [finishedCh] is open. *)
Definition Spinner_inv (s : SpinnerSystem.sys) : Prop :=
  (Spinner.running (SpinnerSystem.sp s) = true ->
   exists d f, Spinner.doneCh (SpinnerSystem.sp s) = Some d
               /\ Spinner.finishedCh (SpinnerSystem.sp s) = Some f)
  /\ (SpinnerSystem.stopping s = true -> Spinner.running (SpinnerSystem.sp s) = true)
  /\ forall i a,
       SpinnerSystem.anims s !! i = Some a -> SpinnerSystem.alive a = true ->
       Spinner.running (SpinnerSystem.sp s) = true
       /\ Spinner.doneCh (SpinnerSystem.sp s) = Some (SpinnerSystem.a_done a)
       /\ Spinner.finishedCh (SpinnerSystem.sp s) = Some (SpinnerSystem.a_finished a)
       /\ SpinnerSystem.a_done a <> SpinnerSystem.a_finished a
       /\ SpinnerSystem.closed (SpinnerSystem.chans s) (SpinnerSystem.a_finished a)
          = false
       /\ forall j a', SpinnerSystem.anims s !! j = Some a' ->
                       SpinnerSystem.alive a' = true -> j = i.

Lemma closed_insert_ne (cs : list bool) (d f : nat) :
  d <> f ->
  SpinnerSystem.closed (<[d := true]> cs) f = SpinnerSystem.closed cs f.
Proof.
  intros Hne. unfold SpinnerSystem.closed.
  rewrite list_lookup_insert_ne by exact Hne. reflexivity.
Qed.

Lemma Spinner_inv_init (s0 : Spinner.Spinner) :
  Spinner.running s0 = false -> Spinner_inv (SpinnerSystem.init s0).
Proof.
  intros Hr. unfold Spinner_inv, SpinnerSystem.init.
  cbn [SpinnerSystem.sp SpinnerSystem.stopping SpinnerSystem.anims].
  split; [rewrite Hr; discriminate|]. split; [discriminate|].
  intros i a Hl. rewrite lookup_nil in Hl. discriminate.
Qed.

Ltac open_inv H :=
  let I1 := fresh "I1" in
  let I2 := fresh "I2" in
  let I3 := fresh "I3" in
  pose proof H as [I1 [I2 I3]];
  cbn [SpinnerSystem.sp SpinnerSystem.stopping SpinnerSystem.anims
       SpinnerSystem.chans] in I1, I2, I3.

Lemma Spinner_inv_step (l : SpinnerSystem.label) (s s' : SpinnerSystem.sys) :
  Spinner_inv s -> SpinnerSystem.step l s = Some s' -> Spinner_inv s'.
Proof.
  intros Hinv Hstep.
  destruct s as [sp snk cs ans st].
  destruct l as [| | |p|p|i|i]; cbn [SpinnerSystem.step] in Hstep;
    cbn [SpinnerSystem.sp SpinnerSystem.stopping SpinnerSystem.anims
         SpinnerSystem.chans SpinnerSystem.sink] in Hstep.
  - (* Start *)
    destruct st; [discriminate|].
    destruct (Spinner.running sp) eqn:Hr.
    { injection Hstep as <-. exact Hinv. }
    destruct (Spinner.frameDuration sp <=? 0); [discriminate|].
    injection Hstep as <-. open_inv Hinv. unfold Spinner_inv.
    cbn [SpinnerSystem.sp SpinnerSystem.stopping SpinnerSystem.anims
         SpinnerSystem.chans Spinner.set_channels Spinner.running Spinner.doneCh
         Spinner.finishedCh].
    split; [intros _; eexists; eexists; split; reflexivity|].
    split; [discriminate|].
    assert (Hold : forall j a', ans !! j = Some a' -> SpinnerSystem.alive a' = true -> False).
    { intros j a' Hl Ha. destruct (I3 j a' Hl Ha) as [Hrun _]. congruence. }
    intros i a Hl Ha.
    apply lookup_app_Some in Hl. destruct Hl as [Hl|[Hi Hl]].
    { exfalso. exact (Hold i a Hl Ha). }
    destruct (i - length ans)%nat as [|k] eqn:Ek; [|destruct k; discriminate].
    injection Hl as <-. cbn [SpinnerSystem.a_done SpinnerSystem.a_finished].
    split; [reflexivity|]. split; [reflexivity|]. split; [reflexivity|].
    split; [lia|]. split.
    + unfold SpinnerSystem.closed. rewrite lookup_app_r by lia.
      replace (S (length cs) - length cs)%nat with 1%nat by lia. reflexivity.
    + intros j a' Hl' Ha'.
      apply lookup_app_Some in Hl'. destruct Hl' as [Hl'|[Hj Hl']].
      { exfalso. exact (Hold j a' Hl' Ha'). }
      destruct (j - length ans)%nat as [|k] eqn:Ek'; [lia|destruct k; discriminate].
  - (* Stop, up to close(doneCh) *)
    destruct st; [discriminate|].
    destruct (Spinner.doneCh sp) as [d|] eqn:Hd.
    2:{ injection Hstep as <-. exact Hinv. }
    destruct (Spinner.running sp) eqn:Hr; cbn [negb] in Hstep.
    2:{ injection Hstep as <-. exact Hinv. }
    destruct (SpinnerSystem.closed cs d); [discriminate|].
    injection Hstep as <-. open_inv Hinv. unfold Spinner_inv.
    cbn [SpinnerSystem.sp SpinnerSystem.stopping SpinnerSystem.anims
         SpinnerSystem.chans].
    split; [exact I1|]. split; [intros _; exact Hr|].
    intros i a Hl Ha. destruct (I3 i a Hl Ha) as [H1 [H2 [H3 [H4 [H5 H6]]]]].
    repeat split; try assumption.
    rewrite closed_insert_ne; [exact H5|].
    rewrite Hd in H2. injection H2 as ->. exact H4.
  - (* Stop, from <-finishedCh on *)
    destruct st; [|discriminate].
    destruct (Spinner.finishedCh sp) as [f|] eqn:Hf; [|discriminate].
    destruct (SpinnerSystem.closed cs f) eqn:Hc; [|discriminate].
    injection Hstep as <-. open_inv Hinv. unfold Spinner_inv.
    cbn [SpinnerSystem.sp SpinnerSystem.stopping SpinnerSystem.anims
         SpinnerSystem.chans Spinner.set_channels Spinner.running].
    split; [discriminate|]. split; [discriminate|].
    intros i a Hl Ha. exfalso.
    destruct (I3 i a Hl Ha) as [_ [_ [H3 [_ [H5 _]]]]].
    rewrite Hf in H3. injection H3 as ->. congruence.
  - (* SetPrefix *)
    destruct st; [discriminate|]. injection Hstep as <-.
    exact Hinv.
  - (* SetSuffix *)
    destruct st; [discriminate|]. injection Hstep as <-.
    exact Hinv.
  - (* a tick *)
    destruct (ans !! i) as [a|] eqn:Hl; [|discriminate].
    destruct (SpinnerSystem.alive a) eqn:Ha; [|discriminate].
    destruct (Spinner.frame_at (Spinner.frames sp) (SpinnerSystem.frameIndex a));
      [|discriminate].
    injection Hstep as <-. open_inv Hinv. unfold Spinner_inv.
    cbn [SpinnerSystem.sp SpinnerSystem.stopping SpinnerSystem.anims
         SpinnerSystem.chans].
    split; [exact I1|]. split; [exact I2|].
    assert (Huniq : forall j a', <[i:=SpinnerSystem.mkAnim (SpinnerSystem.a_done a)
                                        (SpinnerSystem.a_finished a)
                                        (wrap64 (SpinnerSystem.frameIndex a + 1)) true]>
                                   ans !! j = Some a' ->
                                 SpinnerSystem.alive a' = true -> j = i).
    { intros j a' Hl' Ha'. apply list_lookup_insert_Some in Hl'.
      destruct Hl' as [[E _]|[Hne Hl']]; [congruence|].
      destruct (I3 i a Hl Ha) as [_ [_ [_ [_ [_ H6]]]]]. exact (H6 j a' Hl' Ha'). }
    intros j a' Hl' Ha'. pose proof (Huniq j a' Hl' Ha') as ->.
    apply list_lookup_insert_Some in Hl'.
    destruct Hl' as [[_ [E _]]|[Hne _]]; [|congruence]. subst a'.
    cbn [SpinnerSystem.a_done SpinnerSystem.a_finished].
    destruct (I3 i a Hl Ha) as [H1 [H2 [H3 [H4 [H5 _]]]]].
    repeat split; try assumption.
  - (* the goroutine returns *)
    destruct (ans !! i) as [a|] eqn:Hl; [|discriminate].
    destruct (SpinnerSystem.alive a) eqn:Ha; [|discriminate].
    destruct (SpinnerSystem.closed cs (SpinnerSystem.a_done a)); [|discriminate].
    cbn [andb] in Hstep. injection Hstep as <-. open_inv Hinv. unfold Spinner_inv.
    cbn [SpinnerSystem.sp SpinnerSystem.stopping SpinnerSystem.anims
         SpinnerSystem.chans].
    split; [exact I1|]. split; [exact I2|].
    intros j a' Hl' Ha'. exfalso.
    apply list_lookup_insert_Some in Hl'.
    destruct Hl' as [[_ [E _]]|[Hne Hl']].
    + subst a'. discriminate.
    + destruct (I3 i a Hl Ha) as [_ [_ [_ [_ [_ H6]]]]].
      apply Hne. symmetry. exact (H6 j a' Hl' Ha').
Qed.

Lemma Spinner_inv_run (ls : list SpinnerSystem.label) :
  forall s s', Spinner_inv s -> SpinnerSystem.run ls s = Some s' -> Spinner_inv s'.
Proof.
  induction ls as [|l ls IH]; intros s s' Hi Hrun; cbn in Hrun.
  - injection Hrun as <-. exact Hi.
  - destruct (SpinnerSystem.step l s) as [s1|] eqn:Hstep; [|discriminate].
    apply (IH s1); [exact (Spinner_inv_step l s s1 Hi Hstep)|exact Hrun].
Qed.

(** With the spinner not running no goroutine is alive: none can tick, none
    is left to return. *)
Lemma Spinner_not_running_quiet (s : SpinnerSystem.sys) :
  Spinner_inv s -> Spinner.running (SpinnerSystem.sp s) = false ->
  (forall i a, SpinnerSystem.anims s !! i = Some a -> SpinnerSystem.alive a = false)
  /\ (forall i, SpinnerSystem.step (SpinnerSystem.Tick i) s = None)
  /\ (forall i, SpinnerSystem.step (SpinnerSystem.Exit i) s = None).
Proof.
  intros [_ [_ I3]] Hr.
  assert (Hdead : forall i a, SpinnerSystem.anims s !! i = Some a ->
                              SpinnerSystem.alive a = false).
  { intros i a Hl. destruct (SpinnerSystem.alive a) eqn:Ha; [|reflexivity].
    destruct (I3 i a Hl Ha) as [Hrun _]. congruence. }
  split; [exact Hdead|].
  split; intros i; unfold SpinnerSystem.step;
    destruct (SpinnerSystem.anims s !! i) as [a|] eqn:Hl; try reflexivity;
    rewrite (Hdead i a Hl); reflexivity.
Qed.

(** The spinner's [Stop] joins: in every run from a fresh spinner, when
    [Stop] returns the goroutine has returned, and nothing can be drawn
    until the next [Start]. *)
Lemma Spinner_Stop_joins (s0 : Spinner.Spinner) (ls : list SpinnerSystem.label)
    (s s' : SpinnerSystem.sys) :
  Spinner.running s0 = false ->
  SpinnerSystem.run ls (SpinnerSystem.init s0) = Some s ->
  SpinnerSystem.step SpinnerSystem.StopLeave s = Some s' ->
  (forall i a, SpinnerSystem.anims s' !! i = Some a -> SpinnerSystem.alive a = false)
  /\ (forall i, SpinnerSystem.step (SpinnerSystem.Tick i) s' = None)
  /\ (forall i, SpinnerSystem.step (SpinnerSystem.Exit i) s' = None).
Proof.
  intros Hr Hrun Hleave.
  apply Spinner_not_running_quiet.
  - apply (Spinner_inv_step SpinnerSystem.StopLeave s s'); [|exact Hleave].
    apply (Spinner_inv_run ls (SpinnerSystem.init s0)); [|exact Hrun].
    apply Spinner_inv_init. exact Hr.
  - apply (Spinner_StopLeave s s' Hleave).
Qed.

(** ** [RunWithTimeout] *)



Section Timeout.
Import RunWithTimeout.
Variable fn : error.
Variable timeout : Z.





End Timeout.


(** * Further properties of the code *)

(** ** Products that are integers

    A shift to the right of a multiple of the power of two loses nothing:
    where [float64(w) * p] is an integer below 2^53, the rounding returns
    it. *)

Lemma shr_1_even (k : Z) : 0 <= k ->
  shr_1 (Build_shr_record (2 * k) false false) = Build_shr_record k false false.
Proof. intros Hk. destruct k as [|p|p]; [reflexivity|reflexivity|lia]. Qed.

Lemma iter_shr_1_exact (n : positive) : forall k, 0 <= k ->
  SpecFloat.iter_pos shr_1 n (Build_shr_record (2 ^ Z.pos n * k) false false)
  = Build_shr_record k false false.
Proof.
  induction n as [n IH|n IH|]; intros k Hk; cbn [SpecFloat.iter_pos].
  - change (Z.pos n~1) with (2 * Z.pos n + 1).
    replace (2 ^ (2 * Z.pos n + 1) * k) with (2 * (2 ^ Z.pos n * (2 ^ Z.pos n * k))).
    + assert (0 <= 2 ^ Z.pos n * k) by (apply Z.mul_nonneg_nonneg; [apply Z.pow_nonneg; lia|lia]).
      rewrite shr_1_even by (apply Z.mul_nonneg_nonneg; [apply Z.pow_nonneg; lia|lia]).
      rewrite IH by lia. apply IH. lia.
    + replace (2 * Z.pos n + 1) with (1 + Z.pos n + Z.pos n) by lia.
      rewrite !Z.pow_add_r by lia. change (2 ^ 1) with 2. ring.
  - change (Z.pos n~0) with (2 * Z.pos n).
    replace (2 ^ (2 * Z.pos n) * k) with (2 ^ Z.pos n * (2 ^ Z.pos n * k)).
    + assert (0 <= 2 ^ Z.pos n * k) by (apply Z.mul_nonneg_nonneg; [apply Z.pow_nonneg; lia|lia]).
      rewrite IH by lia. apply IH. lia.
    + replace (2 * Z.pos n) with (Z.pos n + Z.pos n) by lia.
      rewrite !Z.pow_add_r by lia. ring.
  - change (2 ^ 1) with 2. apply shr_1_even. exact Hk.
Qed.

(** A shift that drops only zeros is exact. *)
Lemma shr_fexp_exact (k e n : Z) : 0 <= k -> 0 < n ->
  fexp prec emax (Zdigits2 (2 ^ n * k) + e) - e = n ->
  shr_fexp prec emax (2 ^ n * k) e loc_Exact = (Build_shr_record k false false, e + n).
Proof.
  intros Hk Hn Hf. unfold shr_fexp. rewrite Hf. unfold shr.
  destruct n as [|p|p]; try lia.
  cbn [shr_record_of_loc]. rewrite iter_shr_1_exact by exact Hk. reflexivity.
Qed.

Lemma digits_lt (m k : Z) : 0 <= m -> 0 <= k -> m < 2 ^ k -> Zdigits2 m <= k.
Proof.
  intros Hm Hk Hlt. destruct m as [|q|q]; cbn [Zdigits2]; try lia.
  pose proof (digits2_pos_lower q) as Hl.
  destruct (Z_lt_le_dec k (Z.pos (digits2_pos q))) as [Hgt|]; [|lia].
  exfalso.
  assert (2 ^ k <= 2 ^ (Z.pos (digits2_pos q) - 1)) by (apply Z.pow_le_mono_r; lia).
  lia.
Qed.

(** One shift of an integer multiple of a power of two, below 2^53, loses
    nothing. *)
Lemma shr_fexp_multiple (K e : Z) : e <= 0 -> 0 < K < 2 ^ 53 ->
  exists e', shr_fexp prec emax (K * 2 ^ (- e)) e loc_Exact
             = (Build_shr_record (K * 2 ^ (- e')) false false, e')
             /\ e <= e' <= 0.
Proof.
  intros He HK.
  assert (Hpow : forall x, 0 <= x -> 0 < 2 ^ x) by (intros; apply Z.pow_pos_nonneg; lia).
  assert (HD : Zdigits2 (K * 2 ^ (- e)) <= 53 - e).
  { pose proof (Hpow (- e) ltac:(lia)) as Hp.
    apply digits_lt; [apply Z.mul_nonneg_nonneg; lia|lia|].
    replace (53 - e) with (53 + - e) by lia. rewrite Z.pow_add_r by lia.
    apply (proj1 (Z.mul_lt_mono_pos_r (2 ^ (- e)) K (2 ^ 53) Hp)). lia. }
  destruct (Z_le_gt_dec (fexp prec emax (Zdigits2 (K * 2 ^ (- e)) + e) - e) 0) as [Hn|Hn].
  - exists e. split; [|lia]. unfold shr_fexp, shr.
    destruct (fexp prec emax (Zdigits2 (K * 2 ^ (- e)) + e) - e); try reflexivity; lia.
  - set (n := fexp prec emax (Zdigits2 (K * 2 ^ (- e)) + e) - e) in *.
    assert (Hn0 : e + n <= 0) by (subst n; rewrite fexp_eq; lia).
    exists (e + n). split; [|lia].
    assert (E : K * 2 ^ (- e) = 2 ^ n * (K * 2 ^ (- (e + n)))).
    { replace (- e) with (n + - (e + n)) at 1 by lia.
      rewrite Z.pow_add_r by lia. ring. }
    assert (Hf : fexp prec emax (Zdigits2 (2 ^ n * (K * 2 ^ (- (e + n)))) + e) - e = n).
    { rewrite <- E. reflexivity. }
    rewrite E at 1. apply shr_fexp_exact; [|lia|exact Hf].
    apply Z.mul_nonneg_nonneg; [lia|]. specialize (Hpow (- (e + n))). lia.
Qed.

(** The product that is an integer is not rounded: its integer part is that
    integer. *)
Lemma binary_round_aux_exact (M : positive) (E K : Z) :
  E <= 0 -> 0 < K < 2 ^ 53 -> Z.pos M = K * 2 ^ (- E) ->
  trunc_spec (binary_round_aux prec emax false (Z.pos M) E loc_Exact) = Some K.
Proof.
  intros HE HK HM.
  assert (Hpow : forall x, 0 <= x -> 0 < 2 ^ x) by (intros; apply Z.pow_pos_nonneg; lia).
  unfold binary_round_aux. rewrite HM.
  destruct (shr_fexp_multiple K E HE HK) as [e1 [S1 He1]]. rewrite S1.
  cbn [shr_m loc_of_shr_record round_nearest_even].
  destruct (shr_fexp_multiple K e1 ltac:(lia) HK) as [e2 [S2 He2]]. rewrite S2.
  cbn [shr_m].
  assert (Hpos : 0 < K * 2 ^ (- e2)) by (apply Z.mul_pos_pos; [lia|apply Hpow; lia]).
  destruct (K * 2 ^ (- e2)) as [|q|q] eqn:Eq; try lia.
  replace (e2 <=? emax - prec) with true
    by (symmetry; apply Z.leb_le; change (emax - prec) with 971; lia).
  cbn [trunc_spec]. f_equal.
  destruct (0 <=? e2) eqn:Hz.
  - apply Z.leb_le in Hz. assert (e2 = 0) by lia. subst e2.
    change (2 ^ (- 0)) with 1 in Eq. change (2 ^ 0) with 1. lia.
  - rewrite <- Eq. apply Z.div_mul. specialize (Hpow (- e2)). lia.
Qed.

(** Up to the bound: a product that is at most the integer [K] has an
    integer part of at most [K]. *)
Lemma binary_round_aux_le (M : positive) (E K : Z) :
  E <= 0 -> 0 < K <= 2 ^ 52 -> Z.pos M <= K * 2 ^ (- E) ->
  exists n, trunc_spec (binary_round_aux prec emax false (Z.pos M) E loc_Exact) = Some n
            /\ 0 <= n <= K.
Proof.
  intros HE HK HM.
  destruct (Z_lt_le_dec (Z.pos M) (K * 2 ^ (- E))) as [Hlt|Hge].
  - exact (binary_round_aux_bounded M E K HE HK Hlt).
  - exists K. split; [|lia]. apply binary_round_aux_exact; lia.
Qed.

(** ** [float64(n)] for an integer below 2^53 is exact *)

Lemma Pos_iter_xO_val (p k : positive) :
  Z.pos (Pos.iter xO p k) = Z.pos p * 2 ^ Z.pos k.
Proof.
  induction k as [|k IH] using Pos.peano_ind.
  - cbn [Pos.iter]. change (Z.pos p~0) with (2 * Z.pos p). change (2 ^ 1) with 2. lia.
  - rewrite Pos.iter_succ.
    change (Z.pos (Pos.iter xO p k)~0) with (2 * Z.pos (Pos.iter xO p k)).
    rewrite IH, Pos2Z.inj_succ, Z.pow_succ_r by lia. ring.
Qed.

Lemma digits2_pos_iter_xO (p k : positive) :
  Z.pos (digits2_pos (Pos.iter xO p k)) = Z.pos (digits2_pos p) + Z.pos k.
Proof.
  induction k as [|k IH] using Pos.peano_ind.
  - cbn [Pos.iter digits2_pos]. lia.
  - rewrite Pos.iter_succ. cbn [digits2_pos]. rewrite Pos2Z.inj_succ, IH. lia.
Qed.

(** A mantissa of 53 digits goes through the rounding unchanged. *)
Lemma binary_round_aux_canonical (m : positive) (e : Z) :
  Z.pos (digits2_pos m) = 53 -> -1074 <= e <= 971 ->
  binary_round_aux prec emax false (Z.pos m) e loc_Exact = S754_finite false m e.
Proof.
  intros Hd He.
  assert (Hs : shr_fexp prec emax (Z.pos m) e loc_Exact
               = (Build_shr_record (Z.pos m) false false, e)).
  { unfold shr_fexp. cbn [Zdigits2]. rewrite Hd, fexp_eq.
    replace (Z.max (53 + e - 53) (-1074) - e) with 0 by lia. reflexivity. }
  unfold binary_round_aux. rewrite Hs.
  cbn [shr_m loc_of_shr_record round_nearest_even]. rewrite Hs. cbn [shr_m].
  replace (e <=? emax - prec) with true
    by (symmetry; apply Z.leb_le; change (emax - prec) with 971; lia).
  reflexivity.
Qed.

Lemma float64_of_int_canonical (w : Z) :
  0 < w < 2 ^ 53 ->
  exists m e, Prim2SF (float64_of_int w) = S754_finite false m e
              /\ Z.pos (digits2_pos m) = 53
              /\ -52 <= e <= 0 /\ Z.pos m = w * 2 ^ (- e).
Proof.
  intros Hw. destruct w as [|p|p]; try lia.
  pose proof (digits2_pos_lower p) as Hl.
  pose proof (digits2_pos_upper p) as Hu.
  assert (Hd : Z.pos (digits2_pos p) <= 53).
  { destruct (Z_lt_le_dec 53 (Z.pos (digits2_pos p))) as [Hgt|]; [|lia].
    exfalso.
    assert (2 ^ 53 <= 2 ^ (Z.pos (digits2_pos p) - 1)) by (apply Z.pow_le_mono_r; lia).
    lia. }
  assert (Hn : exists m e, binary_normalize prec emax (Z.pos p) 0 false
                           = S754_finite false m e
                           /\ Z.pos (digits2_pos m) = 53
                           /\ -52 <= e <= 0 /\ Z.pos m = Z.pos p * 2 ^ (- e)).
  { cbn [binary_normalize]. unfold binary_round, shl_align.
    rewrite fexp_eq.
    replace (Z.max (Z.pos (digits2_pos p) + 0 - 53) (-1074) - 0)
      with (Z.pos (digits2_pos p) - 53) by lia.
    replace (Z.max (Z.pos (digits2_pos p) + 0 - 53) (-1074))
      with (Z.pos (digits2_pos p) - 53) by lia.
    destruct (Z.pos (digits2_pos p) - 53) as [|k|k] eqn:Ek; try lia.
    - exists p, 0. split; [apply binary_round_aux_canonical; lia|].
      split; [lia|]. split; [lia|]. change (2 ^ (- 0)) with 1. lia.
    - exists (Pos.iter xO p k), (Z.neg k).
      assert (Hdk : Z.pos (digits2_pos (Pos.iter xO p k)) = 53)
        by (rewrite digits2_pos_iter_xO; lia).
      split; [apply binary_round_aux_canonical; lia|].
      split; [exact Hdk|]. split; [lia|].
      rewrite Pos_iter_xO_val. reflexivity. }
  destruct Hn as [m [e [En [Hdm [He Hm]]]]].
  exists m, e. split; [|split; [exact Hdm|split; assumption]].
  unfold float64_of_int. rewrite En.
  apply Prim2SF_SF2Prim.
  cbn [valid_binary]. unfold bounded, canonical_mantissa.
  rewrite Hdm, fexp_eq. apply andb_true_intro. split.
  - apply Z.eqb_eq. lia.
  - apply Z.leb_le. change (emax - prec) with 971. lia.
Qed.

Lemma float64_of_int_spec (w : Z) :
  0 < w < 2 ^ 53 ->
  exists m e, Prim2SF (float64_of_int w) = S754_finite false m e
              /\ -52 <= e <= 0 /\ Z.pos m = w * 2 ^ (- e).
Proof.
  intros Hw. destruct (float64_of_int_canonical w Hw) as [m [e [E [_ H]]]].
  exists m, e. split; [exact E|exact H].
Qed.

(** A float in (0, 1]: its mantissa and exponent. *)
Lemma unit_float_mantissa (c : float) (m : positive) (e : Z) :
  Prim2SF c = S754_finite false m e -> PrimFloat.leb c one = true ->
  e <= -52 /\ Z.pos m <= 2 ^ (- e).
Proof.
  intros Ec L1. pose proof (Prim2SF_valid c) as Hv. rewrite Ec in Hv.
  to_spec. rewrite Ec in L1. sf.
  cbn [valid_binary] in Hv. apply bounded_mantissa in Hv. destruct Hv as [Hd Hc].
  pose proof (digits2_pos_upper m) as Hu.
  pose proof (digits2_pos_lower m) as Hl.
  assert (Hm53 : Z.pos m < 2 ^ 53).
  { assert (2 ^ Z.pos (digits2_pos m) <= 2 ^ 53)
      by (apply Z.pow_le_mono_r; clear - Hd; lia).
    clear - H Hu. lia. }
  destruct (e ?= -52) eqn:Ee; try discriminate.
  - apply Z.compare_eq in Ee. subst e. split; [lia|].
    assert (Hle : (m <= 4503599627370496)%positive).
    { unfold Pos.le, Pos.compare.
      destruct (Pos.compare_cont Eq m 4503599627370496); discriminate. }
    apply Pos2Z.pos_le_pos in Hle. exact Hle.
  - rewrite Z.compare_lt_iff in Ee. split; [clear - Ee; lia|].
    assert (2 ^ 53 <= 2 ^ (- e)) by (apply Z.pow_le_mono_r; clear - Ee; lia).
    clear - H Hm53. lia.
Qed.

(** [clamp p] is the float 0 or a positive float that is at most 1. *)
Lemma clamp_unit (p : float) :
  IsNaN p = false ->
  Progress.clamp p = zero
  \/ exists m e, Prim2SF (Progress.clamp p) = S754_finite false m e
                 /\ e <= -52 /\ Z.pos m <= 2 ^ (- e).
Proof.
  intros Hnan.
  destruct (clamp_cases p Hnan) as [[E _]|[[E _]|[E [L0 [_ L1]]]]].
  - left. exact E.
  - right. rewrite E. exists 4503599627370496%positive, (-52).
    split; [reflexivity|]. split; [lia|]. reflexivity.
  - right. rewrite E. to_spec.
    destruct (Prim2SF p) as [[|]|[|]| |[|] m e] eqn:Ep; sf; try discriminate.
    exists m, e. split; [reflexivity|].
    apply (unit_float_mantissa p m e Ep). to_spec. rewrite Ep. exact L1.
Qed.


Lemma in_int64_small (n K : Z) : 0 <= n <= K -> K < 2 ^ 53 -> in_int64 n = true.
Proof.
  intros Hn HK. unfold in_int64. apply andb_true_intro.
  change (2 ^ 53) with 9007199254740992 in HK.
  split; apply Z.leb_le; change (2 ^ 63) with 9223372036854775808; lia.
Qed.

(** The integer part of the product of an integer [w] and a float of
    [0, 1] lies between 0 and [w]. *)
Lemma int_mul_unit_bounded {P : Platform} (w : Z) (p : float) :
  0 < w <= 2 ^ 52 -> IsNaN p = false ->
  0 <= int_of_float64 (float64_of_int w * clamp p) <= w
  /\ int_of_float64 (clamp p * float64_of_int w)
     = int_of_float64 (float64_of_int w * clamp p).
Proof.
  intros Hw Hnan.
  assert (Hw53 : 0 < w < 2 ^ 53).
  { change (2 ^ 52) with 4503599627370496 in Hw.
    change (2 ^ 53) with 9007199254740992. lia. }
  destruct (float64_of_int_spec w Hw53) as [mz [ez [Ez [Hez Hmz]]]].
  unfold int_of_float64. rewrite !mul_spec, Ez.
  destruct (clamp_unit p Hnan) as [E|[m [e [Ec [He Hm]]]]].
  - rewrite E. change (Prim2SF zero) with (S754_zero false).
    cbn [SF64mul SFmul xorb trunc_spec]. change (in_int64 0) with true.
    cbv iota. clear - Hw. lia.
  - rewrite Ec. unfold SF64mul, SFmul. cbn [xorb].
    rewrite (Pos.mul_comm m mz), (Z.add_comm e ez).
    assert (Hle : Z.pos (mz * m) <= w * 2 ^ (- (ez + e))).
    { rewrite Pos2Z.inj_mul, Hmz.
      replace (- (ez + e)) with (- ez + - e) by lia.
      rewrite Z.pow_add_r by lia.
      assert (0 < 2 ^ (- ez)) by (apply Z.pow_pos_nonneg; lia).
      assert (0 <= w * 2 ^ (- ez)) by (apply Z.mul_nonneg_nonneg; lia).
      rewrite <- Z.mul_assoc.
      apply Z.mul_le_mono_nonneg_l; [lia|].
      apply Z.mul_le_mono_nonneg_l; [lia|]. exact Hm. }
    destruct (binary_round_aux_le (mz * m) (ez + e) w ltac:(lia) Hw Hle)
      as [n [Hn Hb]].
    rewrite Hn, (in_int64_small n w Hb ltac:(lia)). split; [exact Hb|reflexivity].
Qed.

(** At progress 1 the product is the integer itself; at progress 0 it is 0. *)
Lemma int_mul_one {P : Platform} (w : Z) :
  0 < w < 2 ^ 53 -> int_of_float64 (float64_of_int w * one) = w.
Proof.
  intros Hw.
  destruct (float64_of_int_spec w Hw) as [mz [ez [Ez [Hez Hmz]]]].
  unfold int_of_float64. rewrite mul_spec, Ez.
  change (Prim2SF one) with (S754_finite false 4503599627370496 (-52)).
  unfold SF64mul, SFmul. cbn [xorb].
  rewrite (binary_round_aux_exact (mz * 4503599627370496) (ez + -52) w).
  - rewrite (in_int64_small w w); [reflexivity|lia|lia].
  - lia.
  - exact Hw.
  - rewrite Pos2Z.inj_mul, Hmz.
    replace (- (ez + -52)) with (- ez + 52) by lia.
    rewrite Z.pow_add_r by lia. change (2 ^ 52) with 4503599627370496. ring.
Qed.

Lemma int_mul_zero {P : Platform} (w : Z) :
  0 < w < 2 ^ 53 -> int_of_float64 (float64_of_int w * zero) = 0.
Proof.
  intros Hw.
  destruct (float64_of_int_spec w Hw) as [mz [ez [Ez [Hez Hmz]]]].
  unfold int_of_float64. rewrite mul_spec, Ez. reflexivity.
Qed.

(** ** The line [SetProgress] draws, at any width *)

Lemma append_empty_r (s : string) : String.append s EmptyString = s.
Proof.
  induction s as [|a s IH]; [reflexivity|].
  change (String a (String.append s EmptyString) = String a s). rewrite IH. reflexivity.
Qed.

Lemma track_shape {P : Platform} (b : Bar) (c : float) :
  0 <= filledCount b c <= totalWidth b -> totalWidth b < 2 ^ 62 ->
  track b c =
    String.append
      (repeat_string (FilledChar (config b)) (Z.to_nat (filledCount b c)))
      (repeat_string (EmptyChar (config b)) (Z.to_nat (totalWidth b - filledCount b c))).
Proof.
  intros Hn Hw. unfold track, write_times.
  set (n := filledCount b c) in *. clearbody n.
  rewrite wrap64_small; [reflexivity|].
  change (2 ^ 62) with 4611686018427387904 in Hw.
  change (2 ^ 63) with 9223372036854775808. lia.
Qed.

Lemma filledCount_bounded {P : Platform} (b : Bar) (p : float) :
  1 <= totalWidth b <= 2 ^ 52 -> IsNaN p = false ->
  0 <= filledCount b (clamp p) <= totalWidth b.
Proof.
  intros Hw Hnan. unfold filledCount.
  apply (int_mul_unit_bounded (totalWidth b) p); [lia|exact Hnan].
Qed.

Lemma percentage_bounded {P : Platform} (p : float) :
  IsNaN p = false ->
  0 <= int_of_float64 (clamp p * float64_of_int 100) <= 100.
Proof.
  intros Hnan.
  destruct (int_mul_unit_bounded 100 p) as [Hb He]; [|exact Hnan|].
  - change (2 ^ 52) with 4503599627370496. lia.
  - rewrite He. exact Hb.
Qed.

Lemma fmt_3d_length (n : Z) : 0 <= n <= 999 -> String.length (fmt_3d n) = 3%nat.
Proof.
  intros Hn.
  assert (Hall : forallb (fun k => Nat.eqb (String.length (fmt_3d (Z.of_nat k))) 3)
                   (seq 0 1000) = true) by (vm_compute; reflexivity).
  rewrite forallb_forall in Hall.
  specialize (Hall (Z.to_nat n)). rewrite Z2Nat.id in Hall by lia.
  apply Nat.eqb_eq, Hall, in_seq. lia.
Qed.

(** X1: a running bar of any width from 1 to 2^52, given a number [p], draws
    a track of [n] filled cells followed by [totalWidth - n] empty ones,
    where [n = int(float64(totalWidth) * clamp p)] lies between 0 and
    [totalWidth]: the track never overflows its width, and with one-byte
    cell strings it is exactly [totalWidth] bytes long. *)
Theorem SetProgress_track_any_width {P : Platform} (b : Bar) (now : Z) (p : float) :
  started b = true -> stopped b = false -> IsNaN p = false ->
  1 <= totalWidth b <= 2 ^ 52 ->
  let n := filledCount b (clamp p) in
  0 <= n <= totalWidth b
  /\ snd (SetProgress now p b) =
       [String.append CR
          (String.append
             (String.append (repeat_string (FilledChar (config b)) (Z.to_nat n))
                (repeat_string (EmptyChar (config b)) (Z.to_nat (totalWidth b - n))))
             (String.append (percent_suffix b (clamp p)) (eta_suffix now b (clamp p))))]
  /\ (String.length (FilledChar (config b)) = 1%nat ->
      String.length (EmptyChar (config b)) = 1%nat ->
      String.length (track b (clamp p)) = Z.to_nat (totalWidth b)).
Proof.
  intros Hs Ht Hnan Hw. cbv zeta.
  pose proof (filledCount_bounded b p Hw Hnan) as Hn.
  assert (Hw62 : totalWidth b < 2 ^ 62).
  { change (2 ^ 52) with 4503599627370496 in Hw.
    change (2 ^ 62) with 4611686018427387904. lia. }
  pose proof (track_shape b (clamp p) Hn Hw62) as Htr.
  split; [exact Hn|]. split.
  - rewrite (SetProgress_running b now p Hs Ht), Htr. reflexivity.
  - intros Hf He. rewrite Htr, length_append, !length_repeat_string, Hf, He.
    set (n := filledCount b (clamp p)) in *. clearbody n. clear - Hn. lia.
Qed.

Lemma SetProgress_track_any_width_witness :
  exists b chunk,
    Start 0 (NewBarWithConfig None (mkBarConfig 37 "=" "." false false) [])
    = Some (b, [chunk])
    /\ 0 <= @filledCount amd64 b (clamp 0.375) <= 37
    /\ String.length (@track amd64 b (clamp 0.375)) = 37%nat.
Proof.
  eexists. eexists. split; [reflexivity|].
  match goal with |- 0 <= @filledCount _ ?b _ <= _ /\ _ =>
    destruct (@SetProgress_track_any_width amd64 b 0 0.375%float
                eq_refl eq_refl eq_refl)
      as [Hn [_ Hl]]
  end.
  - vm_compute. split; discriminate.
  - split; [exact Hn|]. exact (Hl eq_refl eq_refl).
Defined.

(** A progress of at least 1 is clamped to 1. *)
Lemma clamp_ge_one (p : float) : PrimFloat.leb one p = true -> clamp p = one.
Proof.
  intros L.
  assert (Hnan : IsNaN p = false).
  { unfold IsNaN. to_spec.
    destruct (Prim2SF p) as [[|]|[|]| |[|] m e]; sf; try discriminate; try reflexivity.
    rewrite Z.compare_refl, Pos.compare_cont_refl. reflexivity. }
  destruct (clamp_cases p Hnan) as [[E L0]|[[E _]|[E [_ [_ L1]]]]].
  - exfalso. to_spec.
    destruct (Prim2SF p) as [[|]|[|]| |[|] m e]; sf; discriminate.
  - exact E.
  - rewrite E. apply Prim2SF_inj. to_spec.
    destruct (Prim2SF p) as [[|]|[|]| |[|] m e]; sf; try discriminate.
    rewrite (Z.compare_antisym e (-52)) in L.
    destruct (e ?= -52) eqn:Ee; sf; try discriminate.
    apply Z.compare_eq in Ee. subst e.
    rewrite <- (Pos.compare_cont_antisym _ _ Eq) in L.
    destruct (Pos.compare_cont Eq m 4503599627370496) eqn:Em; sf; try discriminate.
    apply Pcompare_Eq_eq in Em. subst m. reflexivity.
Qed.

Lemma int_hundred_one {P : Platform} : int_of_float64 (one * float64_of_int 100) = 100.
Proof. vm_compute. reflexivity. Qed.

Lemma int_hundred_zero {P : Platform} : int_of_float64 (zero * float64_of_int 100) = 0.
Proof. vm_compute. reflexivity. Qed.

(** X2: on a running bar of width [w], a progress of 1 or more (also +Inf)
    draws [w] filled cells and no empty one, with " 100%"; a progress of 0 or
    less (also -Inf and -0) draws [w] empty cells, "   0%" and the ETA
    placeholder "--:--". *)
Theorem SetProgress_full_and_empty {P : Platform} (b : Bar) (now : Z) (p : float) :
  started b = true -> stopped b = false -> 1 <= totalWidth b <= 2 ^ 52 ->
  (PrimFloat.leb one p = true ->
   snd (SetProgress now p b) =
     [String.append CR
        (String.append
           (repeat_string (FilledChar (config b)) (Z.to_nat (totalWidth b)))
           (String.append (if ShowPercent (config b) then " 100%" else "")
                          (eta_suffix now b one)))])
  /\ (PrimFloat.leb p zero = true ->
      snd (SetProgress now p b) =
        [String.append CR
           (String.append
              (repeat_string (EmptyChar (config b)) (Z.to_nat (totalWidth b)))
              (String.append (if ShowPercent (config b) then "   0%" else "")
                             (if ShowETA (config b) then " ETA: --:--" else "")))]).
Proof.
  intros Hs Ht Hw.
  assert (Hw53 : 0 < totalWidth b < 2 ^ 53).
  { change (2 ^ 52) with 4503599627370496 in Hw.
    change (2 ^ 53) with 9007199254740992. lia. }
  assert (Hw62 : totalWidth b < 2 ^ 62).
  { change (2 ^ 52) with 4503599627370496 in Hw.
    change (2 ^ 62) with 4611686018427387904. lia. }
  split; intros L; rewrite (SetProgress_running b now p Hs Ht).
  - rewrite (clamp_ge_one p L).
    assert (Hn : filledCount b one = totalWidth b) by (apply int_mul_one; exact Hw53).
    rewrite (track_shape b one); [|rewrite Hn; lia|exact Hw62].
    rewrite Hn, Z.sub_diag. cbn [Z.to_nat repeat_string]. rewrite append_empty_r.
    unfold percent_suffix.
    pose proof (@int_hundred_one P) as H1.
    set (z := int_of_float64 (one * float64_of_int 100)) in *. clearbody z. subst z.
    destruct (ShowPercent (config b)); reflexivity.
  - assert (Hnan : IsNaN p = false).
    { unfold IsNaN. to_spec.
      destruct (Prim2SF p) as [[|]|[|]| |[|] m e]; sf; try discriminate; try reflexivity.
      rewrite Z.compare_refl, Pos.compare_cont_refl. reflexivity. }
    destruct (clamp_max_min p Hnan) as [_ [_ [E _]]]. rewrite (E L).
    assert (Hn : filledCount b zero = 0) by (apply int_mul_zero; exact Hw53).
    rewrite (track_shape b zero); [|rewrite Hn; lia|exact Hw62].
    rewrite Hn, Z.sub_0_r. cbn [Z.to_nat repeat_string String.append].
    unfold percent_suffix, eta_suffix, calculateETA.
    change (PrimFloat.leb zero zero) with true. cbv iota.
    pose proof (@int_hundred_zero P) as H0.
    set (z := int_of_float64 (zero * float64_of_int 100)) in *. clearbody z. subst z.
    destruct (ShowPercent (config b)), (ShowETA (config b)); reflexivity.
Qed.

Lemma SetProgress_full_and_empty_witness :
  exists b chunk,
    Start 0 (NewBarWithConfig None (mkBarConfig 12 "=" "." true true) [])
    = Some (b, [chunk])
    /\ snd (@SetProgress amd64 0 infinity b)
       = [String.append CR "============ 100% ETA: 00:00"]
    /\ snd (@SetProgress amd64 0 (-0.25)%float b)
       = [String.append CR "............   0% ETA: --:--"].
Proof.
  eexists. eexists. split; [reflexivity|].
  match goal with |- snd (@SetProgress _ _ _ ?b) = _ /\ _ =>
    pose proof (@SetProgress_full_and_empty amd64 b 0 infinity eq_refl eq_refl) as H1;
    pose proof (@SetProgress_full_and_empty amd64 b 0 (-0.25)%float eq_refl eq_refl) as H2
  end.
  split.
  - refine (eq_trans (proj1 (H1 _) eq_refl) _); [vm_compute; split; discriminate|].
    vm_compute. reflexivity.
  - refine (eq_trans (proj2 (H2 _) eq_refl) _); [vm_compute; split; discriminate|].
    vm_compute. reflexivity.
Defined.

Lemma percent_suffix_length {P : Platform} (b : Bar) (p : float) :
  IsNaN p = false ->
  String.length (percent_suffix b (clamp p))
  = (if ShowPercent (config b) then 5%nat else 0%nat).
Proof.
  intros Hnan. pose proof (percentage_bounded p Hnan) as Hb.
  unfold percent_suffix. destruct (ShowPercent (config b)); [|reflexivity].
  set (n := int_of_float64 _) in *. clearbody n.
  change (S (String.length (String.append (fmt_3d n) "%")) = 5%nat).
  rewrite length_append, fmt_3d_length by lia. reflexivity.
Qed.

(** X3: for every number [p] the percentage [int(clamp p * 100)] lies
    between 0 and 100, so the suffix [" %3d%%"] is exactly the 5 bytes that
    [calculateWidth] and [clearLine] reserve for it. *)
Theorem percent_suffix_five_bytes {P : Platform} (b : Bar) (p : float) :
  IsNaN p = false ->
  0 <= int_of_float64 (clamp p * float64_of_int 100) <= 100
  /\ String.length (percent_suffix b (clamp p))
     = (if ShowPercent (config b) then 5%nat else 0%nat).
Proof.
  intros Hnan. split; [exact (percentage_bounded p Hnan)|].
  exact (percent_suffix_length b p Hnan).
Qed.

Lemma percent_suffix_five_bytes_witness :
  0 <= @int_of_float64 amd64 (clamp 0.625 * float64_of_int 100) <= 100
  /\ @percent_suffix amd64 (NewBarWithConfig None StyleDefault []) (clamp 0.625)
     = "  62%"%string.
Proof.
  split.
  - exact (proj1 (@percent_suffix_five_bytes amd64
                    (NewBarWithConfig None StyleDefault []) 0.625%float eq_refl)).
  - vm_compute. reflexivity.
Defined.

(** ** [clearLine] against the line drawn *)

Lemma clearLine_chunk (b : Bar) :
  0 <= totalWidth b < 2 ^ 62 ->
  clearLine b =
    Some (String.append CR
            (repeat_string " "
               (Z.to_nat (totalWidth b + (if ShowPercent (config b) then 5 else 0)
                          + (if ShowETA (config b) then 12 else 0) + 5)))).
Proof.
  intros Hw. change (2 ^ 62) with 4611686018427387904 in Hw.
  assert (W : forall z, 0 <= z < 4611686018427387904 + 30 -> wrap64 z = z).
  { intros z Hz. apply wrap64_small. change (2 ^ 63) with 9223372036854775808. lia. }
  unfold clearLine, Repeat. cbv zeta.
  destruct (ShowPercent (config b)), (ShowETA (config b));
    rewrite ?(W (totalWidth b + 5)) by lia;
    rewrite ?(W (totalWidth b + 12)) by lia;
    rewrite ?(W (totalWidth b + 5 + 12)) by lia;
    rewrite ?(W (totalWidth b + 5 + 5)), ?(W (totalWidth b + 12 + 5)),
            ?(W (totalWidth b + 5 + 12 + 5)) by lia;
    match goal with |- context [?z <? 0] =>
      replace (z <? 0) with false by (symmetry; apply Z.ltb_ge; lia)
    end; do 3 f_equal; lia.
Qed.

(** X4: on a constructed bar [clearLine] cannot panic, and the blanks it
    writes cover the line [SetProgress] draws with 5 bytes to spare: with
    one-byte cells and no ETA, the blank line is exactly 5 bytes longer than
    the line drawn for any number [p]. *)
Theorem clearLine_covers_line {P : Platform} (b : Bar) (now : Z) (p : float) :
  started b = true -> stopped b = false -> IsNaN p = false ->
  1 <= totalWidth b <= 2 ^ 52 -> ShowETA (config b) = false ->
  String.length (FilledChar (config b)) = 1%nat ->
  String.length (EmptyChar (config b)) = 1%nat ->
  exists blank line,
    clearLine b = Some blank
    /\ snd (SetProgress now p b) = [line]
    /\ String.length blank = (String.length line + 5)%nat.
Proof.
  intros Hs Ht Hnan Hw Heta Hf He.
  assert (Hw62 : 0 <= totalWidth b < 2 ^ 62).
  { change (2 ^ 52) with 4503599627370496 in Hw.
    change (2 ^ 62) with 4611686018427387904. lia. }
  eexists. eexists. split; [apply (clearLine_chunk b Hw62)|].
  split; [rewrite (SetProgress_running b now p Hs Ht); reflexivity|].
  pose proof (filledCount_bounded b p Hw Hnan) as Hn.
  rewrite (track_shape b (clamp p) Hn (proj2 Hw62)).
  pose proof (percent_suffix_length b p Hnan) as Hp.
  unfold CR, byte.
  change (String.length (String ?a ?s)) with (S (String.length s)).
  rewrite !length_append, !length_repeat_string, Hf, He, Hp.
  unfold eta_suffix. rewrite Heta. cbn [String.length].
  set (n := filledCount b (clamp p)) in *. clearbody n.
  destruct (ShowPercent (config b)); lia.
Qed.

Lemma clearLine_covers_line_witness :
  exists b chunk,
    Start 0 (NewBarWithConfig None (mkBarConfig 24 "#" "-" true false) [])
    = Some (b, [chunk])
    /\ exists blank line,
         clearLine b = Some blank
         /\ snd (@SetProgress amd64 0 0.5%float b) = [line]
         /\ String.length blank = (String.length line + 5)%nat.
Proof.
  eexists. eexists. split; [reflexivity|].
  apply (@clearLine_covers_line amd64); try reflexivity.
  vm_compute. split; discriminate.
Defined.

(** ** What [NewBarWithConfig] builds *)

Definition sane_size (tsize : option Z) : Prop :=
  forall w, tsize = Some w -> - 2 ^ 62 < w < 2 ^ 62.

Lemma calculateWidth_bounds (tsize : option Z) (b : Bar) :
  Width (config b) < 2 ^ 62 -> sane_size tsize ->
  let b' := calculateWidth tsize b in
  1 <= totalWidth b' < 2 ^ 62
  /\ (Width (config b) <= 0 -> 10 <= totalWidth b')
  /\ (0 < Width (config b) -> totalWidth b' = Width (config b))
  /\ config b' = config b /\ lastProgress b' = lastProgress b
  /\ started b' = started b /\ stopped b' = stopped b /\ startTime b' = startTime b.
Proof.
  intros HW Hs. cbv zeta. unfold calculateWidth.
  change (2 ^ 62) with 4611686018427387904 in *.
  destruct (0 <? Width (config b)) eqn:E.
  - apply Z.ltb_lt in E. cbn. repeat split; try lia.
  - apply Z.ltb_ge in E. destruct tsize as [w|].
    + specialize (Hs w eq_refl).
      assert (Hr : 0 <= reservedSpace (config b) <= 17)
        by (unfold reservedSpace; destruct (ShowPercent (config b)), (ShowETA (config b)); lia).
      rewrite wrap64_small
        by (change (2 ^ 63) with 9223372036854775808; lia).
      set (r := reservedSpace (config b)) in *. clearbody r.
      destruct (w - r - 2 <? 10) eqn:E10.
      * cbn. repeat split; lia.
      * apply Z.ltb_ge in E10. cbn. repeat split; lia.
    + cbn. repeat split; lia.
Qed.

Lemma calculateWidth_frame (tsize : option Z) (b : Bar) :
  config (calculateWidth tsize b) = config b
  /\ lastProgress (calculateWidth tsize b) = lastProgress b
  /\ started (calculateWidth tsize b) = started b
  /\ stopped (calculateWidth tsize b) = stopped b
  /\ startTime (calculateWidth tsize b) = startTime b.
Proof.
  unfold calculateWidth.
  destruct (0 <? Width (config b)); [|destruct tsize]; repeat split.
Qed.

Lemma NewBarWithConfig_shape (tsize : option Z) (cfg : BarConfig) (opts : list Option) :
  exists c, NewBarWithConfig tsize cfg opts
            = calculateWidth tsize (mkBar c 0 zero false false 0)
            /\ FilledChar c <> EmptyString /\ EmptyChar c <> EmptyString.
Proof.
  unfold NewBarWithConfig. cbv zeta.
  set (c0 := fold_left (fun c opt => opt c) opts cfg). clearbody c0.
  destruct (String.eqb (FilledChar c0) "") eqn:Ef;
    destruct (String.eqb (EmptyChar _) "") eqn:Ee;
    eexists; (split; [reflexivity|]); cbn [WithFilledChar WithEmptyChar FilledChar EmptyChar] in *;
    split; try discriminate;
    try (apply String.eqb_neq; assumption).
Qed.

Lemma Start_Stop_chunks (b : Bar) (now : Z) :
  0 <= totalWidth b < 2 ^ 62 -> started b = false ->
  exists b1 c1 b2 c2,
    Start now b = Some (b1, [c1]) /\ started b1 = true /\ stopped b1 = false
    /\ lastProgress b1 = zero /\ totalWidth b1 = totalWidth b /\ config b1 = config b
    /\ Stop b1 = Some (b2, [c2; CR]) /\ started b2 = true /\ stopped b2 = true.
Proof.
  intros Hw Hs. unfold Start. rewrite Hs. cbn [andb].
  set (b1 := set_startTime (set_stopped (set_started b true) false) now).
  assert (Hw1 : 0 <= totalWidth b1 < 2 ^ 62) by exact Hw.
  rewrite (clearLine_chunk b1 Hw1).
  eexists. eexists.
  set (b1' := set_lastProgress b1 zero).
  assert (Hw1' : 0 <= totalWidth b1' < 2 ^ 62) by exact Hw.
  unfold Stop. change (stopped b1') with false. cbv iota.
  rewrite (clearLine_chunk (set_stopped b1' true) Hw1').
  eexists. eexists. repeat split.
Qed.

(** X5: whatever the configuration, the options and the answer of the
    terminal, [NewBarWithConfig] returns an idle bar at progress 0 whose
    track is at least 1 cell wide (at least 10 when the width is detected)
    and whose cell strings are not empty; [Start] and then [Stop] on it
    cannot panic. *)
Theorem NewBarWithConfig_invariants (tsize : option Z) (cfg : BarConfig)
    (opts : list Option) (now : Z) :
  let b := NewBarWithConfig tsize cfg opts in
  Width (config b) < 2 ^ 62 -> sane_size tsize ->
  1 <= totalWidth b < 2 ^ 62
  /\ (Width (config b) <= 0 -> 10 <= totalWidth b)
  /\ FilledChar (config b) <> EmptyString /\ EmptyChar (config b) <> EmptyString
  /\ IsStarted b = false /\ IsStopped b = false /\ GetProgress b = zero
  /\ exists b1 c1 b2 c2,
       Start now b = Some (b1, [c1]) /\ IsStarted b1 = true /\ IsStopped b1 = false
       /\ Stop b1 = Some (b2, [c2; CR]) /\ IsStopped b2 = true.
Proof.
  cbv zeta. destruct (NewBarWithConfig_shape tsize cfg opts) as [c [E [Hf He]]].
  rewrite E. intros HW Hs.
  set (b0 := mkBar c 0 zero false false 0) in *.
  destruct (calculateWidth_frame tsize b0) as [Hc [Hp [Hst [Hsp _]]]].
  rewrite Hc in HW.
  destruct (calculateWidth_bounds tsize b0 HW Hs) as [H1 [H2 _]].
  unfold IsStarted, IsStopped, GetProgress. rewrite Hc, Hp, Hst, Hsp.
  split; [exact H1|]. split; [exact H2|]. split; [exact Hf|]. split; [exact He|].
  split; [reflexivity|]. split; [reflexivity|]. split; [reflexivity|].
  destruct (Start_Stop_chunks (calculateWidth tsize b0) now) as
    [b1 [c1 [b2 [c2 [S1 [S2 [S3 [_ [_ [_ [S4 [_ S5]]]]]]]]]]]].
  - lia.
  - rewrite Hst. reflexivity.
  - exists b1, c1, b2, c2. repeat split; assumption.
Qed.

Lemma NewBarWithConfig_invariants_witness :
  let b := NewBarWithConfig (Some 80) StyleBlocks [WithETA true] in
  totalWidth b = 61
  /\ exists b1 c1 b2 c2,
       Start 5 b = Some (b1, [c1]) /\ IsStarted b1 = true /\ IsStopped b1 = false
       /\ Stop b1 = Some (b2, [c2; CR]) /\ IsStopped b2 = true.
Proof.
  cbv zeta. split; [reflexivity|].
  apply (NewBarWithConfig_invariants (Some 80) StyleBlocks [WithETA true] 5).
  - vm_compute. reflexivity.
  - intros w E. injection E as <-. lia.
Defined.

(** ** NaN and the clamping *)

Lemma IsNaN_nan (p : float) : IsNaN p = true -> p = nan.
Proof.
  unfold IsNaN. intros E. apply Prim2SF_inj. to_spec.
  destruct (Prim2SF p) as [[|]|[|]| |[|] m e]; sf; try discriminate; try reflexivity;
    rewrite Z.compare_refl, Pos.compare_cont_refl in E; discriminate.
Qed.

Lemma clamp_idempotent (p : float) : clamp (clamp p) = clamp p.
Proof.
  destruct (IsNaN p) eqn:Hnan.
  - rewrite (IsNaN_nan p Hnan). reflexivity.
  - destruct (clamp_cases p Hnan) as [[E _]|[[E _]|[E _]]].
    + rewrite E. reflexivity.
    + rewrite E. reflexivity.
    + rewrite E. exact E.
Qed.

(** X6: clamping is idempotent, NaN included: [SetProgress] called again
    with the progress it has just stored (as [handleResize] does with
    [b.lastProgress]) stores and draws exactly what the first call did. *)
Theorem SetProgress_of_stored_progress {P : Platform} (b : Bar) (now : Z) (p : float) :
  SetProgress now (GetProgress (fst (SetProgress now p b))) (fst (SetProgress now p b))
  = SetProgress now p b
  /\ clamp (clamp p) = clamp p.
Proof.
  split; [|apply clamp_idempotent].
  unfold SetProgress.
  destruct (SetProgress_guard b) eqn:G.
  - cbn [fst]. rewrite G. reflexivity.
  - cbn [fst]. unfold SetProgress_store, GetProgress, SetProgress_guard in *.
    cbn [set_lastProgress lastProgress started stopped]. rewrite G.
    rewrite clamp_idempotent. reflexivity.
Qed.

Lemma int_of_nan_product_amd64 (x : float) :
  @int_of_float64 amd64 (x * nan) = - 2 ^ 63
  /\ @int_of_float64 amd64 (nan * x) = - 2 ^ 63.
Proof.
  unfold int_of_float64. rewrite !mul_spec.
  change (Prim2SF nan) with S754_nan.
  destruct (Prim2SF x) as [[|]|[|]| |[|] m e]; split; reflexivity.
Qed.

(** X7: a NaN goes through the clamping, and on amd64, where [int(NaN)] is
    the smallest [int], a running bar then draws no cell at all: the filled
    count is negative and the empty count wraps around to a negative number,
    so both loops write nothing; the percentage reads -9223372036854775808. *)
Theorem SetProgress_NaN_amd64 (b : Bar) (now : Z) (p : float) :
  started b = true -> stopped b = false -> IsNaN p = true ->
  0 <= totalWidth b < 2 ^ 63 ->
  IsNaN (GetProgress (fst (@SetProgress amd64 now p b))) = true
  /\ snd (@SetProgress amd64 now p b) =
       [String.append CR
          (String.append
             (if ShowPercent (config b) then " -9223372036854775808%" else "")
             (@eta_suffix amd64 now b nan))].
Proof.
  intros Hs Ht Hnan Hw. rewrite (IsNaN_nan p Hnan).
  rewrite (SetProgress_running b now nan Hs Ht).
  change (clamp nan) with nan. split; [reflexivity|].
  assert (Htr : @track amd64 b nan = EmptyString).
  { unfold track, filledCount.
    destruct (int_of_nan_product_amd64 (float64_of_int (totalWidth b))) as [E _].
    rewrite E. unfold write_times.
    replace (wrap64 (totalWidth b - - 2 ^ 63)) with (totalWidth b - 2 ^ 63).
    - change (2 ^ 63) with 9223372036854775808 in *.
      replace (Z.to_nat (totalWidth b - 9223372036854775808)) with 0%nat by lia.
      reflexivity.
    - unfold wrap64.
      assert (Hm : (totalWidth b - - 2 ^ 63 + 2 ^ 63) mod 2 ^ 64 = totalWidth b).
      { symmetry. apply (Z.mod_unique _ _ 1).
        - left. change (2 ^ 63) with 9223372036854775808 in Hw.
          change (2 ^ 64) with 18446744073709551616. lia.
        - change (2 ^ 63) with 9223372036854775808.
          change (2 ^ 64) with 18446744073709551616. lia. }
      rewrite Hm. reflexivity. }
  rewrite Htr. unfold percent_suffix.
  destruct (int_of_nan_product_amd64 (float64_of_int 100)) as [_ E]. rewrite E.
  destruct (ShowPercent (config b)); reflexivity.
Qed.

Lemma SetProgress_NaN_amd64_witness :
  exists b chunk,
    Start 0 (NewBarWithConfig (Some 80) StyleDefault []) = Some (b, [chunk])
    /\ snd (@SetProgress amd64 0 (float64_of_int 0 / float64_of_int 0) b)
       = [String.append CR " -9223372036854775808%"].
Proof.
  eexists. eexists. split; [reflexivity|].
  match goal with |- snd (@SetProgress _ _ ?p ?b) = _ =>
    refine (eq_trans (proj2 (SetProgress_NaN_amd64 b 0 p eq_refl eq_refl eq_refl _)) _)
  end.
  - vm_compute. split; [discriminate|reflexivity].
  - vm_compute. reflexivity.
Defined.

(** ** The stored progress under every interleaving *)

(** What [SetProgress] can store: a NaN, or a number of [0, 1]. *)
Definition unit_or_nan (q : float) : Prop :=
  IsNaN q = true \/ (PrimFloat.leb zero q = true /\ PrimFloat.leb q one = true).

Lemma clamp_unit_or_nan (p : float) : unit_or_nan (clamp p).
Proof.
  destruct (IsNaN p) eqn:Hnan.
  - left. rewrite (IsNaN_nan p Hnan). reflexivity.
  - right. destruct (clamp_max_min p Hnan) as [H0 [H1 _]]. split; assumption.
Qed.

Definition pc_ok (c : BarSystem.pc) : Prop :=
  match c with
  | BarSystem.SP_store _ q => unit_or_nan q
  | _ => True
  end.

Definition Bar_inv (s : BarSystem.sys) : Prop :=
  unit_or_nan (lastProgress (BarSystem.bar s)) /\ Forall pc_ok (BarSystem.threads s).

Lemma Bar_inv_step {P : Platform} (l : BarSystem.label) (s s' : BarSystem.sys) :
  Bar_inv s -> BarSystem.step l s = Some s' -> Bar_inv s'.
Proof.
  intros [Hq Hth] Hstep. destruct l as [| |p|t|d|i]; cbn [BarSystem.step] in Hstep.
  - unfold Start in Hstep.
    destruct (started (BarSystem.bar s) && negb (stopped (BarSystem.bar s))) eqn:G.
    + injection Hstep as <-. split; assumption.
    + destruct (clearLine _) as [chunk|]; [|discriminate].
      destruct (watches_resize _); injection Hstep as <-; split;
        cbn [BarSystem.bar BarSystem.threads]; try (right; split; reflexivity);
        try assumption.
      apply Forall_app. split; [assumption|]. constructor; [exact I|constructor].
  - unfold Stop in Hstep. destruct (stopped (BarSystem.bar s)) eqn:G.
    + injection Hstep as <-. split; assumption.
    + destruct (clearLine _) as [chunk|]; [|discriminate].
      injection Hstep as <-. split; assumption.
  - injection Hstep as <-. split; [assumption|].
    cbn [BarSystem.threads]. apply Forall_app. split; [assumption|].
    constructor; [exact I|constructor].
  - injection Hstep as <-. split; assumption.
  - destruct (d <? 0); [discriminate|]. injection Hstep as <-. split; assumption.
  - unfold BarSystem.step_thread in Hstep.
    destruct (BarSystem.threads s !! i) as [c|] eqn:Ei; [|discriminate].
    destruct c as [| |r q|r q|r q|].
    + destruct (BarSystem.termSizeCh s); [|discriminate].
      injection Hstep as <-. split; [assumption|].
      cbn [BarSystem.threads]. apply Forall_insert; [assumption|exact I].
    + destruct (stopped (BarSystem.bar s)); injection Hstep as <-; split;
        cbn [BarSystem.bar BarSystem.threads];
        try (apply Forall_insert; [assumption|exact I]); try assumption.
      destruct (calculateWidth_frame (BarSystem.term s) (BarSystem.bar s)) as [_ [E _]].
      rewrite E. assumption.
    + destruct (SetProgress_guard (BarSystem.bar s)); injection Hstep as <-; split;
        cbn [BarSystem.bar BarSystem.threads]; try assumption;
        apply Forall_insert; try assumption.
      * destruct r; exact I.
      * apply clamp_unit_or_nan.
    + injection Hstep as <-. split; cbn [BarSystem.bar BarSystem.threads].
      * exact (Forall_lookup_1 _ _ _ _ Hth Ei).
      * apply Forall_insert; [assumption|exact I].
    + injection Hstep as <-. split; cbn [BarSystem.bar BarSystem.threads];
        [assumption|]. apply Forall_insert; [assumption|]. destruct r; exact I.
    + discriminate.
Qed.

Lemma Bar_inv_run {P : Platform} (ls : list BarSystem.label) :
  forall s s', Bar_inv s -> BarSystem.run ls s = Some s' -> Bar_inv s'.
Proof.
  induction ls as [|l ls IH]; intros s s' Hinv Hrun; cbn [BarSystem.run] in Hrun.
  - injection Hrun as <-. exact Hinv.
  - destruct (BarSystem.step l s) as [s1|] eqn:E; [|discriminate].
    exact (IH s1 s' (Bar_inv_step l s s1 Hinv E) Hrun).
Qed.

(** X8: whatever the callers of [Start], [Stop] and [SetProgress] do,
    whatever is passed to [SetProgress], however the terminal is resized and
    however the goroutines interleave, the progress a constructed bar holds
    is a NaN or a number of [0, 1]. *)
Theorem Bar_progress_stays_in_unit_interval {P : Platform} (tsize : option Z)
    (cfg : BarConfig) (opts : list Option) (ls : list BarSystem.label)
    (s : BarSystem.sys) :
  BarSystem.run ls (BarSystem.init (NewBarWithConfig tsize cfg opts) tsize) = Some s ->
  IsNaN (GetProgress (BarSystem.bar s)) = true
  \/ (PrimFloat.leb zero (GetProgress (BarSystem.bar s)) = true
      /\ PrimFloat.leb (GetProgress (BarSystem.bar s)) one = true).
Proof.
  intros Hrun.
  refine (proj1 (Bar_inv_run ls _ s _ Hrun)).
  split; [|constructor].
  cbn [BarSystem.init BarSystem.bar].
  destruct (NewBarWithConfig_shape tsize cfg opts) as [c [E _]]. rewrite E.
  destruct (calculateWidth_frame tsize (mkBar c 0 zero false false 0)) as [_ [Ep _]].
  rewrite Ep. right. split; reflexivity.
Qed.

Lemma Bar_progress_stays_in_unit_interval_witness :
  exists s,
    @BarSystem.run amd64
      [BarSystem.CallStart; BarSystem.CallSetProgress 7; BarSystem.Step 1;
       BarSystem.Step 1; BarSystem.Sigwinch (Some 30); BarSystem.Step 0;
       BarSystem.Step 1; BarSystem.Step 0]
      (BarSystem.init (NewBarWithConfig (Some 40) StyleDefault []) (Some 40)) = Some s
    /\ (IsNaN (GetProgress (BarSystem.bar s)) = true
        \/ (PrimFloat.leb zero (GetProgress (BarSystem.bar s)) = true
            /\ PrimFloat.leb (GetProgress (BarSystem.bar s)) one = true)).
Proof.
  eexists. split; [vm_compute; reflexivity|].
  apply (@Bar_progress_stays_in_unit_interval amd64 (Some 40) StyleDefault []
           [BarSystem.CallStart; BarSystem.CallSetProgress 7; BarSystem.Step 1;
            BarSystem.Step 1; BarSystem.Sigwinch (Some 30); BarSystem.Step 0;
            BarSystem.Step 1; BarSystem.Step 0]).
  vm_compute. reflexivity.
Defined.

(** ** A resize *)

(** X9: when the terminal of a running auto-width bar is resized and the
    watcher goroutine [handleResize] then runs undisturbed, the track width
    is computed again from the new terminal size, the bar is redrawn once at
    that width with the progress it holds, the progress stays what it was,
    and the watcher is back at its [select]. *)
Theorem Bar_resize_redraws {P : Platform} (s : BarSystem.sys) (i : nat) (t : option Z)
    (p : float) :
  started (BarSystem.bar s) = true -> stopped (BarSystem.bar s) = false ->
  BarSystem.notified s = true ->
  BarSystem.threads s !! i = Some BarSystem.Select ->
  lastProgress (BarSystem.bar s) = clamp p ->
  exists s',
    BarSystem.run [BarSystem.Sigwinch t; BarSystem.Step i; BarSystem.Step i;
                   BarSystem.Step i; BarSystem.Step i; BarSystem.Step i] s = Some s'
    /\ BarSystem.bar s' = calculateWidth t (BarSystem.bar s)
    /\ GetProgress (BarSystem.bar s') = GetProgress (BarSystem.bar s)
    /\ BarSystem.sink s' =
         BarSystem.sink s
         ++ [render (BarSystem.now s) (calculateWidth t (BarSystem.bar s)) (clamp p)]
    /\ BarSystem.threads s' = BarSystem.threads s
    /\ BarSystem.termSizeCh s' = false.
Proof.
  intros Hs Ht Hn Hi Hq.
  destruct s as [b snk ch nt tm nw ths].
  cbn [BarSystem.bar BarSystem.sink BarSystem.now BarSystem.threads
       BarSystem.notified] in *.
  subst nt.
  assert (Hlen : (i < length ths)%nat) by (apply lookup_lt_is_Some; eauto).
  assert (Hlook : forall (x : BarSystem.pc) l, length l = length ths ->
             <[i := x]> l !! i = Some x).
  { intros x l El. apply list_lookup_insert_eq. lia. }
  destruct (calculateWidth_frame t b) as [Ec [Ep [Est [Esp Etm]]]].
  set (b' := calculateWidth t b) in *.
  assert (Hb' : SetProgress_store (clamp (lastProgress b')) b' = b').
  { unfold SetProgress_store, set_lastProgress. rewrite Ep, Hq, clamp_idempotent.
    rewrite <- Hq, <- Ep. destruct b'; reflexivity. }
  unfold BarSystem.run, BarSystem.step, BarSystem.step_thread.
  cbn [BarSystem.bar BarSystem.sink BarSystem.now BarSystem.threads
       BarSystem.termSizeCh BarSystem.notified BarSystem.term].
  rewrite Hi, orb_true_r.
  cbn [BarSystem.bar BarSystem.sink BarSystem.now BarSystem.threads
       BarSystem.termSizeCh BarSystem.notified BarSystem.term].
  rewrite (Hlook _ ths eq_refl), Ht.
  cbn [BarSystem.bar BarSystem.sink BarSystem.now BarSystem.threads
       BarSystem.termSizeCh BarSystem.notified BarSystem.term].
  fold b'. rewrite list_insert_insert_eq.
  rewrite (Hlook _ ths eq_refl).
  unfold SetProgress_guard. rewrite Est, Esp, Hs, Ht. cbn [negb orb].
  cbn [BarSystem.bar BarSystem.sink BarSystem.now BarSystem.threads
       BarSystem.termSizeCh BarSystem.notified BarSystem.term].
  rewrite list_insert_insert_eq, (Hlook _ ths eq_refl).
  cbn [BarSystem.bar BarSystem.sink BarSystem.now BarSystem.threads
       BarSystem.termSizeCh BarSystem.notified BarSystem.term].
  rewrite list_insert_insert_eq, (Hlook _ ths eq_refl).
  cbn [BarSystem.bar BarSystem.sink BarSystem.now BarSystem.threads
       BarSystem.termSizeCh BarSystem.notified BarSystem.term BarSystem.after].
  rewrite list_insert_insert_eq, Hb'.
  rewrite (list_insert_id ths i BarSystem.Select Hi).
  eexists. split; [reflexivity|].
  cbn [BarSystem.bar BarSystem.sink BarSystem.threads BarSystem.termSizeCh].
  unfold GetProgress. rewrite Ep, Hq, clamp_idempotent.
  repeat split.
Qed.

Lemma Bar_resize_redraws_witness :
  exists s,
    @BarSystem.run amd64
      [BarSystem.CallStart; BarSystem.CallSetProgress 0.5; BarSystem.Step 1;
       BarSystem.Step 1; BarSystem.Step 1]
      (BarSystem.init (NewBarWithConfig (Some 40) StyleDefault []) (Some 40)) = Some s
    /\ exists s',
         @BarSystem.run amd64
           [BarSystem.Sigwinch (Some 30); BarSystem.Step 0; BarSystem.Step 0;
            BarSystem.Step 0; BarSystem.Step 0; BarSystem.Step 0] s = Some s'
         /\ BarSystem.bar s' = calculateWidth (Some 30) (BarSystem.bar s)
         /\ GetProgress (BarSystem.bar s') = GetProgress (BarSystem.bar s)
         /\ BarSystem.sink s' =
              BarSystem.sink s
              ++ [@render amd64 (BarSystem.now s)
                    (calculateWidth (Some 30) (BarSystem.bar s)) (clamp 0.5)]
         /\ BarSystem.threads s' = BarSystem.threads s
         /\ BarSystem.termSizeCh s' = false.
Proof.
  eexists. split; [vm_compute; reflexivity|].
  apply (@Bar_resize_redraws amd64 _ 0%nat (Some 30) 0.5%float); reflexivity.
Defined.

(** ** Restarting a bar *)

Lemma Bar_restart_cycle {P : Platform} (s : BarSystem.sys) :
  Width (config (BarSystem.bar s)) = 0 ->
  0 <= totalWidth (BarSystem.bar s) < 2 ^ 62 ->
  started (BarSystem.bar s) = true -> stopped (BarSystem.bar s) = false ->
  exists s',
    BarSystem.run [BarSystem.CallStop; BarSystem.CallStart] s = Some s'
    /\ Width (config (BarSystem.bar s')) = 0
    /\ totalWidth (BarSystem.bar s') = totalWidth (BarSystem.bar s)
    /\ started (BarSystem.bar s') = true /\ stopped (BarSystem.bar s') = false
    /\ BarSystem.threads s' = BarSystem.threads s ++ [BarSystem.Select].
Proof.
  intros HW Hw Hs Ht. destruct s as [b snk ch nt tm nw ths].
  cbn [BarSystem.bar BarSystem.threads] in *.
  unfold BarSystem.run, BarSystem.step.
  cbn [BarSystem.bar BarSystem.sink BarSystem.now BarSystem.threads
       BarSystem.termSizeCh BarSystem.notified BarSystem.term].
  unfold Stop. rewrite Ht.
  rewrite (clearLine_chunk (set_stopped b true) Hw).
  cbn [BarSystem.bar BarSystem.sink BarSystem.now BarSystem.threads
       BarSystem.termSizeCh BarSystem.notified BarSystem.term].
  unfold Start. cbn [set_stopped started stopped]. rewrite Hs. cbn [andb negb].
  match goal with |- context [clearLine ?x] =>
    rewrite (clearLine_chunk x Hw)
  end.
  unfold watches_resize.
  cbn [set_stopped set_started set_startTime set_lastProgress config Width].
  rewrite HW. cbn [Z.eqb].
  eexists. split; [reflexivity|].
  cbn [BarSystem.bar BarSystem.threads set_lastProgress config totalWidth started stopped].
  repeat split. exact HW.
Qed.

(** X10: [Stop] does not end [handleResize] and every [Start] of an
    auto-width bar spawns one more: after [Start] and [k] rounds of [Stop],
    [Start], the bar is running with [k + 1] watcher goroutines, all of them
    waiting on the same channel. *)
Theorem Bar_restart_leaks_watchers {P : Platform} (b : Bar) (t : option Z) (k : nat) :
  Width (config b) = 0 -> 0 <= totalWidth b < 2 ^ 62 -> started b = false ->
  exists s,
    BarSystem.run
      (BarSystem.CallStart
         :: concat (repeat [BarSystem.CallStop; BarSystem.CallStart] k))
      (BarSystem.init b t) = Some s
    /\ BarSystem.threads s = repeat BarSystem.Select (S k)
    /\ IsStarted (BarSystem.bar s) = true /\ IsStopped (BarSystem.bar s) = false.
Proof.
  intros HW Hw Hs.
  assert (H0 : exists s,
             BarSystem.step BarSystem.CallStart (BarSystem.init b t) = Some s
             /\ Width (config (BarSystem.bar s)) = 0
             /\ 0 <= totalWidth (BarSystem.bar s) < 2 ^ 62
             /\ started (BarSystem.bar s) = true /\ stopped (BarSystem.bar s) = false
             /\ BarSystem.threads s = [BarSystem.Select]).
  { unfold BarSystem.step, BarSystem.init.
    cbn [BarSystem.bar BarSystem.sink BarSystem.now BarSystem.threads
         BarSystem.termSizeCh BarSystem.notified BarSystem.term].
    unfold Start. rewrite Hs. cbn [andb].
    match goal with |- context [clearLine ?x] => rewrite (clearLine_chunk x Hw) end.
    unfold watches_resize.
    cbn [set_stopped set_started set_startTime set_lastProgress config Width].
    rewrite HW. cbn [Z.eqb].
    eexists. split; [reflexivity|].
    cbn [BarSystem.bar BarSystem.threads set_lastProgress config totalWidth
         started stopped app].
    repeat split; try exact HW; apply Hw. }
  destruct H0 as [s0 [E0 I0]].
  cbn [BarSystem.run]. rewrite E0. clear E0.
  assert (Hk : forall n s1,
             Width (config (BarSystem.bar s1)) = 0
             /\ 0 <= totalWidth (BarSystem.bar s1) < 2 ^ 62
             /\ started (BarSystem.bar s1) = true /\ stopped (BarSystem.bar s1) = false ->
             exists s,
               BarSystem.run
                 (concat (repeat [BarSystem.CallStop; BarSystem.CallStart] n)) s1 = Some s
               /\ BarSystem.threads s
                  = BarSystem.threads s1 ++ repeat BarSystem.Select n
               /\ started (BarSystem.bar s) = true /\ stopped (BarSystem.bar s) = false).
  { induction n as [|n IH]; intros s1 [A [B [C D]]].
    - exists s1. cbn [repeat concat BarSystem.run]. rewrite app_nil_r. auto.
    - destruct (Bar_restart_cycle s1 A B C D) as [s2 [R [A2 [B2 [C2 [D2 T2]]]]]].
      destruct (IH s2) as [s3 [R3 [T3 [C3 D3]]]].
      { rewrite B2. auto. }
      exists s3. split; [|split; [|auto]].
      + change (concat (repeat [BarSystem.CallStop; BarSystem.CallStart] (S n)))
          with (BarSystem.CallStop :: BarSystem.CallStart
                  :: concat (repeat [BarSystem.CallStop; BarSystem.CallStart] n)).
        cbn [BarSystem.run] in R |- *.
        destruct (BarSystem.step BarSystem.CallStop s1) as [sa|]; [|discriminate].
        destruct (BarSystem.step BarSystem.CallStart sa) as [sb|]; [|discriminate].
        injection R as ->. exact R3.
      + rewrite T3, T2, <- app_assoc. reflexivity. }
  destruct I0 as [A [B [C [D T]]]].
  destruct (Hk k s0 (conj A (conj B (conj C D)))) as [s [R [Ts [Cs Ds]]]].
  exists s. split; [exact R|]. split; [|split; assumption].
  rewrite Ts, T. reflexivity.
Qed.

Lemma Bar_restart_leaks_watchers_witness :
  exists s,
    @BarSystem.run amd64
      (BarSystem.CallStart
         :: concat (repeat [BarSystem.CallStop; BarSystem.CallStart] 3))
      (BarSystem.init (NewBarWithConfig (Some 80) StyleDefault []) (Some 80)) = Some s
    /\ BarSystem.threads s = repeat BarSystem.Select 4
    /\ IsStarted (BarSystem.bar s) = true /\ IsStopped (BarSystem.bar s) = false.
Proof.
  apply (@Bar_restart_leaks_watchers amd64
           (NewBarWithConfig (Some 80) StyleDefault []) (Some 80) 3%nat).
  - reflexivity.
  - vm_compute. split; [discriminate|reflexivity].
  - reflexivity.
Defined.

(** ** [Bar.Run] *)

Lemma Start_total (b : Bar) (now : Z) :
  0 <= totalWidth b < 2 ^ 62 ->
  exists b1 out, Start now b = Some (b1, out) /\ totalWidth b1 = totalWidth b
                 /\ started b1 = true /\ stopped b1 = false.
Proof.
  intros Hw. unfold Start.
  destruct (started b && negb (stopped b)) eqn:G.
  - apply andb_prop in G. destruct G as [G1 G2]. apply negb_true_iff in G2.
    exists b, []. auto.
  - match goal with |- context [clearLine ?x] => rewrite (clearLine_chunk x Hw) end.
    eexists. eexists. split; [reflexivity|]. repeat split.
Qed.

Lemma Stop_total (b : Bar) :
  0 <= totalWidth b < 2 ^ 62 ->
  exists b1 out, Stop b = Some (b1, out) /\ stopped b1 = true.
Proof.
  intros Hw. unfold Stop. destruct (stopped b) eqn:G.
  - exists b, []. auto.
  - rewrite (clearLine_chunk (set_stopped b true) Hw).
    eexists. eexists. split; [reflexivity|]. reflexivity.
Qed.

Lemma SetProgress_totalWidth {P : Platform} (b : Bar) (now : Z) (p : float) :
  totalWidth (fst (SetProgress now p b)) = totalWidth b.
Proof. unfold SetProgress. destruct (SetProgress_guard b); reflexivity. Qed.

Lemma RunSystem_run_app {St : Type} (start : Z -> St -> option (St * list string))
    (stop : St -> option (St * list string))
    (set : Z -> float -> St -> option (St * list string))
    (l1 l2 : list RunSystem.label) :
  forall s,
    RunSystem.run start stop set (l1 ++ l2) s
    = match RunSystem.run start stop set l1 s with
      | Some s' => RunSystem.run start stop set l2 s'
      | None => None
      end.
Proof.
  induction l1 as [|l l1 IH]; intros s; [reflexivity|].
  cbn [app RunSystem.run]. destruct (RunSystem.step start stop set l s); [apply IH|reflexivity].
Qed.

Lemma Bar_Run_fn_runs {P : Platform} (calls : list float) :
  forall (b : Bar) snk nw k ev,
  exists b' snk',
    ProgressRun.run (repeat RunSystem.Fn (length calls))
      (RunSystem.mkSys b snk nw 1 k (RunSystem.Working calls) ev)
    = Some (RunSystem.mkSys b' snk' nw 1 k (RunSystem.Working [])
              (ev ++ map RunSystem.EvSet calls))
    /\ totalWidth b' = totalWidth b.
Proof.
  induction calls as [|p calls IH]; intros b snk nw k ev.
  - exists b, snk. cbn [length repeat map]. rewrite app_nil_r. split; reflexivity.
  - destruct (IH (fst (SetProgress nw p b)) (snk ++ snd (SetProgress nw p b)) nw k
                (ev ++ [RunSystem.EvSet p])) as [b' [snk' [R W]]].
    exists b', snk'. split.
    + cbn [length repeat]. unfold ProgressRun.run in *. cbn [RunSystem.run RunSystem.step].
      cbn [RunSystem.fn RunSystem.now RunSystem.bar RunSystem.sink RunSystem.wg
           RunSystem.main RunSystem.events].
      unfold ProgressRun.set at 1.
      destruct (SetProgress nw p b) as [b1 out] eqn:E. cbn [fst snd] in R.
      rewrite R. cbn [map]. rewrite <- app_assoc. reflexivity.
    + rewrite W. apply SetProgress_totalWidth.
Qed.

(** X11: [Bar.Run(fn)] on a bar whose [clearLine] cannot panic returns: when
    [fn]'s goroutine is let run, [Run] gets through [wg.Wait()] and [Stop],
    and the bar is stopped.  And in whatever order the two goroutines move,
    once [Stop] has been called [fn] has made all its calls of
    [setProgress] and has returned. *)
Theorem Bar_Run_returns_after_fn {P : Platform} (b : Bar) (calls : list float) :
  0 <= totalWidth b < 2 ^ 62 ->
  (exists s,
      ProgressRun.run
        ([RunSystem.Main; RunSystem.Main; RunSystem.Main]
         ++ repeat RunSystem.Fn (length calls)
         ++ [RunSystem.Fn; RunSystem.Main; RunSystem.Main])
        (RunSystem.init b (ProgressRun.Run calls)) = Some s
      /\ RunSystem.main s = [] /\ IsStopped (RunSystem.bar s) = true)
  /\ (forall ls s,
        ProgressRun.run ls (RunSystem.init b (ProgressRun.Run calls)) = Some s ->
        In RunSystem.EvStop (RunSystem.events s) ->
        RunSystem.events s =
          RunSystem.EvStart :: map RunSystem.EvSet calls
            ++ [RunSystem.EvFnReturn; RunSystem.EvStop]).
Proof.
  intros Hw. split.
  - destruct (Start_total b 0 Hw) as [b1 [out1 [S1 [W1 _]]]].
    destruct (Bar_Run_fn_runs calls b1 ([] ++ out1) 0
                [RunSystem.IWait; RunSystem.IStop] ([] ++ [RunSystem.EvStart]))
      as [b2 [snk2 [R2 W2]]].
    destruct (Stop_total b2) as [b3 [out3 [S3 H3]]]; [rewrite W2, W1; exact Hw|].
    unfold ProgressRun.run in *.
    rewrite RunSystem_run_app.
    assert (R1 : RunSystem.run Start Stop ProgressRun.set
                   [RunSystem.Main; RunSystem.Main; RunSystem.Main]
                   (RunSystem.init b (ProgressRun.Run calls))
                 = Some (RunSystem.mkSys b1 ([] ++ out1) 0 1
                           [RunSystem.IWait; RunSystem.IStop]
                           (RunSystem.Working calls) ([] ++ [RunSystem.EvStart]))).
    { unfold RunSystem.init, ProgressRun.Run. cbn [RunSystem.run RunSystem.step].
      cbn [RunSystem.fn RunSystem.now RunSystem.bar RunSystem.sink RunSystem.wg
           RunSystem.main RunSystem.events].
      rewrite S1. reflexivity. }
    rewrite R1, RunSystem_run_app, R2.
    cbn [RunSystem.run RunSystem.step].
    cbn [RunSystem.fn RunSystem.now RunSystem.bar RunSystem.sink RunSystem.wg
         RunSystem.main RunSystem.events].
    change (1 - 1 <? 0) with false. cbv iota.
    cbn [RunSystem.fn RunSystem.now RunSystem.bar RunSystem.sink RunSystem.wg
         RunSystem.main RunSystem.events].
    change (1 - 1 =? 0) with true. cbv iota.
    cbn [RunSystem.fn RunSystem.now RunSystem.bar RunSystem.sink RunSystem.wg
         RunSystem.main RunSystem.events].
    rewrite S3. eexists. split; [reflexivity|]. split; [reflexivity|exact H3].
  - intros ls s Hrun Hin.
    exact (proj1 (Run_waits Bar Start Stop ProgressRun.set calls b ls s Hrun) Hin).
Qed.

Lemma Bar_Run_returns_after_fn_witness :
  exists s,
    @ProgressRun.run amd64
      ([RunSystem.Main; RunSystem.Main; RunSystem.Main]
       ++ repeat RunSystem.Fn 2 ++ [RunSystem.Fn; RunSystem.Main; RunSystem.Main])
      (RunSystem.init (NewBarWithConfig None StyleMinimal [])
         (ProgressRun.Run [0.25; 1]%float)) = Some s
    /\ RunSystem.main s = [] /\ IsStopped (RunSystem.bar s) = true.
Proof.
  apply (proj1 (@Bar_Run_returns_after_fn amd64 (NewBarWithConfig None StyleMinimal [])
                  [0.25; 1]%float ltac:(vm_compute; split; [discriminate|reflexivity]))).
Defined.

(** ** The spinner: [Stop] returns *)

(** What more holds of a spinner at all times: its channels have been made;
    while it runs and no [Stop] is under way, [doneCh] is open and a
    goroutine is alive; while a [Stop] waits, [doneCh] is closed and the
    goroutine is alive or has closed [finishedCh]. *)
Definition Spinner_live (s : SpinnerSystem.sys) : Prop :=
  (forall d, Spinner.doneCh (SpinnerSystem.sp s) = Some d ->
             (d < length (SpinnerSystem.chans s))%nat)
  /\ (forall f, Spinner.finishedCh (SpinnerSystem.sp s) = Some f ->
                (f < length (SpinnerSystem.chans s))%nat)
  /\ (Spinner.running (SpinnerSystem.sp s) = true -> SpinnerSystem.stopping s = false ->
      exists d, Spinner.doneCh (SpinnerSystem.sp s) = Some d
                /\ SpinnerSystem.closed (SpinnerSystem.chans s) d = false
                /\ exists i a, SpinnerSystem.anims s !! i = Some a
                               /\ SpinnerSystem.alive a = true)
  /\ (SpinnerSystem.stopping s = true ->
      exists d f, Spinner.doneCh (SpinnerSystem.sp s) = Some d
                  /\ Spinner.finishedCh (SpinnerSystem.sp s) = Some f
                  /\ SpinnerSystem.closed (SpinnerSystem.chans s) d = true
                  /\ ((exists i a, SpinnerSystem.anims s !! i = Some a
                                   /\ SpinnerSystem.alive a = true)
                      \/ SpinnerSystem.closed (SpinnerSystem.chans s) f = true)).

Lemma closed_insert_eq (cs : list bool) (d : nat) :
  (d < length cs)%nat -> SpinnerSystem.closed (<[d := true]> cs) d = true.
Proof.
  intros Hd. unfold SpinnerSystem.closed.
  rewrite list_lookup_insert_eq by exact Hd. reflexivity.
Qed.

Lemma Spinner_live_init (s0 : Spinner.Spinner) :
  Spinner.running s0 = false -> Spinner.doneCh s0 = None ->
  Spinner.finishedCh s0 = None -> Spinner_live (SpinnerSystem.init s0).
Proof.
  intros Hr Hd Hf. unfold Spinner_live, SpinnerSystem.init.
  cbn [SpinnerSystem.sp SpinnerSystem.stopping SpinnerSystem.anims SpinnerSystem.chans].
  rewrite Hr, Hd, Hf. repeat split; intros; discriminate.
Qed.

Ltac open_live H :=
  let L1 := fresh "L1" in
  let L2 := fresh "L2" in
  let L3 := fresh "L3" in
  let L4 := fresh "L4" in
  pose proof H as [L1 [L2 [L3 L4]]];
  cbn [SpinnerSystem.sp SpinnerSystem.stopping SpinnerSystem.anims
       SpinnerSystem.chans] in L1, L2, L3, L4.

Lemma Spinner_live_step (l : SpinnerSystem.label) (s s' : SpinnerSystem.sys) :
  Spinner_inv s -> Spinner_live s -> SpinnerSystem.step l s = Some s' -> Spinner_live s'.
Proof.
  intros Hinv Hlive Hstep.
  destruct s as [sp snk cs ans st].
  destruct l as [| | |p|p|i|i]; cbn [SpinnerSystem.step] in Hstep;
    cbn [SpinnerSystem.sp SpinnerSystem.stopping SpinnerSystem.anims
         SpinnerSystem.chans SpinnerSystem.sink] in Hstep.
  - (* Start *)
    destruct st; [discriminate|].
    destruct (Spinner.running sp) eqn:Hr.
    { injection Hstep as <-. exact Hlive. }
    destruct (Spinner.frameDuration sp <=? 0); [discriminate|].
    injection Hstep as <-. unfold Spinner_live.
    cbn [SpinnerSystem.sp SpinnerSystem.stopping SpinnerSystem.anims
         SpinnerSystem.chans Spinner.set_channels Spinner.running Spinner.doneCh
         Spinner.finishedCh].
    split; [intros d E; injection E as <-; rewrite length_app; cbn; lia|].
    split; [intros f E; injection E as <-; rewrite length_app; cbn; lia|].
    split; [|discriminate].
    intros _ _. exists (length cs). split; [reflexivity|]. split.
    + unfold SpinnerSystem.closed. rewrite lookup_app_r by lia.
      rewrite Nat.sub_diag. reflexivity.
    + exists (length ans). eexists. split.
      * rewrite lookup_app_r by lia. rewrite Nat.sub_diag. reflexivity.
      * reflexivity.
  - (* Stop, up to close(doneCh) *)
    destruct st; [discriminate|].
    destruct (Spinner.doneCh sp) as [d|] eqn:Hd.
    2:{ injection Hstep as <-. exact Hlive. }
    destruct (Spinner.running sp) eqn:Hr; cbn [negb] in Hstep.
    2:{ injection Hstep as <-. exact Hlive. }
    destruct (SpinnerSystem.closed cs d) eqn:Hc; [discriminate|].
    injection Hstep as <-. open_inv Hinv. open_live Hlive. unfold Spinner_live.
    cbn [SpinnerSystem.sp SpinnerSystem.stopping SpinnerSystem.anims
         SpinnerSystem.chans].
    split; [intros d' E; rewrite length_insert; exact (L1 d' E)|].
    split; [intros f' E; rewrite length_insert; exact (L2 f' E)|].
    split; [discriminate|]. intros _.
    destruct (I1 Hr) as [d' [f [E1 E2]]]. rewrite Hd in E1. injection E1 as <-.
    exists d, f. split; [exact Hd|]. split; [exact E2|]. split.
    + apply closed_insert_eq. exact (L1 d Hd).
    + left. destruct (L3 Hr eq_refl) as [_ [_ [_ Hal]]]. exact Hal.
  - (* Stop, from <-finishedCh on *)
    destruct st; [|discriminate].
    destruct (Spinner.finishedCh sp) as [f|] eqn:Hf; [|discriminate].
    destruct (SpinnerSystem.closed cs f) eqn:Hc; [|discriminate].
    injection Hstep as <-. unfold Spinner_live.
    cbn [SpinnerSystem.sp SpinnerSystem.stopping SpinnerSystem.anims
         SpinnerSystem.chans Spinner.set_channels Spinner.running Spinner.doneCh
         Spinner.finishedCh].
    repeat split; intros; discriminate.
  - (* SetPrefix *)
    destruct st; [discriminate|]. injection Hstep as <-. exact Hlive.
  - (* SetSuffix *)
    destruct st; [discriminate|]. injection Hstep as <-. exact Hlive.
  - (* a tick *)
    destruct (ans !! i) as [a|] eqn:Hl; [|discriminate].
    destruct (SpinnerSystem.alive a) eqn:Ha; [|discriminate].
    destruct (Spinner.frame_at (Spinner.frames sp) (SpinnerSystem.frameIndex a));
      [|discriminate].
    injection Hstep as <-. open_live Hlive. unfold Spinner_live.
    cbn [SpinnerSystem.sp SpinnerSystem.stopping SpinnerSystem.anims
         SpinnerSystem.chans].
    assert (Hal : exists j a', <[i:=SpinnerSystem.mkAnim (SpinnerSystem.a_done a)
                                      (SpinnerSystem.a_finished a)
                                      (wrap64 (SpinnerSystem.frameIndex a + 1)) true]>
                                 ans !! j = Some a'
                               /\ SpinnerSystem.alive a' = true).
    { exists i. eexists. split.
      - apply list_lookup_insert_eq. apply lookup_lt_is_Some. eauto.
      - reflexivity. }
    split; [exact L1|]. split; [exact L2|]. split.
    + intros Hr Hst. destruct (L3 Hr Hst) as [d [E1 [E2 _]]].
      exists d. split; [exact E1|]. split; [exact E2|exact Hal].
    + intros Hst. destruct (L4 Hst) as [d [f [E1 [E2 [E3 _]]]]].
      exists d, f. split; [exact E1|]. split; [exact E2|]. split; [exact E3|].
      left. exact Hal.
  - (* the goroutine returns *)
    destruct (ans !! i) as [a|] eqn:Hl; [|discriminate].
    destruct (SpinnerSystem.alive a) eqn:Ha; [|discriminate].
    destruct (SpinnerSystem.closed cs (SpinnerSystem.a_done a)) eqn:Hc; [|discriminate].
    cbn [andb] in Hstep. injection Hstep as <-.
    open_inv Hinv. open_live Hlive. unfold Spinner_live.
    cbn [SpinnerSystem.sp SpinnerSystem.stopping SpinnerSystem.anims
         SpinnerSystem.chans].
    destruct (I3 i a Hl Ha) as [Hr [Hd [Hf [Hne _]]]].
    split; [intros d' E; rewrite length_insert; exact (L1 d' E)|].
    split; [intros f' E; rewrite length_insert; exact (L2 f' E)|].
    split.
    + intros _ Hst. exfalso.
      destruct (L3 Hr Hst) as [d [E1 [E2 _]]]. congruence.
    + intros Hst. exists (SpinnerSystem.a_done a), (SpinnerSystem.a_finished a).
      split; [exact Hd|]. split; [exact Hf|]. split.
      * rewrite closed_insert_ne by congruence. exact Hc.
      * right. apply closed_insert_eq. exact (L2 _ Hf).
Qed.

Lemma Spinner_invs_run (ls : list SpinnerSystem.label) :
  forall s s', Spinner_inv s -> Spinner_live s -> SpinnerSystem.run ls s = Some s' ->
               Spinner_inv s' /\ Spinner_live s'.
Proof.
  induction ls as [|l ls IH]; intros s s' Hi Hl Hrun; cbn in Hrun.
  - injection Hrun as <-. split; assumption.
  - destruct (SpinnerSystem.step l s) as [s1|] eqn:Hstep; [|discriminate].
    apply (IH s1); [exact (Spinner_inv_step l s s1 Hi Hstep)
                   |exact (Spinner_live_step l s s1 Hi Hl Hstep)|exact Hrun].
Qed.

(** X12: a spinner never has two animation goroutines: in every state
    reached from a fresh spinner by whatever calls of [Start], [Stop],
    [SetPrefix] and [SetSuffix] and whatever moves of the goroutines, at most
    one goroutine is alive, and only while [IsRunning] answers true. *)
Theorem Spinner_single_goroutine (s0 : Spinner.Spinner) (ls : list SpinnerSystem.label)
    (s : SpinnerSystem.sys) :
  Spinner.running s0 = false ->
  SpinnerSystem.run ls (SpinnerSystem.init s0) = Some s ->
  forall i a, SpinnerSystem.anims s !! i = Some a -> SpinnerSystem.alive a = true ->
    Spinner.IsRunning (SpinnerSystem.sp s) = true
    /\ forall j a', SpinnerSystem.anims s !! j = Some a' ->
                    SpinnerSystem.alive a' = true -> j = i.
Proof.
  intros Hr Hrun i a Hl Ha.
  pose proof (Spinner_inv_run ls _ s (Spinner_inv_init s0 Hr) Hrun) as [_ [_ I3]].
  destruct (I3 i a Hl Ha) as [H1 [_ [_ [_ [_ H6]]]]].
  split; [exact H1|exact H6].
Qed.

Lemma Spinner_single_goroutine_witness :
  exists s,
    SpinnerSystem.run
      ([SpinnerSystem.CallStart; SpinnerSystem.Tick 0; SpinnerSystem.CallStart]
       ++ SpinnerSystem.Restart 0 1 ++ [SpinnerSystem.CallStart; SpinnerSystem.Tick 1])
      (SpinnerSystem.init (Spinner.New [])) = Some s
    /\ length (SpinnerSystem.anims s) = 2%nat
    /\ Spinner.IsRunning (SpinnerSystem.sp s) = true
    /\ forall j a', SpinnerSystem.anims s !! j = Some a' ->
                    SpinnerSystem.alive a' = true -> j = 1%nat.
Proof.
  eexists. split; [vm_compute; reflexivity|]. split; [reflexivity|].
  eapply (Spinner_single_goroutine (Spinner.New [])
            ([SpinnerSystem.CallStart; SpinnerSystem.Tick 0; SpinnerSystem.CallStart]
             ++ SpinnerSystem.Restart 0 1
             ++ [SpinnerSystem.CallStart; SpinnerSystem.Tick 1])
            _ eq_refl);
    [vm_compute; reflexivity|reflexivity|reflexivity].
Defined.

(** X13: [Stop] on a running spinner cannot panic or block for ever: in
    every state reached from a fresh spinner where [IsRunning] answers true
    and no [Stop] is under way, closing [doneCh] succeeds, the goroutine is
    there to take the [doneCh] case, clear the line and close [finishedCh],
    and [Stop] then returns with the spinner not running, no goroutine left
    and nothing more that can be drawn. *)
Theorem Spinner_Stop_returns (s0 : Spinner.Spinner) (ls : list SpinnerSystem.label)
    (s : SpinnerSystem.sys) :
  Spinner.running s0 = false -> Spinner.doneCh s0 = None ->
  Spinner.finishedCh s0 = None ->
  SpinnerSystem.run ls (SpinnerSystem.init s0) = Some s ->
  Spinner.IsRunning (SpinnerSystem.sp s) = true -> SpinnerSystem.stopping s = false ->
  exists i s',
    SpinnerSystem.run (SpinnerSystem.Stop i 0) s = Some s'
    /\ Spinner.IsRunning (SpinnerSystem.sp s') = false
    /\ SpinnerSystem.stopping s' = false
    /\ SpinnerSystem.sink s' = SpinnerSystem.sink s ++ [Spinner.clearLine (SpinnerSystem.sp s)]
    /\ (forall j a, SpinnerSystem.anims s' !! j = Some a -> SpinnerSystem.alive a = false)
    /\ (forall j, SpinnerSystem.step (SpinnerSystem.Tick j) s' = None).
Proof.
  intros Hr Hd0 Hf0 Hrun Hrunning Hst.
  destruct (Spinner_invs_run ls _ s (Spinner_inv_init s0 Hr)
              (Spinner_live_init s0 Hr Hd0 Hf0) Hrun) as [Hinv Hlive].
  unfold Spinner.IsRunning in *.
  destruct Hlive as [L1 [L2 [L3 _]]].
  destruct (L3 Hrunning Hst) as [d [Ed [Ec [i [a [Hl Ha]]]]]].
  pose proof Hinv as [_ [_ I3]].
  destruct (I3 i a Hl Ha) as [_ [Hd [Hf [Hne _]]]].
  rewrite Ed in Hd. injection Hd as Hd.
  pose proof (L1 d Ed) as Hdl. pose proof (L2 _ Hf) as Hfl.
  exists i.
  assert (Hrun3 : exists s', SpinnerSystem.run (SpinnerSystem.Stop i 0) s = Some s'
            /\ Spinner.running (SpinnerSystem.sp s') = false
            /\ SpinnerSystem.stopping s' = false
            /\ SpinnerSystem.sink s'
               = SpinnerSystem.sink s ++ [Spinner.clearLine (SpinnerSystem.sp s)]).
  { destruct s as [sp snk cs ans st].
    cbn [SpinnerSystem.sp SpinnerSystem.stopping SpinnerSystem.anims
         SpinnerSystem.chans SpinnerSystem.sink] in *.
    subst st. unfold SpinnerSystem.Stop. cbn [repeat app SpinnerSystem.run].
    cbn [SpinnerSystem.step].
    cbn [SpinnerSystem.sp SpinnerSystem.stopping SpinnerSystem.anims
         SpinnerSystem.chans SpinnerSystem.sink].
    rewrite Ed, Hrunning, Ec. cbn [negb].
    cbn [SpinnerSystem.sp SpinnerSystem.stopping SpinnerSystem.anims
         SpinnerSystem.chans SpinnerSystem.sink].
    rewrite Hl, Ha, <- Hd, (closed_insert_eq cs d Hdl). cbn [andb].
    cbn [SpinnerSystem.sp SpinnerSystem.stopping SpinnerSystem.anims
         SpinnerSystem.chans SpinnerSystem.sink].
    rewrite Hf.
    rewrite (closed_insert_eq (<[d:=true]> cs) (SpinnerSystem.a_finished a))
      by (rewrite length_insert; exact Hfl).
    eexists. split; [reflexivity|].
    cbn [SpinnerSystem.sp SpinnerSystem.stopping SpinnerSystem.sink
         Spinner.set_channels Spinner.running].
    repeat split. }
  destruct Hrun3 as [s' [R [Hr' [Hst' Hsink]]]].
  exists s'. split; [exact R|]. split; [exact Hr'|]. split; [exact Hst'|].
  split; [exact Hsink|].
  pose proof (Spinner_inv_run _ s s' Hinv R) as Hinv'.
  destruct (Spinner_not_running_quiet s' Hinv' Hr') as [Q1 [Q2 _]].
  split; assumption.
Qed.

Lemma Spinner_Stop_returns_witness :
  exists s i s',
    SpinnerSystem.run
      [SpinnerSystem.CallStart; SpinnerSystem.Tick 0; SpinnerSystem.CallSetPrefix "wait "]
      (SpinnerSystem.init (Spinner.New [])) = Some s
    /\ SpinnerSystem.run (SpinnerSystem.Stop i 0) s = Some s'
    /\ Spinner.IsRunning (SpinnerSystem.sp s') = false
    /\ SpinnerSystem.stopping s' = false
    /\ SpinnerSystem.sink s' = SpinnerSystem.sink s ++ [Spinner.clearLine (SpinnerSystem.sp s)]
    /\ (forall j a, SpinnerSystem.anims s' !! j = Some a -> SpinnerSystem.alive a = false)
    /\ (forall j, SpinnerSystem.step (SpinnerSystem.Tick j) s' = None).
Proof.
  eexists.
  match goal with |- exists i s', ?R = Some ?s /\ _ =>
    assert (E : R = Some s) by (vm_compute; reflexivity)
  end.
  destruct (Spinner_Stop_returns (Spinner.New []) _ _ eq_refl eq_refl eq_refl E
              eq_refl eq_refl) as [i [s' H]].
  exists i, s'. split; [exact E|exact H].
Defined.

(** ** The frames a spinner draws *)

Lemma frame_at_nth (fr : list Z) (idx : Z) :
  0 <= idx -> fr <> [] ->
  Spinner.frame_at fr idx = Some (SpinnerRun.nth_frame fr (Z.to_nat idx)).
Proof.
  intros Hidx Hfr. unfold Spinner.frame_at, SpinnerRun.nth_frame.
  assert (Hlen : (0 < length fr)%nat) by (destruct fr; [congruence|cbn; lia]).
  replace (Z.of_nat (length fr) =? 0) with false by (symmetry; apply Z.eqb_neq; lia).
  rewrite Z.rem_mod_nonneg by lia.
  pose proof (Z.mod_pos_bound idx (Z.of_nat (length fr)) ltac:(lia)) as Hm.
  replace (idx mod Z.of_nat (length fr) <? 0) with false
    by (symmetry; apply Z.ltb_ge; lia).
  assert (E : Z.to_nat (idx mod Z.of_nat (length fr))
              = (Z.to_nat idx mod length fr)%nat).
  { rewrite Z2Nat.inj_mod by lia. rewrite Nat2Z.id. reflexivity. }
  rewrite E.
  assert (Hlt : (Z.to_nat idx mod length fr < length fr)%nat)
    by (apply Nat.mod_upper_bound; lia).
  destruct (lookup_lt_is_Some_2 fr _ Hlt) as [x Hx].
  rewrite Hx. f_equal. symmetry. apply nth_lookup_Some with (d := 0). exact Hx.
Qed.

Lemma Spinner_ticks (k : nat) :
  forall (s : SpinnerSystem.sys) (i : nat) (a : SpinnerSystem.anim),
  SpinnerSystem.anims s !! i = Some a -> SpinnerSystem.alive a = true ->
  Spinner.frames (SpinnerSystem.sp s) <> [] ->
  0 <= SpinnerSystem.frameIndex a ->
  SpinnerSystem.frameIndex a + Z.of_nat k < 2 ^ 63 ->
  SpinnerSystem.run (repeat (SpinnerSystem.Tick i) k) s
  = Some (SpinnerSystem.mkSys (SpinnerSystem.sp s)
            (SpinnerSystem.sink s
             ++ map (fun n => Spinner.render (SpinnerSystem.sp s)
                                (SpinnerRun.nth_frame (Spinner.frames (SpinnerSystem.sp s))
                                   (Z.to_nat (SpinnerSystem.frameIndex a) + n)))
                    (seq 0 k))
            (SpinnerSystem.chans s)
            (<[i := SpinnerSystem.mkAnim (SpinnerSystem.a_done a)
                      (SpinnerSystem.a_finished a)
                      (SpinnerSystem.frameIndex a + Z.of_nat k) true]>
               (SpinnerSystem.anims s))
            (SpinnerSystem.stopping s)).
Proof.
  induction k as [|k IH]; intros s i a Hl Ha Hfr Hidx Hk.
  - cbn [repeat SpinnerSystem.run seq map]. rewrite app_nil_r, Z.add_0_r.
    destruct s as [sp snk cs ans st], a as [d f idx al].
    cbn [SpinnerSystem.sp SpinnerSystem.sink SpinnerSystem.chans SpinnerSystem.anims
         SpinnerSystem.stopping SpinnerSystem.a_done SpinnerSystem.a_finished
         SpinnerSystem.frameIndex SpinnerSystem.alive] in *.
    subst al. rewrite (list_insert_id ans i _ Hl). reflexivity.
  - cbn [repeat SpinnerSystem.run]. unfold SpinnerSystem.step at 1.
    rewrite Hl, Ha, (frame_at_nth _ _ Hidx Hfr).
    assert (Hw : wrap64 (SpinnerSystem.frameIndex a + 1) = SpinnerSystem.frameIndex a + 1).
    { apply wrap64_small. change (2 ^ 63) with 9223372036854775808 in *. lia. }
    rewrite Hw.
    match goal with |- SpinnerSystem.run _ ?s1 = _ => set (s1' := s1) end.
    rewrite (IH s1' i (SpinnerSystem.mkAnim (SpinnerSystem.a_done a)
                         (SpinnerSystem.a_finished a)
                         (SpinnerSystem.frameIndex a + 1) true)).
    + subst s1'.
      cbn [SpinnerSystem.sp SpinnerSystem.sink SpinnerSystem.chans SpinnerSystem.anims
           SpinnerSystem.stopping SpinnerSystem.a_done SpinnerSystem.a_finished
           SpinnerSystem.frameIndex].
      rewrite list_insert_insert_eq.
      replace (SpinnerSystem.frameIndex a + 1 + Z.of_nat k)
        with (SpinnerSystem.frameIndex a + Z.of_nat (S k)) by lia.
      apply (f_equal (fun snk => Some (SpinnerSystem.mkSys _ snk _ _ _))).
      rewrite <- app_assoc. apply (f_equal (app (SpinnerSystem.sink s))).
      cbn [seq map app]. rewrite Nat.add_0_r.
      apply (f_equal (cons _)).
      rewrite <- seq_shift, map_map. apply map_ext. intros n.
      do 2 f_equal. lia.
    + subst s1'. cbn [SpinnerSystem.anims]. apply list_lookup_insert_eq.
      apply lookup_lt_is_Some. eauto.
    + reflexivity.
    + subst s1'. exact Hfr.
    + cbn [SpinnerSystem.frameIndex]. lia.
    + cbn [SpinnerSystem.frameIndex]. lia.
Qed.

(** X14: the goroutine of a spinner draws its frames in order, from the
    first one, and starts over after the last: the [n]-th frame drawn after
    [Start] (counting from 0) is [frames[n % len(frames)]], between the
    prefix and the suffix. *)
Theorem Spinner_frames_cycle (s : SpinnerSystem.sys) (k : nat) :
  Spinner.running (SpinnerSystem.sp s) = false -> SpinnerSystem.stopping s = false ->
  0 < Spinner.frameDuration (SpinnerSystem.sp s) ->
  Spinner.frames (SpinnerSystem.sp s) <> [] -> Z.of_nat k < 2 ^ 63 ->
  exists s',
    SpinnerSystem.run
      (SpinnerSystem.CallStart
         :: repeat (SpinnerSystem.Tick (length (SpinnerSystem.anims s))) k) s = Some s'
    /\ Spinner.IsRunning (SpinnerSystem.sp s') = true
    /\ SpinnerSystem.sink s' =
         SpinnerSystem.sink s
         ++ map (fun n =>
                   String.append CR
                     (String.append (Spinner.prefix (SpinnerSystem.sp s))
                        (String.append
                           (utf8 (SpinnerRun.nth_frame
                                    (Spinner.frames (SpinnerSystem.sp s)) n))
                           (Spinner.suffix (SpinnerSystem.sp s)))))
                (seq 0 k).
Proof.
  intros Hr Hst Hd Hfr Hk.
  destruct s as [sp snk cs ans st].
  cbn [SpinnerSystem.sp SpinnerSystem.sink SpinnerSystem.chans SpinnerSystem.anims
       SpinnerSystem.stopping] in *.
  subst st. cbn [SpinnerSystem.run]. unfold SpinnerSystem.step at 1.
  cbn [SpinnerSystem.sp SpinnerSystem.sink SpinnerSystem.chans SpinnerSystem.anims
       SpinnerSystem.stopping].
  rewrite Hr.
  replace (Spinner.frameDuration sp <=? 0) with false by (symmetry; apply Z.leb_gt; lia).
  match goal with |- context [SpinnerSystem.run _ ?s1] => set (s1' := s1) end.
  rewrite (Spinner_ticks k s1' (length ans)
             (SpinnerSystem.mkAnim (length cs) (S (length cs)) 0 true)).
  - eexists. split; [reflexivity|]. split; [reflexivity|]. reflexivity.
  - subst s1'. cbn [SpinnerSystem.anims]. rewrite lookup_app_r by lia.
    rewrite Nat.sub_diag. reflexivity.
  - reflexivity.
  - subst s1'. exact Hfr.
  - cbn [SpinnerSystem.frameIndex]. lia.
  - cbn [SpinnerSystem.frameIndex]. lia.
Qed.

Lemma Spinner_frames_cycle_witness :
  exists s',
    SpinnerSystem.run
      (SpinnerSystem.CallStart :: repeat (SpinnerSystem.Tick 0) 6)
      (SpinnerSystem.init (SpinnerRun.WithMessage "Loading")) = Some s'
    /\ Spinner.IsRunning (SpinnerSystem.sp s') = true
    /\ SpinnerSystem.sink s' =
         [String.append CR "Loading |"; String.append CR "Loading /";
          String.append CR "Loading -"; String.append CR "Loading \";
          String.append CR "Loading |"; String.append CR "Loading /"].
Proof.
  destruct (Spinner_frames_cycle (SpinnerSystem.init (SpinnerRun.WithMessage "Loading"))
              6 eq_refl eq_refl eq_refl ltac:(discriminate) eq_refl)
    as [s' [R [H1 H2]]].
  exists s'. split; [exact R|]. split; [exact H1|]. rewrite H2. reflexivity.
Defined.

Lemma seq_add_map (k j : nat) : seq k j = map (Nat.add k) (seq 0 j).
Proof.
  revert k. induction j as [|j IH]; intros k; [reflexivity|].
  cbn [seq map]. rewrite Nat.add_0_r. apply (f_equal (cons k)).
  rewrite (IH (S k)), (IH 1%nat), map_map. apply map_ext. intros n. lia.
Qed.

Lemma SpinnerSystem_run_app (l1 l2 : list SpinnerSystem.label) :
  forall s,
    SpinnerSystem.run (l1 ++ l2) s
    = match SpinnerSystem.run l1 s with
      | Some s' => SpinnerSystem.run l2 s'
      | None => None
      end.
Proof.
  induction l1 as [|l l1 IH]; intros s; [reflexivity|].
  cbn [app SpinnerSystem.run]. destruct (SpinnerSystem.step l s); [apply IH|reflexivity].
Qed.

(** X15: [Spinner.Run(fn)] on a fresh spinner with frames and a positive
    frame duration returns, however many frames are drawn while [fn] runs
    ([k]) and while the deferred [Stop] waits ([j]): what has been written
    is the [k + j] frames in order followed by the clearing of the line, the
    spinner is not running and no goroutine is left. *)
Theorem Spinner_Run_returns (s0 : Spinner.Spinner) (k j : nat) :
  Spinner.running s0 = false -> 0 < Spinner.frameDuration s0 ->
  Spinner.frames s0 <> [] -> Z.of_nat (k + j) < 2 ^ 63 ->
  exists s',
    SpinnerSystem.run (SpinnerRun.Run 0 k j) (SpinnerSystem.init s0) = Some s'
    /\ Spinner.IsRunning (SpinnerSystem.sp s') = false
    /\ SpinnerSystem.stopping s' = false
    /\ SpinnerSystem.sink s' =
         map (fun n => Spinner.render s0 (SpinnerRun.nth_frame (Spinner.frames s0) n))
             (seq 0 (k + j))
         ++ [Spinner.clearLine s0]
    /\ SpinnerSystem.anims s' = [SpinnerSystem.mkAnim 0 1 (Z.of_nat (k + j)) false].
Proof.
  intros Hr Hd Hfr Hk.
  unfold SpinnerRun.Run, SpinnerSystem.Stop, SpinnerSystem.init.
  cbn [SpinnerSystem.run]. unfold SpinnerSystem.step at 1.
  cbn [SpinnerSystem.sp SpinnerSystem.sink SpinnerSystem.chans SpinnerSystem.anims
       SpinnerSystem.stopping].
  rewrite Hr.
  replace (Spinner.frameDuration s0 <=? 0) with false by (symmetry; apply Z.leb_gt; lia).
  cbn [length app].
  rewrite SpinnerSystem_run_app.
  match goal with |- context [SpinnerSystem.run (repeat _ k) ?s1] => set (s1' := s1) end.
  rewrite (Spinner_ticks k s1' 0%nat (SpinnerSystem.mkAnim 0 1 0 true) eq_refl eq_refl Hfr
             ltac:(cbn; lia) ltac:(cbn [SpinnerSystem.frameIndex]; lia)).
  subst s1'.
  cbn [SpinnerSystem.sp SpinnerSystem.sink SpinnerSystem.chans SpinnerSystem.anims
       SpinnerSystem.stopping SpinnerSystem.a_done SpinnerSystem.a_finished
       SpinnerSystem.frameIndex].
  cbn [SpinnerSystem.run]. unfold SpinnerSystem.step at 1.
  cbn [SpinnerSystem.sp SpinnerSystem.sink SpinnerSystem.chans SpinnerSystem.anims
       SpinnerSystem.stopping Spinner.set_channels Spinner.doneCh Spinner.running negb].
  assert (Hc : SpinnerSystem.closed [false; false] 0 = false) by reflexivity.
  rewrite Hc. clear Hc.
  rewrite SpinnerSystem_run_app.
  match goal with |- context [SpinnerSystem.run (repeat _ j) ?s1] => set (s1' := s1) end.
  rewrite (Spinner_ticks j s1' 0%nat (SpinnerSystem.mkAnim 0 1 (0 + Z.of_nat k) true)
             eq_refl eq_refl Hfr
             ltac:(cbn [SpinnerSystem.frameIndex]; lia)
             ltac:(cbn [SpinnerSystem.frameIndex]; lia)).
  subst s1'.
  cbn [SpinnerSystem.sp SpinnerSystem.sink SpinnerSystem.chans SpinnerSystem.anims
       SpinnerSystem.stopping SpinnerSystem.a_done SpinnerSystem.a_finished
       SpinnerSystem.frameIndex].
  eexists. split; [reflexivity|].
  split; [reflexivity|]. split; [reflexivity|]. split.
  - cbn [SpinnerSystem.sink app].
    change (Spinner.clearLine (Spinner.set_channels s0 (Some 0%nat) (Some 1%nat) true))
      with (Spinner.clearLine s0).
    apply (f_equal (fun l => l ++ [Spinner.clearLine s0])).
    rewrite seq_app, map_app. apply (f_equal (app _)).
    rewrite (seq_add_map (0 + k) j), map_map. apply map_ext. intros n.
    change (Spinner.render (Spinner.set_channels s0 (Some 0%nat) (Some 1%nat) true))
      with (Spinner.render s0).
    change (Spinner.frames (Spinner.set_channels s0 (Some 0%nat) (Some 1%nat) true))
      with (Spinner.frames s0).
    do 2 f_equal. lia.
  - cbn [SpinnerSystem.anims]. cbn. do 2 f_equal. lia.
Qed.

Lemma Spinner_Run_returns_witness :
  exists s',
    SpinnerSystem.run (SpinnerRun.Run 0 2 1)
      (SpinnerSystem.init (SpinnerRun.WithMessage "Loading")) = Some s'
    /\ Spinner.IsRunning (SpinnerSystem.sp s') = false
    /\ SpinnerSystem.sink s' =
         [String.append CR "Loading |"; String.append CR "Loading /";
          String.append CR "Loading -";
          String.append CR (String.append "         " CR)].
Proof.
  destruct (Spinner_Run_returns (SpinnerRun.WithMessage "Loading") 2 1
              eq_refl eq_refl ltac:(discriminate) eq_refl)
    as [s' [R [H1 [_ [H2 _]]]]].
  exists s'. split; [exact R|]. split; [exact H1|]. rewrite H2. reflexivity.
Defined.



(** ** [MultiSpinner]: the prefix follows the label *)

Definition labelled (ms : MultiSpinner.MultiSpinner) : Prop :=
  forall name ls, ms !! name = Some ls ->
    Spinner.prefix (MultiSpinner.spinner ls)
    = String.append (MultiSpinner.label ls) " ".

Lemma New_last_option (opts : list Spinner.Option) (o : Spinner.Option) :
  Spinner.New (opts ++ [o]) = o (Spinner.New opts).
Proof. unfold Spinner.New. rewrite fold_left_app. reflexivity. Qed.

Lemma labelled_apply (ms : MultiSpinner.MultiSpinner) (o : MultiSpinnerOps.op) :
  labelled ms -> labelled (MultiSpinnerOps.apply ms o).
Proof.
  intros Hl name ls. destruct o as [n l opts|n l]; cbn [MultiSpinnerOps.apply].
  - unfold MultiSpinner.Add. cbv zeta. rewrite New_last_option.
    intros E. apply lookup_insert_Some in E. destruct E as [[_ <-]|[_ E]].
    + reflexivity.
    + exact (Hl name ls E).
  - unfold MultiSpinnerOps.UpdateLabel.
    destruct (ms !! n) as [ls0|] eqn:En; [|apply Hl].
    intros E. apply lookup_insert_Some in E. destruct E as [[_ <-]|[_ E]].
    + reflexivity.
    + exact (Hl name ls E).
Qed.

(** X17: in a [MultiSpinner] the prefix of every spinner is its label
    followed by a blank, after any sequence of [Add] and [UpdateLabel]: [Add]
    appends its [WithPrefix] after the caller's options, so a [WithPrefix]
    passed to [Add] is overridden, and [UpdateLabel] sets both together.  So
    every frame such a spinner draws begins with the label. *)
Theorem MultiSpinner_prefix_is_label (ops : list MultiSpinnerOps.op) :
  let ms := fold_left MultiSpinnerOps.apply ops MultiSpinner.NewMultiSpinner in
  forall name ls, ms !! name = Some ls ->
    Spinner.prefix (MultiSpinner.spinner ls) = String.append (MultiSpinner.label ls) " "
    /\ forall frame,
         Spinner.render (MultiSpinner.spinner ls) frame
         = String.append CR
             (String.append (String.append (MultiSpinner.label ls) " ")
                (String.append (utf8 frame) (Spinner.suffix (MultiSpinner.spinner ls)))).
Proof.
  cbv zeta.
  assert (H : labelled (fold_left MultiSpinnerOps.apply ops MultiSpinner.NewMultiSpinner)).
  { assert (G : forall ms, labelled ms -> labelled (fold_left MultiSpinnerOps.apply ops ms)).
    { induction ops as [|o ops IH]; intros ms Hl; [exact Hl|].
      cbn [fold_left]. apply IH, labelled_apply, Hl. }
    apply G. intros name ls E. unfold MultiSpinner.NewMultiSpinner in E.
    rewrite lookup_empty in E. discriminate. }
  intros name ls E. pose proof (H name ls E) as Hp. split; [exact Hp|].
  intros frame. unfold Spinner.render. rewrite Hp. reflexivity.
Qed.

Lemma MultiSpinner_prefix_is_label_witness :
  exists ls,
    fold_left MultiSpinnerOps.apply
      [MultiSpinnerOps.OpAdd "db" "Connecting" [Spinner.WithPrefix "mine"; Spinner.WithSuffix "..."];
       MultiSpinnerOps.OpUpdateLabel "db" "Migrating"; MultiSpinnerOps.OpUpdateLabel "cache" "Warming"]
      MultiSpinner.NewMultiSpinner !! "db"%string = Some ls
    /\ Spinner.prefix (MultiSpinner.spinner ls) = "Migrating "%string
    /\ Spinner.render (MultiSpinner.spinner ls) 124
       = String.append CR "Migrating |..."%string.
Proof.
  eexists. split; [vm_compute; reflexivity|].
  match goal with |- Spinner.prefix (MultiSpinner.spinner ?ls) = _ /\ _ =>
    destruct (MultiSpinner_prefix_is_label
                [MultiSpinnerOps.OpAdd "db" "Connecting" [Spinner.WithPrefix "mine"; Spinner.WithSuffix "..."];
                 MultiSpinnerOps.OpUpdateLabel "db" "Migrating"; MultiSpinnerOps.OpUpdateLabel "cache" "Warming"]
                "db"%string ls ltac:(vm_compute; reflexivity)) as [H1 H2]
  end.
  split; [exact H1|exact (H2 124)].
Defined.

(** ** [MultiBar] by name *)

Lemma Stop_frame (b : Bar) :
  0 <= totalWidth b < 2 ^ 62 ->
  exists b1 out, Stop b = Some (b1, out) /\ stopped b1 = true
                 /\ totalWidth b1 = totalWidth b /\ config b1 = config b
                 /\ started b1 = started b /\ lastProgress b1 = lastProgress b.
Proof.
  intros Hw. unfold Stop. destruct (stopped b) eqn:G.
  - exists b, []. repeat split. exact G.
  - rewrite (clearLine_chunk (set_stopped b true) Hw).
    eexists. eexists. split; [reflexivity|]. repeat split.
Qed.

Lemma Start_running_noop (b : Bar) (now : Z) :
  started b = true -> stopped b = false -> Start now b = Some (b, []).
Proof. intros Hs Ht. unfold Start. rewrite Hs, Ht. reflexivity. Qed.

(** X18: [MultiBar.Start] and [MultiBar.Stop] print their line about the
    bar whatever state the bar is in.  A second [Stop(name)] leaves the
    registry as it is and writes nothing to the bar's [Writer], but prints
    "<label>: Complete!" again; a second [Start(name)] does not restart the
    bar, but prints "<label>:" again. *)
Theorem MultiBar_repeated_Start_Stop (mb : MultiBar.MultiBar) (name : string)
    (lb : MultiBar.LabeledBar) (now now' : Z) :
  mb !! name = Some lb -> 0 <= totalWidth (MultiBar.bar lb) < 2 ^ 62 ->
  (exists mb1 out1,
      MultiBarOps.Stop name mb = Some (mb1, out1)
      /\ MultiBarOps.Stop name mb1
         = Some (mb1, [(MultiBarOps.ToStdout,
                        String.append (MultiBar.label lb)
                          (String.append ": Complete!" MultiBarOps.LF))]))
  /\ (exists mb1 out1,
        MultiBarOps.Start now name mb = Some (mb1, out1)
        /\ MultiBarOps.Start now' name mb1
           = Some (mb1, [(MultiBarOps.ToStdout,
                          String.append (MultiBar.label lb)
                            (String.append ":" MultiBarOps.LF))])).
Proof.
  intros Hl Hw. split.
  - destruct (Stop_frame (MultiBar.bar lb) Hw) as [b1 [out [S1 [H1 _]]]].
    unfold MultiBarOps.Stop at 1. rewrite Hl, S1.
    eexists. eexists. split; [reflexivity|].
    unfold MultiBarOps.Stop. rewrite lookup_insert_eq.
    cbn [MultiBarOps.set_bar MultiBar.bar MultiBar.label MultiBar.line].
    rewrite (Bar_Stop_stopped_noop b1 H1).
    cbn [MultiBarOps.set_bar MultiBar.bar MultiBar.label MultiBar.line
         MultiBarOps.written map app].
    rewrite insert_insert_eq. reflexivity.
  - destruct (Start_total (MultiBar.bar lb) now Hw) as [b1 [out [S1 [_ [H1 H2]]]]].
    unfold MultiBarOps.Start at 1. rewrite Hl, S1.
    eexists. eexists. split; [reflexivity|].
    unfold MultiBarOps.Start. rewrite lookup_insert_eq.
    cbn [MultiBarOps.set_bar MultiBar.bar MultiBar.label MultiBar.line].
    rewrite (Start_running_noop b1 now' H1 H2).
    cbn [MultiBarOps.set_bar MultiBar.bar MultiBar.label MultiBar.line
         MultiBarOps.written map].
    rewrite insert_insert_eq. reflexivity.
Qed.

Lemma MultiBar_repeated_Start_Stop_witness :
  let mb := MultiBar.Add (Some 80) "dl" "Download" StyleDefault [] MultiBar.NewMultiBar in
  exists mb1 out1,
    MultiBarOps.Stop "dl" mb = Some (mb1, out1)
    /\ MultiBarOps.Stop "dl" mb1
       = Some (mb1, [(MultiBarOps.ToStdout,
                      String.append "Download"
                        (String.append ": Complete!" MultiBarOps.LF))]).
Proof.
  cbv zeta.
  refine (proj1 (MultiBar_repeated_Start_Stop _ "dl"
                   (MultiBar.mkLabeledBar (NewBarWithConfig (Some 80) StyleDefault [])
                      "Download" 0) 0 0 _ _)).
  - vm_compute. reflexivity.
  - vm_compute. split; [discriminate|reflexivity].
Defined.

(** ** [MultiBar.StopAll] *)

Definition sane_bars (mb : MultiBar.MultiBar) : Prop :=
  forall name lb, mb !! name = Some lb -> 0 <= totalWidth (MultiBar.bar lb) < 2 ^ 62.

(** What [StopAll] keeps of a registry. *)
Definition StopAll_keeps (mb mb' : MultiBar.MultiBar) : Prop :=
  (forall name, mb !! name = None -> mb' !! name = None)
  /\ forall name lb, mb !! name = Some lb ->
       exists lb', mb' !! name = Some lb'
                   /\ MultiBar.label lb' = MultiBar.label lb
                   /\ MultiBar.line lb' = MultiBar.line lb
                   /\ totalWidth (MultiBar.bar lb') = totalWidth (MultiBar.bar lb)
                   /\ lastProgress (MultiBar.bar lb') = lastProgress (MultiBar.bar lb)
                   /\ (stopped (MultiBar.bar lb) = true ->
                       stopped (MultiBar.bar lb') = true).

Lemma written_to_Writer (out : list string) :
  Forall (fun c => fst c = MultiBarOps.ToWriter) (MultiBarOps.written out).
Proof.
  unfold MultiBarOps.written. induction out as [|x out IH]; constructor;
    [reflexivity|exact IH].
Qed.

Lemma StopAll_spec (order : list string) :
  forall mb, sane_bars mb ->
  exists mb' out,
    MultiBarOps.StopAll order mb = Some (mb', out)
    /\ StopAll_keeps mb mb'
    /\ (forall name lb', In name order -> mb' !! name = Some lb' ->
                         stopped (MultiBar.bar lb') = true)
    /\ Forall (fun c => fst c = MultiBarOps.ToWriter) out.
Proof.
  induction order as [|name rest IH]; intros mb Hsane.
  - exists mb, []. split; [reflexivity|]. split; [|split].
    + split; [auto|]. intros n lb E. exists lb. repeat split; auto.
    + intros n lb' [].
    + constructor.
  - cbn [MultiBarOps.StopAll].
    destruct (mb !! name) as [lb|] eqn:El.
    + destruct (Stop_frame (MultiBar.bar lb) (Hsane name lb El))
        as [b1 [out [S1 [Hst [Hw [_ [_ Hp]]]]]]].
      rewrite S1.
      set (mb1 := <[name := MultiBarOps.set_bar lb b1]> mb).
      assert (Hsane1 : sane_bars mb1).
      { intros n l E. apply lookup_insert_Some in E.
        destruct E as [[_ <-]|[_ E]]; [|exact (Hsane n l E)].
        cbn [MultiBarOps.set_bar MultiBar.bar]. rewrite Hw. exact (Hsane name lb El). }
      destruct (IH mb1 Hsane1) as [mb' [out' [R [[K1 K2] [Hall Hout]]]]].
      rewrite R. exists mb', (MultiBarOps.written out ++ out').
      split; [reflexivity|]. split; [|split].
      * split.
        -- intros n E. apply K1. subst mb1.
           rewrite lookup_insert_ne by congruence. exact E.
        -- intros n l E. destruct (decide (n = name)) as [->|Hne].
           ++ rewrite El in E. injection E as <-.
              destruct (K2 name (MultiBarOps.set_bar lb b1)) as [lb' [E' [A [B [C [D F]]]]]].
              { subst mb1. apply lookup_insert_eq. }
              cbn [MultiBarOps.set_bar MultiBar.bar MultiBar.label MultiBar.line] in *.
              exists lb'. split; [exact E'|]. split; [exact A|]. split; [exact B|].
              split; [congruence|]. split; [congruence|]. intros _. exact (F Hst).
           ++ apply K2. subst mb1. rewrite lookup_insert_ne by congruence. exact E.
      * intros n lb' [<-|Hin] E.
        -- destruct (K2 name (MultiBarOps.set_bar lb b1)) as [lb'' [E' [_ [_ [_ [_ F]]]]]].
           { subst mb1. apply lookup_insert_eq. }
           rewrite E in E'. injection E' as <-. exact (F Hst).
        -- exact (Hall n lb' Hin E).
      * apply Forall_app. split; [apply written_to_Writer|exact Hout].
    + destruct (IH mb Hsane) as [mb' [out' [R [[K1 K2] [Hall Hout]]]]].
      exists mb', out'. split; [exact R|]. split; [split; assumption|].
      split; [|exact Hout].
      intros n lb' [<-|Hin] E.
      * rewrite (K1 name El) in E. discriminate.
      * exact (Hall n lb' Hin E).
Qed.

(** X19: [StopAll] stops every bar of the registry, in whatever order the
    [range] over the map meets them: afterwards every bar answers
    [IsStopped], with its label, line and progress as before, no entry has
    been added, and nothing has been printed to the standard output (no
    "Complete!" line, unlike [Stop(name)]). *)
Theorem MultiBar_StopAll_stops_all (mb : MultiBar.MultiBar) (order : list string) :
  sane_bars mb -> (forall name, is_Some (mb !! name) -> In name order) ->
  exists mb' out,
    MultiBarOps.StopAll order mb = Some (mb', out)
    /\ (forall name lb, mb !! name = Some lb ->
          exists lb', mb' !! name = Some lb'
                      /\ IsStopped (MultiBar.bar lb') = true
                      /\ MultiBar.label lb' = MultiBar.label lb
                      /\ MultiBar.line lb' = MultiBar.line lb
                      /\ GetProgress (MultiBar.bar lb') = GetProgress (MultiBar.bar lb))
    /\ (forall name, mb !! name = None -> mb' !! name = None)
    /\ Forall (fun c => fst c = MultiBarOps.ToWriter) out.
Proof.
  intros Hsane Hcov.
  destruct (StopAll_spec order mb Hsane) as [mb' [out [R [[K1 K2] [Hall Hout]]]]].
  exists mb', out. split; [exact R|]. split; [|split; assumption].
  intros name lb E. destruct (K2 name lb E) as [lb' [E' [A [B [_ [D _]]]]]].
  exists lb'. split; [exact E'|]. split.
  - exact (Hall name lb' (Hcov name (ex_intro _ lb E)) E').
  - split; [exact A|]. split; [exact B|exact D].
Qed.

Lemma MultiBar_StopAll_stops_all_witness :
  let mb := MultiBar.Add (Some 80) "b" "Second" StyleBlocks []
              (MultiBar.Add (Some 80) "a" "First" StyleDefault [] MultiBar.NewMultiBar) in
  exists mb' out,
    MultiBarOps.StopAll ["b"; "a"]%string mb = Some (mb', out)
    /\ (forall name lb, mb !! name = Some lb ->
          exists lb', mb' !! name = Some lb'
                      /\ IsStopped (MultiBar.bar lb') = true
                      /\ MultiBar.label lb' = MultiBar.label lb
                      /\ MultiBar.line lb' = MultiBar.line lb
                      /\ GetProgress (MultiBar.bar lb') = GetProgress (MultiBar.bar lb))
    /\ (forall name, mb !! name = None -> mb' !! name = None)
    /\ Forall (fun c => fst c = MultiBarOps.ToWriter) out.
Proof.
  cbv zeta. apply MultiBar_StopAll_stops_all.
  - intros name lb E. unfold MultiBar.Add in E. cbv zeta in E.
    apply lookup_insert_Some in E. destruct E as [[_ <-]|[_ E]].
    + vm_compute. split; [discriminate|reflexivity].
    + apply lookup_insert_Some in E. destruct E as [[_ <-]|[_ E]].
      * vm_compute. split; [discriminate|reflexivity].
      * unfold MultiBar.NewMultiBar in E. rewrite lookup_empty in E. discriminate.
  - intros name [lb E]. unfold MultiBar.Add in E. cbv zeta in E.
    apply lookup_insert_Some in E. destruct E as [[<- _]|[_ E]]; [left; reflexivity|].
    apply lookup_insert_Some in E. destruct E as [[<- _]|[_ E]];
      [right; left; reflexivity|].
    unfold MultiBar.NewMultiBar in E. rewrite lookup_empty in E. discriminate.
Defined.

(** X20: [MultiBar.Start], [Stop] and [SetProgress] with a name that is
    not registered do nothing and write nothing; with a registered name they
    touch that one entry only, and leave its label and line as they are. *)
Theorem MultiBar_ops_touch_one_entry {P : Platform} (mb : MultiBar.MultiBar)
    (name : string) (now : Z) (p : float) :
  (mb !! name = None ->
   MultiBarOps.Start now name mb = Some (mb, [])
   /\ MultiBarOps.Stop name mb = Some (mb, [])
   /\ MultiBarOps.SetProgress now name p mb = (mb, []))
  /\ forall mb' out,
       MultiBarOps.Start now name mb = Some (mb', out)
       \/ MultiBarOps.Stop name mb = Some (mb', out)
       \/ MultiBarOps.SetProgress now name p mb = (mb', out) ->
       (forall other, other <> name -> mb' !! other = mb !! other)
       /\ (forall lb, mb !! name = Some lb ->
             exists lb', mb' !! name = Some lb'
                         /\ MultiBar.label lb' = MultiBar.label lb
                         /\ MultiBar.line lb' = MultiBar.line lb).
Proof.
  split.
  - intros E. unfold MultiBarOps.Start, MultiBarOps.Stop, MultiBarOps.SetProgress.
    rewrite E. repeat split.
  - intros mb' out H.
    unfold MultiBarOps.Start, MultiBarOps.Stop, MultiBarOps.SetProgress in H.
    destruct (mb !! name) as [lb|] eqn:El.
    + assert (Hins : exists b, mb' = <[name := MultiBarOps.set_bar lb b]> mb).
      { destruct H as [H|[H|H]].
        - destruct (Start now (MultiBar.bar lb)) as [[b o]|]; [|discriminate].
          injection H as <- _. eauto.
        - destruct (Stop (MultiBar.bar lb)) as [[b o]|]; [|discriminate].
          injection H as <- _. eauto.
        - destruct (SetProgress now p (MultiBar.bar lb)) as [b o].
          injection H as <- _. eauto. }
      destruct Hins as [b ->]. split.
      * intros other Hne. apply lookup_insert_ne. congruence.
      * intros lb0 E0. injection E0 as <-. eexists.
        split; [apply lookup_insert_eq|]. split; reflexivity.
    + assert (E : mb' = mb) by (destruct H as [H|[H|H]]; injection H as <- _; reflexivity).
      subst mb'. split; [reflexivity|]. intros lb E. discriminate.
Qed.

(** ** [Quick] and [DownloadProgress]: the quotients *)

(** An integer below 2^53 divided by itself is the float 1. *)
Lemma float_div_self (n : Z) :
  0 < n < 2 ^ 53 -> (float64_of_int n / float64_of_int n)%float = one.
Proof.
  intros Hn. destruct (float64_of_int_canonical n Hn) as [m [e [E [Hd _]]]].
  apply Prim2SF_inj. rewrite div_spec, E.
  unfold SF64div, SFdiv, SFdiv_core_binary. cbn [Zdigits2 xorb]. rewrite Hd.
  replace (53 + e - (53 + e)) with 0 by lia. replace (e - e) with 0 by lia.
  change (Z.min (fexp prec emax 0) 0) with (-53). change (0 - -53) with 53.
  cbv zeta. cbv iota.
  rewrite Z.shiftl_mul_pow2 by lia.
  destruct (Z.div_eucl (Z.pos m * 2 ^ 53) (Z.pos m)) as [q r] eqn:Eq.
  assert (Hq : q = 2 ^ 53).
  { transitivity ((Z.pos m * 2 ^ 53) / Z.pos m).
    - unfold Z.div. rewrite Eq. reflexivity.
    - rewrite Z.mul_comm. apply Z.div_mul. lia. }
  assert (Hr : r = 0).
  { transitivity ((Z.pos m * 2 ^ 53) mod Z.pos m).
    - unfold Z.modulo. rewrite Eq. reflexivity.
    - rewrite Z.mul_comm. apply Z.mod_mul. lia. }
  subst q r.
  assert (Hloc : new_location (Z.pos m) 0 = loc_Exact).
  { unfold new_location, new_location_even, new_location_odd.
    destruct (Z.even (Z.pos m)); reflexivity. }
  rewrite Hloc. vm_compute. reflexivity.
Qed.

(** A positive integer below 2^53 divided by the integer 0 is +Inf. *)
Lemma float_div_zero (k : Z) :
  0 < k < 2 ^ 53 -> (float64_of_int k / float64_of_int 0)%float = infinity.
Proof.
  intros Hk. destruct (float64_of_int_canonical k Hk) as [m [e [E _]]].
  apply Prim2SF_inj. rewrite div_spec, E. reflexivity.
Qed.

Lemma SetProgress_running_fst {P : Platform} (b : Bar) (now : Z) (p : float) :
  started b = true -> stopped b = false ->
  fst (SetProgress now p b) = set_lastProgress b (clamp p).
Proof. intros Hs Ht. rewrite (SetProgress_running b now p Hs Ht). reflexivity. Qed.

Lemma stepFunc_fst {P : Platform} (steps now cs : Z) (b : Bar) :
  fst (ProgressConvenience.stepFunc steps now (b, cs))
  = (fst (SetProgress now
            (float64_of_int (wrap64 (cs + 1)) / float64_of_int steps)%float b),
     wrap64 (cs + 1)).
Proof.
  unfold ProgressConvenience.stepFunc.
  destruct (SetProgress now _ b) as [b' out]. reflexivity.
Qed.

Lemma downloadFunc_fst {P : Platform} (total now bytes d : Z) (b : Bar) :
  fst (ProgressConvenience.downloadFunc total now bytes (b, d))
  = (fst (SetProgress now
            (float64_of_int (wrap64 (d + bytes)) / float64_of_int total)%float b),
     wrap64 (d + bytes)).
Proof.
  unfold ProgressConvenience.downloadFunc.
  destruct (SetProgress now _ b) as [b' out]. reflexivity.
Qed.

Lemma wrap64_53 (z : Z) : 0 <= z < 2 ^ 53 -> wrap64 z = z.
Proof.
  intros Hz. apply wrap64_small.
  change (2 ^ 53) with 9007199254740992 in Hz.
  change (2 ^ 63) with 9223372036854775808. lia.
Qed.

(** X21: the step function of [Quick(steps, fn)] on its running bar.  With
    [steps] from 1 to 2^53 - 1, the call that brings the counter to [steps]
    stores exactly 1: the bar ends full.  With [steps = 0] the quotient is
    +Inf, which is clamped: every call stores 1, from the first on. *)
Theorem Quick_reaches_one {P : Platform} (b : Bar) (now steps currentStep : Z) :
  started b = true -> stopped b = false ->
  (1 <= steps < 2 ^ 53 ->
   fst (ProgressConvenience.stepFunc steps now (b, steps - 1))
   = (set_lastProgress b one, steps))
  /\ (0 <= currentStep < 2 ^ 53 - 1 ->
      fst (ProgressConvenience.stepFunc 0 now (b, currentStep))
      = (set_lastProgress b one, currentStep + 1)).
Proof.
  intros Hs Ht. split; intros H; rewrite stepFunc_fst, (SetProgress_running_fst _ _ _ Hs Ht).
  - replace (steps - 1 + 1) with steps by lia.
    rewrite wrap64_53 by lia. rewrite float_div_self by lia. reflexivity.
  - rewrite wrap64_53 by lia. rewrite float_div_zero by lia. reflexivity.
Qed.

Lemma Quick_reaches_one_witness :
  exists b chunk,
    Start 0 (ProgressConvenience.Quick_bar (Some 80)) = Some (b, [chunk])
    /\ fst (@ProgressConvenience.stepFunc amd64 3 0 (b, 3 - 1))
       = (set_lastProgress b one, 3)
    /\ fst (@ProgressConvenience.stepFunc amd64 0 0 (b, 0))
       = (set_lastProgress b one, 0 + 1).
Proof.
  eexists. eexists. split; [reflexivity|].
  match goal with |- fst (@ProgressConvenience.stepFunc _ _ _ (?b, _)) = _ /\ _ =>
    pose proof (@Quick_reaches_one amd64 b 0 3 0 eq_refl eq_refl) as [H1 H2]
  end.
  split.
  - apply H1. vm_compute. split; [discriminate|reflexivity].
  - apply H2. vm_compute. split; [discriminate|reflexivity].
Defined.

(** X22: the report function of [DownloadProgress(totalBytes, fn)] on its
    running bar.  When the bytes reported add up to [totalBytes] (from 1 to
    2^53 - 1) the progress stored is exactly 1.  With [totalBytes = 0], any
    positive count gives +Inf and stores 1, and a count of 0 gives 0/0: the
    bar then holds a NaN. *)
Theorem DownloadProgress_quotients {P : Platform} (b : Bar)
    (now totalBytes downloadedBytes bytes : Z) :
  started b = true -> stopped b = false ->
  (1 <= totalBytes < 2 ^ 53 -> downloadedBytes + bytes = totalBytes ->
   fst (ProgressConvenience.downloadFunc totalBytes now bytes (b, downloadedBytes))
   = (set_lastProgress b one, totalBytes))
  /\ (0 < downloadedBytes + bytes < 2 ^ 53 ->
      fst (ProgressConvenience.downloadFunc 0 now bytes (b, downloadedBytes))
      = (set_lastProgress b one, downloadedBytes + bytes))
  /\ (downloadedBytes + bytes = 0 ->
      fst (ProgressConvenience.downloadFunc 0 now bytes (b, downloadedBytes))
      = (set_lastProgress b nan, 0)
      /\ IsNaN (GetProgress (set_lastProgress b nan)) = true).
Proof.
  intros Hs Ht. split; [|split].
  - intros H E. rewrite downloadFunc_fst, (SetProgress_running_fst _ _ _ Hs Ht), E.
    rewrite wrap64_53 by lia. rewrite float_div_self by lia. reflexivity.
  - intros H. rewrite downloadFunc_fst, (SetProgress_running_fst _ _ _ Hs Ht).
    rewrite wrap64_53 by lia. rewrite float_div_zero by lia. reflexivity.
  - intros E. rewrite downloadFunc_fst, (SetProgress_running_fst _ _ _ Hs Ht), E.
    split; reflexivity.
Qed.

Lemma DownloadProgress_quotients_witness :
  exists b chunk,
    Start 0 (ProgressConvenience.DownloadProgress_bar (Some 80)) = Some (b, [chunk])
    /\ fst (@ProgressConvenience.downloadFunc amd64 1000 0 400 (b, 600))
       = (set_lastProgress b one, 1000)
    /\ fst (@ProgressConvenience.downloadFunc amd64 0 0 0 (b, 0))
       = (set_lastProgress b nan, 0).
Proof.
  eexists. eexists. split; [reflexivity|].
  match goal with |- fst (@ProgressConvenience.downloadFunc _ _ _ _ (?b, _)) = _ /\ _ =>
    pose proof (@DownloadProgress_quotients amd64 b 0 1000 600 400 eq_refl eq_refl)
      as [H1 _];
    pose proof (@DownloadProgress_quotients amd64 b 0 0 0 0 eq_refl eq_refl)
      as [_ [_ H3]]
  end.
  split.
  - apply H1; [vm_compute; split; [discriminate|reflexivity]|reflexivity].
  - exact (proj1 (H3 eq_refl)).
Defined.

(** ** The first progress bar *)

(** X23: the first bar's [SetProgress] does not clamp and builds the track
    with [strings.Repeat].  For a number of [0, 1] (one the clamping would
    leave as it is) and a width from 1 to 2^52 it stores the number and
    draws a track of exactly the width; outside that range it can panic: on
    a bar of width 10, [SetProgress(1.5)] asks for -5 empty cells and
    [SetProgress(-0.5)] for -5 filled ones. *)
Theorem Progress0_SetProgress_no_clamp {P : Platform} (b : Progress0.Bar) (now : Z)
    (p : float) :
  1 <= Progress0.totalWidth b <= 2 ^ 52 -> IsNaN p = false -> clamp p = p ->
  (exists n,
      0 <= n <= Progress0.totalWidth b
      /\ Progress0.SetProgress now p b
         = Some (Progress0.mkBar (Progress0.totalWidth b) p,
                 [String.append CR
                    (String.append (repeat_string "#" (Z.to_nat n))
                       (repeat_string " " (Z.to_nat (Progress0.totalWidth b - n))))]))
  /\ Progress0.SetProgress now 1.5 (Progress0.NewBar 11) = None
  /\ Progress0.SetProgress now (-0.5) (Progress0.NewBar 11) = None.
Proof.
  intros Hw Hnan Hc. split; [|split].
  - destruct (int_mul_unit_bounded (Progress0.totalWidth b) p) as [Hn _];
      [lia|exact Hnan|].
    rewrite Hc in Hn.
    exists (int_of_float64 (float64_of_int (Progress0.totalWidth b) * p)).
    split; [exact Hn|].
    unfold Progress0.SetProgress. cbn [Progress0.totalWidth].
    set (n := int_of_float64 (float64_of_int (Progress0.totalWidth b) * p)) in *.
    clearbody n.
    rewrite wrap64_small
      by (change (2 ^ 52) with 4503599627370496 in Hw;
          change (2 ^ 63) with 9223372036854775808; lia).
    unfold Repeat.
    replace (n <? 0) with false by (symmetry; apply Z.ltb_ge; lia).
    replace (Progress0.totalWidth b - n <? 0) with false
      by (symmetry; apply Z.ltb_ge; lia).
    reflexivity.
  - unfold Progress0.SetProgress, int_of_float64.
    change (Progress0.totalWidth (Progress0.mkBar
              (Progress0.totalWidth (Progress0.NewBar 11)) 1.5)) with 10.
    change (trunc_spec (Prim2SF (float64_of_int 10 * 1.5))) with (Some 15).
    change (in_int64 15) with true. reflexivity.
  - unfold Progress0.SetProgress, int_of_float64.
    change (Progress0.totalWidth (Progress0.mkBar
              (Progress0.totalWidth (Progress0.NewBar 11)) (-0.5))) with 10.
    change (trunc_spec (Prim2SF (float64_of_int 10 * -0.5))) with (Some (-5)).
    change (in_int64 (-5)) with true. reflexivity.
Qed.

Lemma Progress0_SetProgress_no_clamp_witness :
  exists n,
    0 <= n <= 10
    /\ @Progress0.SetProgress amd64 0 0.75 (Progress0.NewBar 11)
       = Some (Progress0.mkBar 10 0.75,
               [String.append CR
                  (String.append (repeat_string "#" (Z.to_nat n))
                     (repeat_string " " (Z.to_nat (10 - n))))]).
Proof.
  refine (proj1 (@Progress0_SetProgress_no_clamp amd64 (Progress0.NewBar 11) 0 0.75%float
                   _ eq_refl eq_refl)).
  vm_compute. split; discriminate.
Defined.

(** X24: the first bar has no fallback width: [NewBar] takes the terminal
    width less 1, error or not, and [clearLine] passes it to
    [strings.Repeat].  So [Start] and [Stop] panic exactly when the width
    reported is 0 or less, which is what [term.GetSize] reports when the
    output is no terminal. *)
Theorem Progress0_Start_panics_without_terminal (width now : Z) :
  - 2 ^ 63 < width < 2 ^ 63 ->
  (Progress0.Start now (Progress0.NewBar width) = None <-> width <= 0)
  /\ (Progress0.Stop (Progress0.NewBar width) = None <-> width <= 0)
  /\ (0 < width ->
      Progress0.Start now (Progress0.NewBar width)
      = Some (Progress0.mkBar (width - 1) zero,
              [String.append CR (repeat_string " " (Z.to_nat (width - 1)))])).
Proof.
  intros Hw.
  assert (E : Progress0.totalWidth (Progress0.NewBar width) = width - 1).
  { unfold Progress0.NewBar, Progress0.calculateWidth. cbn [Progress0.totalWidth].
    apply wrap64_small. change (2 ^ 63) with 9223372036854775808 in *. lia. }
  unfold Progress0.Start, Progress0.Stop, Progress0.clearLine, Repeat. rewrite E.
  destruct (width - 1 <? 0) eqn:G.
  - apply Z.ltb_lt in G. repeat split; try reflexivity; intros; lia.
  - apply Z.ltb_ge in G. repeat split; try discriminate; try lia.
Qed.

Lemma Progress0_Start_panics_without_terminal_witness :
  Progress0.Start 0 (Progress0.NewBar 0) = None
  /\ Progress0.Stop (Progress0.NewBar 0) = None.
Proof.
  destruct (Progress0_Start_panics_without_terminal 0 0
              ltac:(vm_compute; split; reflexivity)) as [H1 [H2 _]].
  split; [apply H1|apply H2]; lia.
Defined.

(** ** The first spinner *)

Definition Spinner0_inv (s : Spinner0.sys) : Prop :=
  (Spinner0.doneCh (Spinner0.sp s) = None -> Spinner0.anims s = [])
  /\ (length (Spinner0.anims s) <= 1)%nat.

Lemma Spinner0_inv_step (l : Spinner0.label) (s s' : Spinner0.sys) :
  Spinner0_inv s -> Spinner0.step l s = Some s' -> Spinner0_inv s'.
Proof.
  intros [I1 I2] Hstep. destruct s as [sp snk cs ans st].
  cbn [Spinner0.sp Spinner0.anims] in *.
  destruct l as [| | |g|g]; cbn [Spinner0.step] in Hstep;
    cbn [Spinner0.sp Spinner0.sink Spinner0.chans Spinner0.anims Spinner0.stopping]
      in Hstep.
  - destruct (Spinner0.doneCh sp) as [d|] eqn:Hd.
    + injection Hstep as <-. split; [intros E; cbn in E; congruence|exact I2].
    + destruct (Spinner0.frameDuration sp <=? 0); [discriminate|].
      injection Hstep as <-. rewrite (I1 eq_refl). split; [discriminate|].
      cbn. lia.
  - destruct (Spinner0.doneCh sp) as [d|] eqn:Hd.
    + destruct (SpinnerSystem.closed cs d); [discriminate|].
      injection Hstep as <-. split; [cbn; congruence|exact I2].
    + injection Hstep as <-. split; [exact (fun _ => I1 eq_refl)|exact I2].
  - destruct st; [|discriminate].
    destruct (Spinner0.finishedCh sp) as [f|]; [|discriminate].
    destruct (SpinnerSystem.closed cs f); [|discriminate].
    injection Hstep as <-. split; assumption.
  - destruct (ans !! g) as [a|] eqn:Hl; [|discriminate].
    destruct (Spinner0.alive a); [|discriminate].
    destruct (Spinner0.frame_at (Spinner0.frames sp) (Spinner0.i a)); [|discriminate].
    injection Hstep as <-. unfold Spinner0_inv. cbn [Spinner0.sp Spinner0.anims]. split.
    + intros E. rewrite (I1 E) in Hl. rewrite lookup_nil in Hl. discriminate.
    + rewrite length_insert. exact I2.
  - destruct (ans !! g) as [a|] eqn:Hl; [|discriminate].
    destruct (Spinner0.alive a && SpinnerSystem.closed cs (Spinner0.a_done a));
      [|discriminate].
    injection Hstep as <-. unfold Spinner0_inv. cbn [Spinner0.sp Spinner0.anims]. split.
    + intros E. rewrite (I1 E) in Hl. rewrite lookup_nil in Hl. discriminate.
    + rewrite length_insert. exact I2.
Qed.

Lemma closed_insert_mono (cs : list bool) (k d : nat) :
  SpinnerSystem.closed cs d = true -> SpinnerSystem.closed (<[k := true]> cs) d = true.
Proof.
  unfold SpinnerSystem.closed. intros H.
  destruct (decide (k = d)) as [->|Hne].
  - destruct (cs !! d) as [x|] eqn:E; [|discriminate].
    rewrite list_lookup_insert_eq by (apply lookup_lt_is_Some; eauto). reflexivity.
  - rewrite list_lookup_insert_ne by exact Hne. exact H.
Qed.

(** Once [doneCh] is closed the first spinner stays as it is: no step opens
    the channel, replaces it or adds a goroutine. *)
Lemma Spinner0_closed_step (l : Spinner0.label) (s s' : Spinner0.sys) (d : nat) :
  Spinner0.doneCh (Spinner0.sp s) = Some d ->
  SpinnerSystem.closed (Spinner0.chans s) d = true ->
  Spinner0.step l s = Some s' ->
  Spinner0.doneCh (Spinner0.sp s') = Some d
  /\ SpinnerSystem.closed (Spinner0.chans s') d = true
  /\ length (Spinner0.anims s') = length (Spinner0.anims s).
Proof.
  intros Hd Hc Hstep. destruct s as [sp snk cs ans st].
  cbn [Spinner0.sp Spinner0.anims Spinner0.chans] in *.
  destruct l as [| | |g|g]; cbn [Spinner0.step] in Hstep;
    cbn [Spinner0.sp Spinner0.sink Spinner0.chans Spinner0.anims Spinner0.stopping]
      in Hstep.
  - rewrite Hd in Hstep. injection Hstep as <-. auto.
  - rewrite Hd, Hc in Hstep. discriminate.
  - destruct st; [|discriminate].
    destruct (Spinner0.finishedCh sp) as [f|]; [|discriminate].
    destruct (SpinnerSystem.closed cs f); [|discriminate].
    injection Hstep as <-. auto.
  - destruct (ans !! g) as [a|]; [|discriminate].
    destruct (Spinner0.alive a); [|discriminate].
    destruct (Spinner0.frame_at (Spinner0.frames sp) (Spinner0.i a)); [|discriminate].
    injection Hstep as <-. cbn [Spinner0.sp Spinner0.anims Spinner0.chans].
    rewrite length_insert. auto.
  - destruct (ans !! g) as [a|]; [|discriminate].
    destruct (Spinner0.alive a && SpinnerSystem.closed cs (Spinner0.a_done a));
      [|discriminate].
    injection Hstep as <-. cbn [Spinner0.sp Spinner0.anims Spinner0.chans].
    rewrite length_insert. split; [exact Hd|]. split; [|reflexivity].
    apply closed_insert_mono. exact Hc.
Qed.

(** X25: the first spinner starts one goroutine in its life.  In every
    state reached from a new spinner at most one goroutine has ever been
    started; and once [Stop] has closed [doneCh], whatever is called
    afterwards, [Start] returns at once without a new goroutine and every
    further [Stop] panics, closing the closed channel. *)
Theorem Spinner0_one_goroutine_ever (s0 : Spinner0.Spinner)
    (ls ls' : list Spinner0.label) (s s' : Spinner0.sys) :
  Spinner0.doneCh s0 = None ->
  Spinner0.run ls (Spinner0.init s0) = Some s ->
  Spinner0.run ls' s = Some s' ->
  (length (Spinner0.anims s) <= 1)%nat
  /\ forall d, Spinner0.doneCh (Spinner0.sp s) = Some d ->
               SpinnerSystem.closed (Spinner0.chans s) d = true ->
               length (Spinner0.anims s') = length (Spinner0.anims s)
               /\ Spinner0.step Spinner0.StopEnter s' = None
               /\ Spinner0.step Spinner0.CallStart s' = Some s'.
Proof.
  intros H0 Hrun Hrun'.
  assert (Hinv : forall l t t', Spinner0_inv t -> Spinner0.run l t = Some t' ->
                                Spinner0_inv t').
  { induction l as [|x l IH]; intros t t' Hi R; cbn [Spinner0.run] in R.
    - injection R as <-. exact Hi.
    - destruct (Spinner0.step x t) as [t1|] eqn:E; [|discriminate].
      exact (IH t1 t' (Spinner0_inv_step x t t1 Hi E) R). }
  assert (Hi0 : Spinner0_inv (Spinner0.init s0)).
  { split; [reflexivity|cbn; lia]. }
  pose proof (Hinv ls _ s Hi0 Hrun) as [I1 I2].
  split; [exact I2|]. intros d Hd Hc.
  assert (Hkeep : forall l t t',
             Spinner0.doneCh (Spinner0.sp t) = Some d ->
             SpinnerSystem.closed (Spinner0.chans t) d = true ->
             Spinner0.run l t = Some t' ->
             Spinner0.doneCh (Spinner0.sp t') = Some d
             /\ SpinnerSystem.closed (Spinner0.chans t') d = true
             /\ length (Spinner0.anims t') = length (Spinner0.anims t)).
  { induction l as [|x l IH]; intros t t' Td Tc R; cbn [Spinner0.run] in R.
    - injection R as <-. auto.
    - destruct (Spinner0.step x t) as [t1|] eqn:E; [|discriminate].
      destruct (Spinner0_closed_step x t t1 d Td Tc E) as [A [B C]].
      destruct (IH t1 t' A B R) as [A' [B' C']]. rewrite C', C. auto. }
  destruct (Hkeep ls' s s' Hd Hc Hrun') as [A [B C]].
  split; [exact C|]. unfold Spinner0.step. rewrite A, B. split; reflexivity.
Qed.

Lemma Spinner0_one_goroutine_ever_witness :
  exists s s',
    Spinner0.run [Spinner0.CallStart; Spinner0.Tick 0; Spinner0.StopEnter;
                  Spinner0.Exit 0; Spinner0.StopLeave]
      (Spinner0.init (Spinner0.New [])) = Some s
    /\ Spinner0.run [Spinner0.CallStart; Spinner0.CallStart] s = Some s'
    /\ length (Spinner0.anims s') = 1%nat
    /\ Spinner0.step Spinner0.StopEnter s' = None.
Proof.
  eexists. eexists.
  match goal with |- ?R1 = Some ?s /\ ?R2 = Some ?s' /\ _ =>
    assert (E1 : R1 = Some s) by (vm_compute; reflexivity);
    assert (E2 : R2 = Some s') by (vm_compute; reflexivity)
  end.
  split; [exact E1|]. split; [exact E2|].
  destruct (proj2 (Spinner0_one_goroutine_ever (Spinner0.New []) _ _ _ _ eq_refl E1 E2)
              0%nat eq_refl eq_refl) as [H1 [H2 _]].
  split; [exact H1|exact H2].
Defined.

(** ** [Increment] *)

Lemma clamp_zero_plus (d : float) : clamp (zero + d) = clamp d.
Proof.
  destruct (Prim2SF d) as [[|]|s| |s m e] eqn:E.
  - assert (Hd : d = (-0)%float) by (apply Prim2SF_inj; rewrite E; reflexivity).
    subst d. reflexivity.
  - assert (Hd : d = zero) by (apply Prim2SF_inj; rewrite E; reflexivity).
    subst d. reflexivity.
  - f_equal. apply Prim2SF_inj. rewrite add_spec, E. reflexivity.
  - f_equal. apply Prim2SF_inj. rewrite add_spec, E. reflexivity.
  - f_equal. apply Prim2SF_inj. rewrite add_spec, E. reflexivity.
Qed.

Lemma clamped_plus_zero (q : float) : clamp q = q -> (q + zero)%float = q.
Proof.
  intros Hq. apply Prim2SF_inj. rewrite add_spec.
  change (Prim2SF zero) with (S754_zero false).
  destruct (Prim2SF q) as [[|]|s| |s m e] eqn:E; try reflexivity.
  exfalso.
  assert (Hd : q = (-0)%float) by (apply Prim2SF_inj; rewrite E; reflexivity).
  subst q. apply (f_equal Prim2SF) in Hq. vm_compute in Hq. discriminate.
Qed.

(** X26: [Increment(delta)] is [SetProgress(lastProgress + delta)].  On a
    bar whose progress is 0, as after [Start], it does exactly what
    [SetProgress(delta)] does, for every [delta] (NaN, the infinities and
    -0 included); and [Increment(0)] on a running bar leaves the progress it
    holds as it is. *)
Theorem Increment_from_zero {P : Platform} (b : Bar) (now : Z) (delta : float) :
  (GetProgress b = zero -> Increment now delta b = SetProgress now delta b)
  /\ (started b = true -> stopped b = false ->
      clamp (GetProgress b) = GetProgress b ->
      GetProgress (fst (Increment now zero b)) = GetProgress b).
Proof.
  unfold GetProgress, Increment. split.
  - intros H0. rewrite H0. unfold SetProgress.
    destruct (SetProgress_guard b); [reflexivity|].
    rewrite clamp_zero_plus. reflexivity.
  - intros Hs Ht Hq. rewrite (clamped_plus_zero _ Hq).
    rewrite (SetProgress_running b now _ Hs Ht). cbn [fst set_lastProgress lastProgress].
    exact Hq.
Qed.

Lemma Increment_from_zero_witness :
  exists b chunk,
    Start 0 (NewBarWithConfig None (mkBarConfig 8 "#" "." false false) [])
    = Some (b, [chunk])
    /\ @Increment amd64 0 0.25 b = @SetProgress amd64 0 0.25 b
    /\ snd (@Increment amd64 0 0.25 b) = [String.append CR "##......"].
Proof.
  eexists. eexists. split; [reflexivity|].
  match goal with |- @Increment _ _ ?d ?b = _ /\ _ =>
    pose proof (proj1 (@Increment_from_zero amd64 b 0 d) eq_refl) as H
  end.
  split; [exact H|]. vm_compute. reflexivity.
Defined.

(** ** [calculateETA] at the end *)

(** An integer below 2^53 goes through [float64], a division by 1 and
    [int] unchanged. *)
Lemma int_div_one {P : Platform} (K : Z) :
  0 <= K < 2 ^ 53 -> int_of_float64 (float64_of_int K / one) = K.
Proof.
  intros HK. destruct (Z.eq_dec K 0) as [->|Hne]; [reflexivity|].
  destruct (float64_of_int_canonical K ltac:(lia)) as [m [e [E [Hd [He Hm]]]]].
  unfold int_of_float64. rewrite div_spec, E.
  change (Prim2SF one) with (S754_finite false 4503599627370496 (-52)).
  unfold SF64div, SFdiv, SFdiv_core_binary. cbn [Zdigits2 xorb]. rewrite Hd.
  change (Z.pos (digits2_pos 4503599627370496)) with 53.
  replace (53 + e - (53 + -52)) with (e + 52) by lia.
  rewrite fexp_eq.
  replace (Z.min (Z.max (e + 52 - 53) (-1074)) (e - -52)) with (e - 1) by lia.
  replace (e - -52 - (e - 1)) with 53 by lia.
  cbv zeta. cbv iota.
  rewrite Z.shiftl_mul_pow2 by lia.
  destruct (Z.div_eucl (Z.pos m * 2 ^ 53) 4503599627370496) as [q r] eqn:Eq.
  assert (Hq : q = Z.pos m~0).
  { transitivity ((Z.pos m * 2 ^ 53) / 4503599627370496).
    - unfold Z.div. rewrite Eq. reflexivity.
    - change (2 ^ 53) with (2 * 4503599627370496). rewrite Z.mul_assoc.
      rewrite Z.div_mul by lia. lia. }
  assert (Hr : r = 0).
  { transitivity ((Z.pos m * 2 ^ 53) mod 4503599627370496).
    - unfold Z.modulo. rewrite Eq. reflexivity.
    - change (2 ^ 53) with (2 * 4503599627370496). rewrite Z.mul_assoc.
      apply Z.mod_mul. lia. }
  subst q r.
  change (new_location 4503599627370496 0) with loc_Exact.
  rewrite (binary_round_aux_exact (m~0) (e - 1) K).
  - rewrite (in_int64_small K K); [reflexivity|lia|lia].
  - lia.
  - lia.
  - change (Z.pos m~0) with (2 * Z.pos m). rewrite Hm.
    replace (- (e - 1)) with (1 + - e) by lia.
    rewrite Z.pow_add_r by lia. change (2 ^ 1) with 2. ring.
Qed.

(** X27: at a progress of 1 the estimate is the elapsed time itself, so
    nothing remains: whatever time has passed since [Start] (up to 2^53
    nanoseconds, some 104 days) the ETA reads "00:00", and the suffix
    " ETA: 00:00" takes 11 of the 12 cells reserved for it. *)
Theorem calculateETA_at_one {P : Platform} (b : Bar) (now : Z) :
  0 <= now - startTime b < 2 ^ 53 ->
  calculateETA now b one = "00:00"%string
  /\ (ShowETA (config b) = true -> eta_suffix now b one = " ETA: 00:00"%string).
Proof.
  intros He.
  assert (E : calculateETA now b one = "00:00"%string).
  { unfold calculateETA. change (PrimFloat.leb one zero) with false. cbv iota zeta.
    rewrite (int_div_one (now - startTime b) He).
    rewrite Z.sub_diag. change (wrap64 0) with 0. change (0 <? 0) with false.
    cbv iota. change (Z.quot 0 60000000000) with 0. change (Z.rem 0 60000000000) with 0.
    change (Z.quot 0 1000000000) with 0. change (Z.rem 0 1000000000) with 0.
    change (int_of_float64 (float64_of_int 0
                            + float64_of_int 0 / float64_of_int 60000000000)) with 0.
    change (int_of_float64 (float64_of_int 0
                            + float64_of_int 0 / float64_of_int 1000000000)) with 0.
    reflexivity. }
  split; [exact E|]. intros Hs. unfold eta_suffix. rewrite Hs, E. reflexivity.
Qed.

Lemma calculateETA_at_one_witness :
  exists b chunk,
    Start 5 (ProgressConvenience.DownloadProgress_bar (Some 80)) = Some (b, [chunk])
    /\ @calculateETA amd64 90000000005 b one = "00:00"%string
    /\ @calculateETA amd64 90000000005 b 0.5 = "01:30"%string.
Proof.
  eexists. eexists. split; [reflexivity|].
  match goal with |- @calculateETA _ ?n ?b one = _ /\ _ =>
    pose proof (proj1 (@calculateETA_at_one amd64 b n
                         ltac:(vm_compute; split; [discriminate|reflexivity]))) as H
  end.
  split; [exact H|vm_compute; reflexivity].
Defined.

(** ** [Restart] *)




(** ** The package [color] *)



(** *** [StripANSI] undoes [wrap] *)

Lemma skip_params_length (s : string) :
  (String.length (Color.skip_params s) <= String.length s)%nat.
Proof.
  induction s as [|c t IH]; cbn [Color.skip_params]; [lia|].
  destruct (Color.is_param c); cbn [String.length]; lia.
Qed.

Lemma match_ansi_shorter (s after : string) :
  Color.match_ansi s = Some after -> (String.length after < String.length s)%nat.
Proof.
  unfold Color.match_ansi. destruct s as [|e [|b rest]]; try discriminate.
  destruct (Ascii.eqb e (ascii_of_N 27) && Ascii.eqb b "["); [|discriminate].
  pose proof (skip_params_length rest) as Hl.
  destruct (Color.skip_params rest) as [|m r]; [discriminate|].
  destruct (Ascii.eqb m "m"); [|discriminate].
  intros E. injection E as <-. cbn [String.length] in *. lia.
Qed.

(** More fuel than bytes changes nothing. *)
Lemma replace_all_fuel (n : nat) :
  forall (m : nat) (s : string),
  (String.length s <= n)%nat -> (String.length s <= m)%nat ->
  Color.replace_all n s = Color.replace_all m s.
Proof.
  induction n as [|n IH]; intros m s Hn Hm.
  - destruct s as [|c t]; [|cbn in Hn; lia]. destruct m; reflexivity.
  - destruct m as [|m].
    + destruct s as [|c t]; [reflexivity|cbn in Hm; lia].
    + cbn [Color.replace_all].
      destruct (Color.match_ansi s) as [after|] eqn:E.
      * pose proof (match_ansi_shorter s after E). apply IH; lia.
      * destruct s as [|c t]; [reflexivity|]. cbn [String.length] in *.
        f_equal. apply IH; lia.
Qed.

Lemma StripANSI_fuel (n : nat) (s : string) :
  (String.length s <= n)%nat -> Color.replace_all n s = Color.StripANSI s.
Proof. intros H. unfold Color.StripANSI. apply replace_all_fuel; lia. Qed.

Lemma append_cons (c : ascii) (t x : string) :
  String.append (String c t) x = String c (String.append t x).
Proof. reflexivity. Qed.

(** A code is made of parameter bytes when skipping them leaves nothing. *)
Lemma skip_params_code (code rest : string) :
  Color.skip_params code = EmptyString ->
  Color.skip_params (String.append code (String "m" rest)) = String "m" rest.
Proof.
  induction code as [|c t IH]; intros H; [reflexivity|].
  rewrite append_cons. cbn [Color.skip_params] in *.
  destruct (Color.is_param c); [exact (IH H)|discriminate].
Qed.

Lemma match_ansi_escape (code rest : string) :
  Color.skip_params code = EmptyString ->
  Color.match_ansi (String.append (Color.escape code) rest) = Some rest.
Proof.
  intros H. unfold Color.escape, Color.ESC, byte.
  change (String.append (String.append (String (ascii_of_N (Z.to_N 27)) "")
                           (String.append "[" (String.append code "m"))) rest)
    with (String (ascii_of_N 27)
            (String "[" (String.append (String.append code "m") rest))).
  unfold Color.match_ansi. cbn [Ascii.eqb Bool.eqb andb ascii_of_N ascii_of_pos].
  assert (E : String.append (String.append code "m") rest
              = String.append code (String "m" rest)).
  { clear H. induction code as [|c t IH]; [reflexivity|].
    change (String c (String.append (String.append t "m") rest)
            = String c (String.append t (String "m" rest))).
    rewrite IH. reflexivity. }
  rewrite E, (skip_params_code code rest H). reflexivity.
Qed.

Lemma skip_params_app_escape (t r : string) :
  Color.skip_params (String.append t (String (ascii_of_N 27) r))
  = match Color.skip_params t with
    | EmptyString => String (ascii_of_N 27) r
    | String m after => String m (String.append after (String (ascii_of_N 27) r))
    end.
Proof.
  induction t as [|c t IH]; [reflexivity|].
  rewrite append_cons. cbn [Color.skip_params].
  destruct (Color.is_param c); [exact IH|reflexivity].
Qed.

Lemma match_ansi_app_escape (c : ascii) (t r : string) :
  Color.match_ansi (String.append (String c t) (String (ascii_of_N 27) r))
  = match Color.match_ansi (String c t) with
    | Some after => Some (String.append after (String (ascii_of_N 27) r))
    | None => None
    end.
Proof.
  destruct t as [|b t].
  - rewrite append_cons. change (String.append "" ?x) with x.
    cbn [Color.match_ansi].
    change (Ascii.eqb (ascii_of_N 27) "[") with false. rewrite andb_false_r. reflexivity.
  - rewrite !append_cons. cbn [Color.match_ansi].
    destruct (Ascii.eqb c (ascii_of_N 27) && Ascii.eqb b "["); [|reflexivity].
    rewrite skip_params_app_escape.
    destruct (Color.skip_params t) as [|m after]; [reflexivity|].
    destruct (Ascii.eqb m "m"); reflexivity.
Qed.

Lemma replace_all_empty (n : nat) : Color.replace_all n EmptyString = EmptyString.
Proof. destruct n; reflexivity. Qed.

Lemma replace_all_app_escape (code : string) (n : nat) :
  Color.skip_params code = EmptyString ->
  forall t, (String.length t <= n)%nat ->
  Color.replace_all (n + String.length (Color.escape code))
    (String.append t (Color.escape code))
  = Color.replace_all n t.
Proof.
  intros Hcode.
  assert (He : exists r, Color.escape code = String (ascii_of_N 27) r).
  { eexists. reflexivity. }
  destruct He as [r He].
  assert (Hlen : (0 < String.length (Color.escape code))%nat) by (rewrite He; cbn; lia).
  induction n as [|n IH]; intros t Ht.
  - destruct t as [|c t]; [|cbn in Ht; lia].
    change (String.append "" ?x) with x. cbn [plus].
    destruct (String.length (Color.escape code)) as [|k] eqn:Ek; [lia|].
    cbn [Color.replace_all].
    rewrite <- (append_empty_r (Color.escape code)) at 1.
    rewrite (match_ansi_escape code EmptyString Hcode). apply replace_all_empty.
  - destruct t as [|c t].
    + change (String.append "" ?x) with x. cbn [plus Color.replace_all].
      rewrite <- (append_empty_r (Color.escape code)) at 1.
      rewrite (match_ansi_escape code EmptyString Hcode). apply replace_all_empty.
    + cbn [plus Color.replace_all]. rewrite He, match_ansi_app_escape, <- He.
      destruct (Color.match_ansi (String c t)) as [after|] eqn:E.
      * pose proof (match_ansi_shorter _ _ E) as Hs. cbn [String.length] in *.
        apply IH. lia.
      * rewrite append_cons. f_equal. cbn [String.length] in Ht. apply IH. lia.
Qed.

(** No escape byte, nothing to strip. *)
Fixpoint plain (s : string) : bool :=
  match s with
  | EmptyString => true
  | String c t => negb (Ascii.eqb c (ascii_of_N 27)) && plain t
  end.

Lemma replace_all_plain (n : nat) :
  forall s, plain s = true -> Color.replace_all n s = s.
Proof.
  induction n as [|n IH]; intros s Hp; [reflexivity|].
  destruct s as [|c t]; [reflexivity|].
  cbn [plain] in Hp. apply andb_prop in Hp. destruct Hp as [Hc Ht].
  apply negb_true_iff in Hc.
  cbn [Color.replace_all]. unfold Color.match_ansi.
  destruct t as [|b t']; rewrite ?Hc; cbn [andb]; (f_equal; apply IH; exact Ht).
Qed.

(** X30: [StripANSI] undoes [wrap], for every text: the opening sequence
    and the closing reset are removed and nothing else is touched, so
    stripping a wrapped text gives what stripping the text gives, and
    [VisualLength] does not see the colour.  For a text with no escape byte
    that is the text itself: [VisualLength(Red(text)) = len(text)]. *)
Theorem StripANSI_wrap (code text : string) :
  Color.skip_params code = EmptyString ->
  Color.StripANSI (Color.wrap code text) = Color.StripANSI text
  /\ Color.VisualLength (Color.wrap code text) = Color.VisualLength text
  /\ Color.StripANSI (Color.Red text) = Color.StripANSI text
  /\ (plain text = true ->
      Color.StripANSI (Color.wrap code text) = text
      /\ Color.VisualLength (Color.Red text) = len text).
Proof.
  intros Hcode.
  assert (Hwrap : forall c, Color.skip_params c = EmptyString ->
                  Color.StripANSI (Color.wrap c text) = Color.StripANSI text).
  { intros c Hc. unfold Color.wrap.
    assert (Hz : Color.skip_params "0" = EmptyString) by reflexivity.
    unfold Color.StripANSI at 1.
    set (body := String.append text (Color.escape "0")).
    assert (Hl : exists k, String.length (String.append (Color.escape c) body) = S k
                           /\ (String.length body <= k)%nat).
    { exists (String.length (String.append "[" (String.append c "m"))
              + String.length body)%nat.
      split; [rewrite length_append; reflexivity|lia]. }
    destruct Hl as [k [Ek Hk]]. rewrite Ek. cbn [Color.replace_all].
    rewrite (match_ansi_escape c body Hc).
    rewrite (StripANSI_fuel k body Hk). subst body.
    unfold Color.StripANSI at 1. rewrite length_append.
    rewrite (replace_all_app_escape "0" (String.length text) Hz text (le_n _)).
    reflexivity. }
  split; [exact (Hwrap code Hcode)|].
  split; [unfold Color.VisualLength; rewrite (Hwrap code Hcode); reflexivity|].
  split; [exact (Hwrap "31"%string eq_refl)|].
  intros Hp.
  assert (Hs : Color.StripANSI text = text) by (apply replace_all_plain; exact Hp).
  split; [rewrite (Hwrap code Hcode); exact Hs|].
  unfold Color.VisualLength, Color.Red. rewrite (Hwrap "31"%string eq_refl), Hs.
  reflexivity.
Qed.

Lemma StripANSI_wrap_witness :
  Color.StripANSI (Color.wrap "1;31" (Color.Green "ok")) = "ok"%string
  /\ Color.VisualLength (Color.Red "failed") = 6.
Proof.
  destruct (StripANSI_wrap "1;31" (Color.Green "ok") eq_refl) as [H1 _].
  destruct (StripANSI_wrap "31" "failed" eq_refl) as [_ [_ [_ H4]]].
  split; [rewrite H1; reflexivity|]. rewrite (proj2 (H4 eq_refl)). reflexivity.
Defined.

(** ** [RunWithTimeout] returns *)







Section TimeoutReturns.
Import RunWithTimeout.
Variable fn : error.
Variable timeout : Z.
Variable s0 : Spinner.Spinner.




Hypothesis Hnot_running : Spinner.running s0 = false.
Hypothesis Hduration : 0 < Spinner.frameDuration s0.






(** Runs whose labels all satisfy [ok]. *)
Section Routes.
Variable ok : label -> Prop.
Hypothesis ok_Main : ok Main.
Hypothesis ok_Exit : forall i, ok (Anim (SpinnerSystem.Exit i)).






End Routes.
End TimeoutReturns.


